(** * LocalDocs index of gpt4all-chat (gpt4all-chat/database.cpp)

    A shallow embedding of the document index: the relational store
    (tables [folders], [documents], [chunks], [chunks_fts], [collections]),
    the scan queue and its time-sliced worker, the chunker, the embedding
    coordinator, folder removal, and the n-gram retriever.

    Conventions of the model
    - Text is 8-bit: a [QString] is a [string], one character per byte.
    - C++ integers are [Z]; the counters of this file stay far from the
      limits of [int] and [size_t], no wrap-around is modelled.
    - [Q_ASSERT] is compiled out (release build).
    - A [QSqlQuery] statement (prepare, bind, exec) is one fallible step; its
      outcome is read from [m_faults].
    - Undefined behaviour of the C++ code (integer division by zero, taking
      from an empty queue) is the result [None] of the monad [M].
    - The file system is a parameter of the operations that read it; the
      time budget of a scan tick is the number of documents the 100 ms
      allow. *)

From stdpp Require Import gmap strings list fin_maps pretty.
From Stdlib Require Import ZArith Ascii String Lia.

Open Scope Z_scope.

(** ** Text: QString, QRegularExpression("\\s+"), QTextStream *)

Module Text.

(** [QChar::isSpace] and the class [\s] on 8-bit text: the space and the
    control characters 9 to 13. *)
Definition isSpace (c : ascii) : bool :=
  let n := nat_of_ascii c in
  ((n =? 32) || ((9 <=? n) && (n <=? 13)))%nat.

Definition isEmpty (s : string) : bool :=
  match s with EmptyString => true | String _ _ => false end.

Definition length (s : string) : Z := Z.of_nat (String.length s).

(** [QStringList::join]. *)
Definition join (sep : string) (l : list string) : string := String.concat sep l.

(** [QString::number] of an int. *)
Definition number (n : Z) : string := pretty n.

Fixpoint skipWhiteSpace (s : string) : string :=
  match s with
  | EmptyString => EmptyString
  | String c s' => if isSpace c then skipWhiteSpace s' else s
  end.

(** Scan up to, and not including, the next white space. *)
Fixpoint scanToken (s : string) : string * string :=
  match s with
  | EmptyString => (EmptyString, EmptyString)
  | String c s' =>
      if isSpace c then (EmptyString, s)
      else let (w, r) := scanToken s' in (String c w, r)
  end.

(** [QString::split(QRegularExpression("\\s+"))]: the parts between the
    maximal runs of white space, empty parts kept. *)
Fixpoint split_go (s : string) (cur : string) (inSep : bool) : list string :=
  match s with
  | EmptyString => [cur]
  | String c s' =>
      if isSpace c
      then (if inSep then split_go s' EmptyString true
            else cur :: split_go s' EmptyString true)
      else split_go s' (cur +:+ String c EmptyString) false
  end.

Definition split (s : string) : list string := split_go s EmptyString false.

(** The same with [Qt::SkipEmptyParts]. *)
Definition splitSkipEmptyParts (s : string) : list string :=
  List.filter (fun w => negb (isEmpty w)) (split s).

Fixpoint remove (p : ascii -> bool) (s : string) : string :=
  match s with
  | EmptyString => EmptyString
  | String c s' => if p c then remove p s' else String c (remove p s')
  end.

Fixpoint lastIndexOf (c : ascii) (s : string) : option nat :=
  match s with
  | EmptyString => None
  | String d s' =>
      match lastIndexOf c s' with
      | Some i => Some (S i)
      | None => if Ascii.eqb c d then Some O else None
      end
  end.

Definition dropFirst (n : nat) (s : string) : string :=
  String.substring n (String.length s - n) s.

(** A [QTextStream] being read: what is left of the data and the position
    reached. *)
Record QTextStream := mkStream { ts_data : string; ts_pos : Z }.

Definition atEnd (st : QTextStream) : bool := isEmpty (ts_data st).

Definition advance (st : QTextStream) (rest : string) : QTextStream :=
  {| ts_data := rest;
     ts_pos := ts_pos st + (length (ts_data st) - length rest) |}.

(** [stream >> word]: leading white space is skipped, the word ends before
    the next white space, which stays in the stream. At the end of the
    data the word is empty. *)
Definition readWord (st : QTextStream) : string * QTextStream :=
  let (w, rest) := scanToken (skipWhiteSpace (ts_data st)) in
  (w, advance st rest).

(** [stream.seek(pos)] on a stream over a file of content [data]. *)
Definition seek (data : string) (pos : Z) : QTextStream :=
  {| ts_data := dropFirst (Z.to_nat pos) data; ts_pos := pos |}.

End Text.

Export Text(QTextStream, mkStream, ts_data, ts_pos).

(** ** The relational store *)

(** folders(id integer primary key, folder_path varchar unique) *)
Record folders_row := mkFolder { f_id : positive; f_folder_path : string }.

(** documents(id integer primary key, folder_id, document_time,
    document_path varchar unique) *)
Record documents_row := mkDocument {
  d_id : positive;
  d_folder_id : Z;
  d_document_time : Z;
  d_document_path : string
}.

(** chunks(document_id, chunk_id integer primary key autoincrement,
    chunk_text, file, title, author, subject, keywords, page, line_from,
    line_to, words default 0, tokens default 0, has_embedding default 0) *)
Record chunks_row := mkChunk {
  c_document_id : Z;
  c_chunk_id : positive;
  c_chunk_text : string;
  c_file : string;
  c_title : string;
  c_author : string;
  c_subject : string;
  c_keywords : string;
  c_page : Z;
  c_line_from : Z;
  c_line_to : Z;
  c_words : Z;
  c_tokens : Z;
  c_has_embedding : Z
}.

(** chunks_fts(document_id unindexed, chunk_id unindexed, chunk_text, file,
    title, author, subject, keywords, page, line_from, line_to) *)
Record chunks_fts_row := mkChunkFts {
  t_document_id : Z;
  t_chunk_id : Z;
  t_chunk_text : string;
  t_file : string;
  t_title : string;
  t_author : string;
  t_subject : string;
  t_keywords : string;
  t_page : Z;
  t_line_from : Z;
  t_line_to : Z
}.

(** collections(collection_name, folder_id, last_update_time,
    embedding_model, force_indexing, unique(collection_name, folder_id)) *)
Record collections_row := mkCollection {
  k_collection_name : string;
  k_folder_id : Z;
  k_last_update_time : Z;
  k_embedding_model : string;
  k_force_indexing : bool
}.

(** The content of the database file. [seq_chunks] is the autoincrement
    counter of [chunks] (the largest chunk_id ever given out). *)
Record DB := mkDB {
  folders : list folders_row;
  documents : list documents_row;
  chunks : list chunks_row;
  chunks_fts : list chunks_fts_row;
  collections : list collections_row;
  seq_chunks : N
}.

Definition with_folders (v : list folders_row) (db : DB) : DB :=
  mkDB v (documents db) (chunks db) (chunks_fts db) (collections db) (seq_chunks db).
Definition with_documents (v : list documents_row) (db : DB) : DB :=
  mkDB (folders db) v (chunks db) (chunks_fts db) (collections db) (seq_chunks db).
Definition with_chunks (v : list chunks_row) (db : DB) : DB :=
  mkDB (folders db) (documents db) v (chunks_fts db) (collections db) (seq_chunks db).
Definition with_chunks_fts (v : list chunks_fts_row) (db : DB) : DB :=
  mkDB (folders db) (documents db) (chunks db) v (collections db) (seq_chunks db).
Definition with_collections (v : list collections_row) (db : DB) : DB :=
  mkDB (folders db) (documents db) (chunks db) (chunks_fts db) v (seq_chunks db).
Definition with_seq_chunks (v : N) (db : DB) : DB :=
  mkDB (folders db) (documents db) (chunks db) (chunks_fts db) (collections db) v.

(** The rowid SQLite gives to a new row of a table whose key is an integer
    primary key: one more than the largest in use. *)
Definition max_rowid (ids : list positive) : N :=
  foldr (fun p acc => N.max (Npos p) acc) 0%N ids.

Definition next_rowid (ids : list positive) : positive :=
  N.succ_pos (max_rowid ids).

(** With autoincrement the counter of the table is taken into account. *)
Definition next_chunk_id (db : DB) : positive :=
  N.succ_pos (N.max (seq_chunks db) (max_rowid (map c_chunk_id (chunks db)))).

(** ** External collaborators *)

(** A loaded PDF, as the extractor presents it: the text of each page and
    the metadata fields. *)
Record QPdfDocument := mkPdf {
  pdf_pages : list string;
  pdf_title : string;
  pdf_author : string;
  pdf_subject : string;
  pdf_keywords : string
}.

Definition pageCount (d : QPdfDocument) : Z := Z.of_nat (List.length (pdf_pages d)).

(** [getAllText(page).text()]: empty for a page that does not exist. *)
Definition getAllText (d : QPdfDocument) (page : Z) : string :=
  if page <? 0 then EmptyString
  else nth (Z.to_nat page) (pdf_pages d) EmptyString.

(** What the file system holds at a path. [file_pdf] is [None] when
    [QPdfDocument::load] reports an error for the file. *)
Record File := mkFile {
  file_readable : bool;
  file_time : Z;
  file_canonical : string;
  file_size : Z;
  file_isDir : bool;
  file_opens : bool;
  file_seeks : bool;
  file_text : string;
  file_pdf : option QPdfDocument
}.

(** The file system at the time of a call: the file at a path, if any, and
    what a recursive [QDirIterator] over a folder yields. *)
Record FileSystem := mkFS {
  fs_file : string -> option File;
  fs_entries : string -> list string
}.

(** A [QFileInfo]: a path and the cached result of the last [stat]. *)
Record QFileInfo := mkFileInfo { fi_path : string; fi_cache : option File }.

Definition stat (fs : FileSystem) (fi : QFileInfo) : QFileInfo :=
  mkFileInfo (fi_path fi) (fs_file fs (fi_path fi)).

Definition exists_ (fi : QFileInfo) : bool :=
  match fi_cache fi with Some _ => true | None => false end.
Definition isReadable (fi : QFileInfo) : bool :=
  match fi_cache fi with Some f => file_readable f | None => false end.
Definition isDir (fi : QFileInfo) : bool :=
  match fi_cache fi with Some f => file_isDir f | None => false end.
Definition fileTime (fi : QFileInfo) : Z :=
  match fi_cache fi with Some f => file_time f | None => 0 end.
Definition canonicalFilePath (fi : QFileInfo) : string :=
  match fi_cache fi with Some f => file_canonical f | None => EmptyString end.
Definition size (fi : QFileInfo) : Z :=
  match fi_cache fi with Some f => file_size f | None => 0 end.

Definition slash : ascii := "047"%char.
Definition dot : ascii := "046"%char.

Definition fileName (fi : QFileInfo) : string :=
  match Text.lastIndexOf slash (fi_path fi) with
  | Some i => Text.dropFirst (S i) (fi_path fi)
  | None => fi_path fi
  end.

Definition suffix (fi : QFileInfo) : string :=
  match Text.lastIndexOf dot (fileName fi) with
  | Some i => Text.dropFirst (S i) (fileName fi)
  | None => EmptyString
  end.

(** Modelled from the spec: an entry of the scan queue. The struct is
    declared in database.h, which is not part of the sources at hand; the
    fields are those the code uses and the spec lists (folder id, file
    handle, current page, current position, currently processing). *)
Record DocumentInfo := mkDocumentInfo {
  folder : Z;
  doc : QFileInfo;
  currentPage : Z;
  currentPosition : Z;
  currentlyProcessing : bool
}.

(** Modelled from the spec: [DocumentInfo::isPdf] is declared in database.h,
    which is not part of the sources at hand; the spec lists [is_pdf] among
    the fields a DocumentInfo carries and [pdf] among the recognised
    extensions. *)
Definition isPdf (info : DocumentInfo) : bool := String.eqb (suffix (doc info)) "pdf".

(** An embedding vector: the bit patterns of its floats. *)
Definition embedding : Type := list Z.

(** Modelled from the spec: the chunk handed to the embedder and the result
    it delivers (declared in embeddings.h): folder id, chunk id, and the
    text or the vector. *)
Record EmbeddingChunk := mkEmbeddingChunk {
  ec_folder_id : Z;
  ec_chunk_id : Z;
  ec_chunk : string
}.

Record EmbeddingResult := mkEmbeddingResult {
  er_folder_id : Z;
  er_chunk_id : Z;
  er_embedding : embedding
}.

(** Modelled from the spec: the vector index (class [Embeddings], declared in
    embeddings.h) is an external key to vector store with
    [add(vector, chunk_id) -> bool], [remove(chunk_id)] and [save()].
    [e_index] is the index in memory, [e_file] what the last [save] wrote,
    and [e_accepts] the verdict of the index on a vector it is asked to add. *)
Record Embeddings := mkEmbeddings {
  e_index : gmap Z embedding;
  e_file : gmap Z embedding;
  e_accepts : embedding -> Z -> bool
}.

Definition Embeddings_add (v : embedding) (id : Z) (e : Embeddings) : bool * Embeddings :=
  if e_accepts e v id
  then (true, mkEmbeddings (<[id := v]> (e_index e)) (e_file e) (e_accepts e))
  else (false, e).

Definition Embeddings_remove (id : Z) (e : Embeddings) : Embeddings :=
  mkEmbeddings (delete id (e_index e)) (e_file e) (e_accepts e).

Definition Embeddings_save (e : Embeddings) : Embeddings :=
  mkEmbeddings (e_index e) (e_index e) (e_accepts e).

(** Modelled from the spec: the embedder ([EmbeddingLLM], embeddings.h):
    [model_name()] and the batches handed to [embed_async]. *)
Record EmbeddingLLM := mkEmbeddingLLM {
  llm_model : string;
  llm_requests : list (list EmbeddingChunk)
}.

(** Modelled from the spec: the progress record of a collection shown by
    the GUI (declared in database.h), with the fields this file reads or
    writes. *)
Record CollectionItem := mkItem {
  collection : string;
  folder_path : string;
  folder_id : Z;
  installed : bool;
  indexing : bool;
  forceIndexing : bool;
  error : string;
  currentDocsToIndex : Z;
  totalDocsToIndex : Z;
  currentBytesToIndex : Z;
  totalBytesToIndex : Z;
  currentEmbeddingsToIndex : Z;
  totalEmbeddingsToIndex : Z;
  totalDocs : Z;
  totalWords : Z;
  totalTokens : Z;
  lastUpdate : Z;
  fileCurrentlyProcessing : string;
  embeddingModel : string
}.

(** A default-constructed item: empty texts, zero counters, flags off and
    no folder. *)
Definition CollectionItem_default : CollectionItem :=
  mkItem EmptyString EmptyString (-1) false false false EmptyString
         0 0 0 0 0 0 0 0 0 0 EmptyString EmptyString.

Definition set_installed (v : bool) (i : CollectionItem) : CollectionItem :=
  let '(mkItem a1 a2 a3 _ a5 a6 a7 a8 a9 a10 a11 a12 a13 a14 a15 a16 a17 a18 a19) := i in
  mkItem a1 a2 a3 v a5 a6 a7 a8 a9 a10 a11 a12 a13 a14 a15 a16 a17 a18 a19.
Definition set_indexing (v : bool) (i : CollectionItem) : CollectionItem :=
  let '(mkItem a1 a2 a3 a4 _ a6 a7 a8 a9 a10 a11 a12 a13 a14 a15 a16 a17 a18 a19) := i in
  mkItem a1 a2 a3 a4 v a6 a7 a8 a9 a10 a11 a12 a13 a14 a15 a16 a17 a18 a19.
Definition set_forceIndexing (v : bool) (i : CollectionItem) : CollectionItem :=
  let '(mkItem a1 a2 a3 a4 a5 _ a7 a8 a9 a10 a11 a12 a13 a14 a15 a16 a17 a18 a19) := i in
  mkItem a1 a2 a3 a4 a5 v a7 a8 a9 a10 a11 a12 a13 a14 a15 a16 a17 a18 a19.
Definition set_error (v : string) (i : CollectionItem) : CollectionItem :=
  let '(mkItem a1 a2 a3 a4 a5 a6 _ a8 a9 a10 a11 a12 a13 a14 a15 a16 a17 a18 a19) := i in
  mkItem a1 a2 a3 a4 a5 a6 v a8 a9 a10 a11 a12 a13 a14 a15 a16 a17 a18 a19.
Definition set_currentDocsToIndex (v : Z) (i : CollectionItem) : CollectionItem :=
  let '(mkItem a1 a2 a3 a4 a5 a6 a7 _ a9 a10 a11 a12 a13 a14 a15 a16 a17 a18 a19) := i in
  mkItem a1 a2 a3 a4 a5 a6 a7 v a9 a10 a11 a12 a13 a14 a15 a16 a17 a18 a19.
Definition set_totalDocsToIndex (v : Z) (i : CollectionItem) : CollectionItem :=
  let '(mkItem a1 a2 a3 a4 a5 a6 a7 a8 _ a10 a11 a12 a13 a14 a15 a16 a17 a18 a19) := i in
  mkItem a1 a2 a3 a4 a5 a6 a7 a8 v a10 a11 a12 a13 a14 a15 a16 a17 a18 a19.
Definition set_currentBytesToIndex (v : Z) (i : CollectionItem) : CollectionItem :=
  let '(mkItem a1 a2 a3 a4 a5 a6 a7 a8 a9 _ a11 a12 a13 a14 a15 a16 a17 a18 a19) := i in
  mkItem a1 a2 a3 a4 a5 a6 a7 a8 a9 v a11 a12 a13 a14 a15 a16 a17 a18 a19.
Definition set_totalBytesToIndex (v : Z) (i : CollectionItem) : CollectionItem :=
  let '(mkItem a1 a2 a3 a4 a5 a6 a7 a8 a9 a10 _ a12 a13 a14 a15 a16 a17 a18 a19) := i in
  mkItem a1 a2 a3 a4 a5 a6 a7 a8 a9 a10 v a12 a13 a14 a15 a16 a17 a18 a19.
Definition set_currentEmbeddingsToIndex (v : Z) (i : CollectionItem) : CollectionItem :=
  let '(mkItem a1 a2 a3 a4 a5 a6 a7 a8 a9 a10 a11 _ a13 a14 a15 a16 a17 a18 a19) := i in
  mkItem a1 a2 a3 a4 a5 a6 a7 a8 a9 a10 a11 v a13 a14 a15 a16 a17 a18 a19.
Definition set_totalEmbeddingsToIndex (v : Z) (i : CollectionItem) : CollectionItem :=
  let '(mkItem a1 a2 a3 a4 a5 a6 a7 a8 a9 a10 a11 a12 _ a14 a15 a16 a17 a18 a19) := i in
  mkItem a1 a2 a3 a4 a5 a6 a7 a8 a9 a10 a11 a12 v a14 a15 a16 a17 a18 a19.
Definition set_totalDocs (v : Z) (i : CollectionItem) : CollectionItem :=
  let '(mkItem a1 a2 a3 a4 a5 a6 a7 a8 a9 a10 a11 a12 a13 _ a15 a16 a17 a18 a19) := i in
  mkItem a1 a2 a3 a4 a5 a6 a7 a8 a9 a10 a11 a12 a13 v a15 a16 a17 a18 a19.
Definition set_totalWords (v : Z) (i : CollectionItem) : CollectionItem :=
  let '(mkItem a1 a2 a3 a4 a5 a6 a7 a8 a9 a10 a11 a12 a13 a14 _ a16 a17 a18 a19) := i in
  mkItem a1 a2 a3 a4 a5 a6 a7 a8 a9 a10 a11 a12 a13 a14 v a16 a17 a18 a19.
Definition set_totalTokens (v : Z) (i : CollectionItem) : CollectionItem :=
  let '(mkItem a1 a2 a3 a4 a5 a6 a7 a8 a9 a10 a11 a12 a13 a14 a15 _ a17 a18 a19) := i in
  mkItem a1 a2 a3 a4 a5 a6 a7 a8 a9 a10 a11 a12 a13 a14 a15 v a17 a18 a19.
Definition set_fileCurrentlyProcessing (v : string) (i : CollectionItem) : CollectionItem :=
  let '(mkItem a1 a2 a3 a4 a5 a6 a7 a8 a9 a10 a11 a12 a13 a14 a15 a16 a17 _ a19) := i in
  mkItem a1 a2 a3 a4 a5 a6 a7 a8 a9 a10 a11 a12 a13 a14 a15 a16 a17 v a19.

(** ** The engine *)

(** What the engine does to the transaction of the relational store and to
    the vector index, in the order it does it. *)
Inductive Event :=
| EvTransaction
| EvCommit
| EvRollback
| EvVectorAdd (v : embedding) (chunk_id : Z) (added : bool)
| EvVectorRemove (chunk_id : Z)
| EvVectorSave.

Global Instance Event_eq_dec : EqDecision Event.
Proof. solve_decision. Defined.

(** The members of class [Database] and the state of the connection.
    [m_txn] holds the content at the start of the open transaction;
    [m_faults] tells, for the statements to come, which ones fail
    ([true]); past its end every statement succeeds. *)
Record Database := mkDatabase {
  m_db : DB;
  m_txn : option DB;
  m_faults : list bool;
  m_chunkSize : Z;
  m_docsToScan : gmap Z (list DocumentInfo);
  m_chunkList : list EmbeddingChunk;
  m_collectionMap : gmap Z CollectionItem;
  m_embeddings : Embeddings;
  m_embLLM : EmbeddingLLM;
  m_watcher : list string;
  m_scanTimer : bool;
  m_log : list Event
}.

Definition with_db (f : DB -> DB) (s : Database) : Database :=
  mkDatabase (f (m_db s)) (m_txn s) (m_faults s) (m_chunkSize s) (m_docsToScan s)
    (m_chunkList s) (m_collectionMap s) (m_embeddings s) (m_embLLM s) (m_watcher s)
    (m_scanTimer s) (m_log s).
Definition with_txn (v : option DB) (s : Database) : Database :=
  mkDatabase (m_db s) v (m_faults s) (m_chunkSize s) (m_docsToScan s)
    (m_chunkList s) (m_collectionMap s) (m_embeddings s) (m_embLLM s) (m_watcher s)
    (m_scanTimer s) (m_log s).
Definition with_faults (v : list bool) (s : Database) : Database :=
  mkDatabase (m_db s) (m_txn s) v (m_chunkSize s) (m_docsToScan s)
    (m_chunkList s) (m_collectionMap s) (m_embeddings s) (m_embLLM s) (m_watcher s)
    (m_scanTimer s) (m_log s).
Definition with_chunkSize (v : Z) (s : Database) : Database :=
  mkDatabase (m_db s) (m_txn s) (m_faults s) v (m_docsToScan s)
    (m_chunkList s) (m_collectionMap s) (m_embeddings s) (m_embLLM s) (m_watcher s)
    (m_scanTimer s) (m_log s).
Definition with_docsToScan (f : gmap Z (list DocumentInfo) -> gmap Z (list DocumentInfo))
    (s : Database) : Database :=
  mkDatabase (m_db s) (m_txn s) (m_faults s) (m_chunkSize s) (f (m_docsToScan s))
    (m_chunkList s) (m_collectionMap s) (m_embeddings s) (m_embLLM s) (m_watcher s)
    (m_scanTimer s) (m_log s).
Definition with_chunkList (v : list EmbeddingChunk) (s : Database) : Database :=
  mkDatabase (m_db s) (m_txn s) (m_faults s) (m_chunkSize s) (m_docsToScan s)
    v (m_collectionMap s) (m_embeddings s) (m_embLLM s) (m_watcher s)
    (m_scanTimer s) (m_log s).
Definition with_collectionMap (f : gmap Z CollectionItem -> gmap Z CollectionItem)
    (s : Database) : Database :=
  mkDatabase (m_db s) (m_txn s) (m_faults s) (m_chunkSize s) (m_docsToScan s)
    (m_chunkList s) (f (m_collectionMap s)) (m_embeddings s) (m_embLLM s) (m_watcher s)
    (m_scanTimer s) (m_log s).
Definition with_embeddings (f : Embeddings -> Embeddings) (s : Database) : Database :=
  mkDatabase (m_db s) (m_txn s) (m_faults s) (m_chunkSize s) (m_docsToScan s)
    (m_chunkList s) (m_collectionMap s) (f (m_embeddings s)) (m_embLLM s) (m_watcher s)
    (m_scanTimer s) (m_log s).
Definition with_embLLM (f : EmbeddingLLM -> EmbeddingLLM) (s : Database) : Database :=
  mkDatabase (m_db s) (m_txn s) (m_faults s) (m_chunkSize s) (m_docsToScan s)
    (m_chunkList s) (m_collectionMap s) (m_embeddings s) (f (m_embLLM s)) (m_watcher s)
    (m_scanTimer s) (m_log s).
Definition with_watcher (f : list string -> list string) (s : Database) : Database :=
  mkDatabase (m_db s) (m_txn s) (m_faults s) (m_chunkSize s) (m_docsToScan s)
    (m_chunkList s) (m_collectionMap s) (m_embeddings s) (m_embLLM s) (f (m_watcher s))
    (m_scanTimer s) (m_log s).
Definition with_scanTimer (v : bool) (s : Database) : Database :=
  mkDatabase (m_db s) (m_txn s) (m_faults s) (m_chunkSize s) (m_docsToScan s)
    (m_chunkList s) (m_collectionMap s) (m_embeddings s) (m_embLLM s) (m_watcher s)
    v (m_log s).
Definition with_log (f : list Event -> list Event) (s : Database) : Database :=
  mkDatabase (m_db s) (m_txn s) (m_faults s) (m_chunkSize s) (m_docsToScan s)
    (m_chunkList s) (m_collectionMap s) (m_embeddings s) (m_embLLM s) (m_watcher s)
    (m_scanTimer s) (f (m_log s)).

(** The monad of the engine: state passing over [Database]; [None] is
    undefined behaviour of the C++ code. *)
Definition M (A : Type) : Type := Database -> option (A * Database).

Global Instance M_ret : MRet M := fun A a s => Some (a, s).
Global Instance M_bind : MBind M := fun A B f m s =>
  match m s with
  | Some (a, s') => f a s'
  | None => None
  end.

Definition gets {A : Type} (f : Database -> A) : M A := fun s => Some (f s, s).
Definition modify (f : Database -> Database) : M unit := fun s => Some (tt, f s).
Definition undefined {A : Type} : M A := fun _ => None.
Definition emit (e : Event) : M unit := modify (with_log (fun l => l ++ [e])).

(** One statement of a [QSqlQuery] is run: [true] when it succeeds. *)
Definition exec : M bool := fun s =>
  match m_faults s with
  | [] => Some (true, s)
  | b :: rest => Some (negb b, with_faults rest s)
  end.

Definition update_db (f : DB -> DB) : M unit := modify (with_db f).
Definition skip : M unit := mret tt.

(** ** Statements of the relational store

    Each function runs the statements of the C++ function of the same name.
    A reference or pointer parameter the C++ function writes to is passed in
    and returned next to the result. *)

Definition bindId (p : positive) : Z := Zpos p.

Definition selectFileForChunk (chunk_id : Z) (file : string) : M (bool * string) :=
  ok ← exec;
  if negb ok then mret (false, file) else
  db ← gets m_db;
  match List.filter (fun c => bindId (c_chunk_id c) =? chunk_id) (chunks db) with
  | [] => mret (false, file)
  | c :: _ => mret (true, c_file c)
  end.

Definition insert_chunk (document_id : Z) (chunk_text file title author subject keywords : string)
    (page from to words : Z) (db : DB) : DB :=
  let id := next_chunk_id db in
  with_seq_chunks (Npos id)
    (with_chunks (chunks db ++
       [mkChunk document_id id chunk_text file title author subject keywords
                page from to words 0 0]) db).

Definition last_insert_rowid (db : DB) : Z :=
  match seq_chunks db with N0 => 0 | Npos p => Zpos p end.

Definition insert_chunk_fts (document_id chunk_id : Z)
    (chunk_text file title author subject keywords : string) (page from to : Z) (db : DB) : DB :=
  with_chunks_fts (chunks_fts db ++
    [mkChunkFts document_id chunk_id chunk_text file title author subject keywords
                page from to]) db.

Definition addChunk (document_id : Z) (chunk_text file title author subject keywords : string)
    (page from to words : Z) (chunk_id : Z) : M (bool * Z) :=
  ok ← exec;
  if negb ok then mret (false, chunk_id) else
  update_db (insert_chunk document_id chunk_text file title author subject keywords
                          page from to words);;
  ok ← exec;
  if negb ok then mret (false, chunk_id) else
  db ← gets m_db;
  let chunk_id := last_insert_rowid db in
  ok ← exec;
  if negb ok then mret (false, chunk_id) else
  update_db (insert_chunk_fts document_id chunk_id chunk_text file title author subject
                              keywords page from to);;
  mret (true, chunk_id).

Definition delete_chunks (document_id : Z) (db : DB) : DB :=
  with_chunks (List.filter (fun c => negb (c_document_id c =? document_id)) (chunks db)) db.

Definition delete_chunks_fts (document_id : Z) (db : DB) : DB :=
  with_chunks_fts
    (List.filter (fun t => negb (t_document_id t =? document_id)) (chunks_fts db)) db.

Definition removeChunksByDocumentId (document_id : Z) : M bool :=
  ok ← exec;
  if negb ok then mret false else
  update_db (delete_chunks document_id);;
  ok ← exec;
  if negb ok then mret false else
  update_db (delete_chunks_fts document_id);;
  mret true.

Definition uncompleted_chunks (folder_id : Z) (db : DB) : list EmbeddingChunk :=
  c ← chunks db;
  d ← List.filter (fun d => (bindId (d_id d) =? c_document_id c)
                            && negb (c_has_embedding c =? 1)
                            && (d_folder_id d =? folder_id)) (documents db);
  [mkEmbeddingChunk (d_folder_id d) (bindId (c_chunk_id c)) (c_chunk_text c)].

Definition selectAllUncompletedChunks (folder_id : Z) (chunks : list EmbeddingChunk)
    : M (bool * list EmbeddingChunk) :=
  ok ← exec;
  if negb ok then mret (false, chunks) else
  db ← gets m_db;
  mret (true, chunks ++ uncompleted_chunks folder_id db).

Definition chunks_of_folder (folder_id : Z) (db : DB) : list chunks_row :=
  c ← chunks db;
  d ← List.filter (fun d => (bindId (d_id d) =? c_document_id c)
                            && (d_folder_id d =? folder_id)) (documents db);
  [c].

Definition selectCountChunks (folder_id : Z) (count : Z) : M (bool * Z) :=
  ok ← exec;
  if negb ok then mret (false, count) else
  db ← gets m_db;
  mret (true, Z.of_nat (List.length (chunks_of_folder folder_id db))).

(** The chunk row with [has_embedding = 1]. *)
Definition flagged (c : chunks_row) : chunks_row :=
  mkChunk (c_document_id c) (c_chunk_id c) (c_chunk_text c) (c_file c) (c_title c)
    (c_author c) (c_subject c) (c_keywords c) (c_page c) (c_line_from c) (c_line_to c)
    (c_words c) (c_tokens c) 1.

Definition set_has_embedding (chunk_id : Z) (db : DB) : DB :=
  with_chunks
    (map (fun c => if bindId (c_chunk_id c) =? chunk_id then flagged c else c) (chunks db)) db.

Definition updateChunkHasEmbedding (chunk_id : Z) : M bool :=
  ok ← exec;
  if negb ok then mret false else
  update_db (set_has_embedding chunk_id);;
  mret true.

Definition is_collection (collection_name : string) (folder_id : Z) (k : collections_row) : bool :=
  String.eqb (k_collection_name k) collection_name && (k_folder_id k =? folder_id).

Definition addCollection (collection_name : string) (folder_id : Z) (last_update : Z)
    (embedding_model : string) (force_indexing : bool) : M bool :=
  ok ← exec;
  if negb ok then mret false else
  db ← gets m_db;
  if existsb (is_collection collection_name folder_id) (collections db) then mret false else
  update_db (with_collections (collections db ++
    [mkCollection collection_name folder_id last_update embedding_model force_indexing]));;
  mret true.

Definition delete_collection (collection_name : string) (folder_id : Z) (db : DB) : DB :=
  with_collections
    (List.filter (fun k => negb (is_collection collection_name folder_id k)) (collections db)) db.

Definition removeCollection (collection_name : string) (folder_id : Z) : M bool :=
  ok ← exec;
  if negb ok then mret false else
  update_db (delete_collection collection_name folder_id);;
  mret true.

Definition folders_of_collection (collection_name : string) (db : DB) : list (Z * string) :=
  k ← List.filter (fun k => String.eqb (k_collection_name k) collection_name) (collections db);
  f ← List.filter (fun f => bindId (f_id f) =? k_folder_id k) (folders db);
  [(bindId (f_id f), f_folder_path f)].

Definition selectFoldersFromCollection (collection_name : string) (folders : list (Z * string))
    : M (bool * list (Z * string)) :=
  ok ← exec;
  if negb ok then mret (false, folders) else
  db ← gets m_db;
  mret (true, folders ++ folders_of_collection collection_name db).

Definition collections_of_folder (folder_id : Z) (db : DB) : list string :=
  map k_collection_name (List.filter (fun k => k_folder_id k =? folder_id) (collections db)).

Definition selectCollectionsFromFolder (folder_id : Z) (collections : list string)
    : M (bool * list string) :=
  ok ← exec;
  if negb ok then mret (false, collections) else
  db ← gets m_db;
  mret (true, collections ++ collections_of_folder folder_id db).

(** The order of [order by c.collection_name asc, f.folder_path asc]. *)
Definition item_leb (a b : CollectionItem) : bool :=
  match String.compare (collection a) (collection b) with
  | Lt => true
  | Gt => false
  | Eq => match String.compare (folder_path a) (folder_path b) with
          | Gt => false
          | _ => true
          end
  end.

Fixpoint insert_item (a : CollectionItem) (l : list CollectionItem) : list CollectionItem :=
  match l with
  | [] => [a]
  | b :: l' => if item_leb a b then a :: l else b :: insert_item a l'
  end.

Definition order_items (l : list CollectionItem) : list CollectionItem :=
  foldr insert_item [] l.

Definition all_collections (db : DB) : list CollectionItem :=
  order_items (
    k ← collections db;
    f ← List.filter (fun f => bindId (f_id f) =? k_folder_id k) (folders db);
    [mkItem (k_collection_name k) (f_folder_path f) (bindId (f_id f)) true false
            (k_force_indexing k) EmptyString 0 0 0 0 0 0 0 0 0
            (k_last_update_time k) EmptyString (k_embedding_model k)]).

(** The select of the current version of the schema
    ([SELECT_COLLECTIONS_SQL_V2]); the older one is used by the migration
    only. *)
Definition selectAllFromCollections (collections : list CollectionItem)
    : M (bool * list CollectionItem) :=
  ok ← exec;
  if negb ok then mret (false, collections) else
  db ← gets m_db;
  mret (true, collections ++ all_collections db).

Definition addFolderToDB (folder_path : string) (folder_id : Z) : M (bool * Z) :=
  ok ← exec;
  if negb ok then mret (false, folder_id) else
  db ← gets m_db;
  if existsb (fun f => String.eqb (f_folder_path f) folder_path) (folders db)
  then mret (false, folder_id) else
  let id := next_rowid (map f_id (folders db)) in
  update_db (with_folders (folders db ++ [mkFolder id folder_path]));;
  mret (true, bindId id).

Definition delete_folder (folder_id : Z) (db : DB) : DB :=
  with_folders (List.filter (fun f => negb (bindId (f_id f) =? folder_id)) (folders db)) db.

Definition removeFolderFromDB (folder_id : Z) : M bool :=
  ok ← exec;
  if negb ok then mret false else
  update_db (delete_folder folder_id);;
  mret true.

Definition selectFolder (folder_path : string) (id : Z) : M (bool * Z) :=
  ok ← exec;
  if negb ok then mret (false, id) else
  db ← gets m_db;
  match List.filter (fun f => String.eqb (f_folder_path f) folder_path) (folders db) with
  | [] => mret (true, id)
  | f :: _ => mret (true, bindId (f_id f))
  end.

Definition addDocument (folder_id : Z) (document_time : Z) (document_path : string)
    (document_id : Z) : M (bool * Z) :=
  ok ← exec;
  if negb ok then mret (false, document_id) else
  db ← gets m_db;
  if existsb (fun d => String.eqb (d_document_path d) document_path) (documents db)
  then mret (false, document_id) else
  let id := next_rowid (map d_id (documents db)) in
  update_db (with_documents (documents db ++
    [mkDocument id folder_id document_time document_path]));;
  mret (true, bindId id).

Definition delete_document (document_id : Z) (db : DB) : DB :=
  with_documents
    (List.filter (fun d => negb (bindId (d_id d) =? document_id)) (documents db)) db.

Definition removeDocument (document_id : Z) : M bool :=
  ok ← exec;
  if negb ok then mret false else
  update_db (delete_document document_id);;
  mret true.

Definition set_document_time (id : Z) (document_time : Z) (db : DB) : DB :=
  with_documents
    (map (fun d => if bindId (d_id d) =? id
                   then mkDocument (d_id d) (d_folder_id d) document_time (d_document_path d)
                   else d) (documents db)) db.

Definition updateDocument (id : Z) (document_time : Z) : M bool :=
  ok ← exec;
  if negb ok then mret false else
  update_db (set_document_time id document_time);;
  mret true.

Definition selectDocument (document_path : string) (id : Z) (document_time : Z)
    : M (bool * Z * Z) :=
  ok ← exec;
  if negb ok then mret (false, id, document_time) else
  db ← gets m_db;
  match List.filter (fun d => String.eqb (d_document_path d) document_path) (documents db) with
  | [] => mret (true, id, document_time)
  | d :: _ => mret (true, bindId (d_id d), d_document_time d)
  end.

Definition documents_of_folder (folder_id : Z) (db : DB) : list Z :=
  map (fun d => bindId (d_id d)) (List.filter (fun d => d_folder_id d =? folder_id) (documents db)).

Definition selectDocuments (folder_id : Z) (documentIds : list Z) : M (bool * list Z) :=
  ok ← exec;
  if negb ok then mret (false, documentIds) else
  db ← gets m_db;
  mret (true, documentIds ++ documents_of_folder folder_id db).

Definition all_documents (db : DB) : list (Z * string) :=
  map (fun d => (bindId (d_id d), d_document_path d)) (documents db).

Fixpoint distinct (l : list Z) : list Z :=
  match l with
  | [] => []
  | x :: l' => x :: List.filter (fun y => negb (y =? x)) (distinct l')
  end.

Definition sumZ (l : list Z) : Z := foldr Z.add 0 l.

Definition selectCountStatistics (folder_id : Z) (total : Z * Z * Z)
    : M (bool * (Z * Z * Z)) :=
  ok ← exec;
  if negb ok then mret (false, total) else
  db ← gets m_db;
  let ds := documents_of_folder folder_id db in
  let cs := c ← chunks db;
            _ ← List.filter (fun d => d =? c_document_id c) ds;
            [c] in
  mret (true, (Z.of_nat (List.length (distinct ds)),
               sumZ (map c_words cs), sumZ (map c_tokens cs))).

Definition chunks_of_document (document_id : Z) (db : DB) : list Z :=
  map (fun c => bindId (c_chunk_id c))
      (List.filter (fun c => c_document_id c =? document_id) (chunks db)).

(** ** Operations of class Database *)

Definition transaction : M unit :=
  db ← gets m_db;
  modify (with_txn (Some db));;
  emit EvTransaction.

Definition commit : M unit :=
  modify (with_txn None);;
  emit EvCommit.

Definition rollback : M unit :=
  t ← gets m_txn;
  match t with
  | Some db => modify (with_db (fun _ => db))
  | None => skip
  end;;
  modify (with_txn None);;
  emit EvRollback.

Definition Embeddings_add_M (v : embedding) (id : Z) : M bool :=
  e ← gets m_embeddings;
  let (ok, e') := Embeddings_add v id e in
  modify (with_embeddings (fun _ => e'));;
  emit (EvVectorAdd v id ok);;
  mret ok.

Definition Embeddings_remove_M (id : Z) : M unit :=
  modify (with_embeddings (Embeddings_remove id));;
  emit (EvVectorRemove id).

Definition Embeddings_save_M : M unit :=
  modify (with_embeddings Embeddings_save);;
  emit EvVectorSave.

Fixpoint removeAll (chunksToRemove : list Z) : M unit :=
  match chunksToRemove with
  | [] => skip
  | chunk :: rest => Embeddings_remove_M chunk;; removeAll rest
  end.

Definition guiCollectionItem (folder_id : Z) : M CollectionItem :=
  gets (fun s => default CollectionItem_default (m_collectionMap s !! folder_id)).

Definition updateGuiForCollectionItem (item : CollectionItem) : M unit :=
  modify (with_collectionMap (insert (folder_id item) item)).

Definition addGuiCollectionItem (item : CollectionItem) : M unit :=
  modify (with_collectionMap (insert (folder_id item) item)).

Definition removeGuiFolderById (folder_id : Z) : M unit :=
  modify (with_collectionMap (delete folder_id)).

Definition guiCollectionListUpdated (collectionList : list CollectionItem) : M unit :=
  modify (with_collectionMap (fun m =>
    foldl (fun m i => <[folder_id i := i]> m) m collectionList)).

Definition s_batchSize : Z := 100.

Definition sendChunkList : M unit :=
  l ← gets m_chunkList;
  modify (with_embLLM (fun e => mkEmbeddingLLM (llm_model e) (llm_requests e ++ [l])));;
  modify (with_chunkList []).

Definition appendChunk (chunk : EmbeddingChunk) : M unit :=
  l ← gets m_chunkList;
  modify (with_chunkList (l ++ [chunk]));;
  if Z.of_nat (List.length (l ++ [chunk])) >=? s_batchSize then sendChunkList else skip.

Definition scheduleNext (folder_id : Z) (countForFolder : Z) : M unit :=
  item ← guiCollectionItem folder_id;
  let item := set_currentDocsToIndex countForFolder item in
  if countForFolder =? 0 then
    sendChunkList;;
    updateGuiForCollectionItem (set_installed true (set_indexing false item))
  else updateGuiForCollectionItem item.

(** The loop of [chunkStream]. One turn per [fuel]; a turn reads at least
    one character, so the length of the data plus one is fuel enough. *)
Fixpoint chunkStream_loop (fuel : nat) (stream : QTextStream) (folder_id document_id : Z)
    (file title author subject keywords : string) (page maxChunks : Z)
    (charCount : Z) (words : list string) (chunks addedWords : Z)
    : M (QTextStream * Z * Z) :=
  match fuel with
  | O => mret (stream, chunks, addedWords)
  | S fuel' =>
      if Text.atEnd stream then mret (stream, chunks, addedWords) else
      let (word, stream) := Text.readWord stream in
      let charCount := charCount + Text.length word in
      let words := if negb (Text.isEmpty word) then words ++ [word] else words in
      chunkSize ← gets m_chunkSize;
      if (charCount + Z.of_nat (List.length words) - 1 >=? chunkSize) || Text.atEnd stream then
        let chunk := Text.join " " words in
        '(_, chunk_id) ← addChunk document_id chunk file title author subject keywords
                              page (-1) (-1) (Z.of_nat (List.length words)) 0;
        let addedWords := addedWords + Z.of_nat (List.length words) in
        appendChunk (mkEmbeddingChunk folder_id chunk_id chunk);;
        let chunks := chunks + 1 in
        if (maxChunks >? 0) && (chunks =? maxChunks)
        then mret (stream, chunks, addedWords)
        else chunkStream_loop fuel' stream folder_id document_id file title author subject
               keywords page maxChunks 0 [] chunks addedWords
      else chunkStream_loop fuel' stream folder_id document_id file title author subject
             keywords page maxChunks charCount words chunks addedWords
  end.

(** [chunkStream]. The copy of the GUI item made before the loop is
    never stored and is left out. *)
Definition chunkStream (stream : QTextStream) (folder_id document_id : Z)
    (file title author subject keywords : string) (page maxChunks : Z) : M Z :=
  '(stream, chunks, addedWords) ←
     chunkStream_loop (S (String.length (ts_data stream))) stream folder_id document_id
       file title author subject keywords page maxChunks 0 [] 0 0;
  (if negb (chunks =? 0) then
     item ← guiCollectionItem folder_id;
     updateGuiForCollectionItem
       (set_totalWords (totalWords item + addedWords)
          (set_totalEmbeddingsToIndex (totalEmbeddingsToIndex item + chunks) item))
   else skip);;
  mret (ts_pos stream).

Fixpoint embeddings_loop (embeddings : list EmbeddingResult) (folder_id : Z) : M Z :=
  match embeddings with
  | [] => mret folder_id
  | e :: rest =>
      ok ← Embeddings_add_M (er_embedding e) (er_chunk_id e);
      (if (ok : bool) then updateChunkHasEmbedding (er_chunk_id e);; skip else skip);;
      embeddings_loop rest (er_folder_id e)
  end.

Definition handleEmbeddingsGenerated (embeddings : list EmbeddingResult) : M unit :=
  match embeddings with
  | [] => skip
  | first :: _ =>
      folder_id ← embeddings_loop embeddings 0;
      '(_, file) ← selectFileForChunk (er_chunk_id first) EmptyString;
      item ← guiCollectionItem folder_id;
      updateGuiForCollectionItem
        (set_fileCurrentlyProcessing file
           (set_currentEmbeddingsToIndex
              (currentEmbeddingsToIndex item + Z.of_nat (List.length embeddings)) item));;
      Embeddings_save_M
  end.

Definition handleErrorGenerated (folder_id : Z) (error : string) : M unit :=
  item ← guiCollectionItem folder_id;
  updateGuiForCollectionItem (set_error error item).

Definition getChunksByDocumentId (document_id : Z) (chunkIds : list Z) : M (bool * list Z) :=
  ok ← exec;
  if negb ok then mret (false, chunkIds) else
  db ← gets m_db;
  mret (true, chunkIds ++ chunks_of_document document_id db).

Definition countOfDocuments (folder_id : Z) : M Z :=
  gets (fun s => match m_docsToScan s !! folder_id with
                 | None => 0
                 | Some q => Z.of_nat (List.length q)
                 end).

Definition countOfBytes (folder_id : Z) : M Z :=
  gets (fun s => match m_docsToScan s !! folder_id with
                 | None => 0
                 | Some q => sumZ (map (fun f => size (doc f)) q)
                 end).

(** [QMap::firstKey]: the smallest key. *)
Definition firstKey (m : gmap Z (list DocumentInfo)) : option Z :=
  foldr (fun k acc => Some (match acc with None => k | Some a => Z.min k a end))
        None (map_to_list m).*1.

Definition dequeueDocument : M DocumentInfo :=
  m ← gets m_docsToScan;
  match firstKey m with
  | None => undefined
  | Some key =>
      match m !! key with
      | Some (result :: queue) =>
          modify (with_docsToScan (fun m =>
            match queue with
            | [] => delete key m
            | _ => <[key := queue]> m
            end));;
          mret result
      | _ => undefined
      end
  end.

Definition removeFolderFromDocumentQueue (folder_id : Z) : M unit :=
  m ← gets m_docsToScan;
  match m !! folder_id with
  | None => skip
  | Some _ =>
      modify (with_docsToScan (delete folder_id));;
      removeGuiFolderById folder_id
  end.

Definition enqueueDocumentInternal (info : DocumentInfo) (prepend : bool) : M unit :=
  modify (with_docsToScan (fun m =>
    let q := default [] (m !! folder info) in
    <[folder info := if prepend then info :: q else q ++ [info]]> m)).

Fixpoint enqueueAll (infos : list DocumentInfo) : M unit :=
  match infos with
  | [] => skip
  | i :: rest => enqueueDocumentInternal i false;; enqueueAll rest
  end.

Definition enqueueDocuments (folder_id : Z) (infos : list DocumentInfo) : M unit :=
  enqueueAll infos;;
  count ← countOfDocuments folder_id;
  item ← guiCollectionItem folder_id;
  bytes ← countOfBytes folder_id;
  updateGuiForCollectionItem
    (set_totalBytesToIndex bytes (set_currentBytesToIndex bytes
       (set_totalDocsToIndex count (set_currentDocsToIndex count item))));;
  modify (with_scanTimer true).

Fixpoint statistics_loop (collections : list CollectionItem) : M unit :=
  match collections with
  | [] => skip
  | i :: rest =>
      '(ok, (total_docs, total_words, total_tokens)) ←
         selectCountStatistics (folder_id i) (0, 0, 0);
      (if (ok : bool) then
         item ← guiCollectionItem (folder_id i);
         updateGuiForCollectionItem
           (set_totalTokens total_tokens (set_totalWords total_words
              (set_totalDocs total_docs item)))
       else skip);;
      statistics_loop rest
  end.

Definition updateCollectionStatistics : M unit :=
  '(ok, collections) ← selectAllFromCollections [];
  if negb ok then mret tt else statistics_loop collections.

(** A step of a C++ function body: it returns from the function, or control
    goes on with a value. *)
Inductive flow (A : Type) : Type :=
| Return (result : bool)
| Next (a : A).
Arguments Return {A} result.
Arguments Next {A} a.

(** Modelled from the spec: the default of parameter [maxChunks] of
    [chunkStream] is set in database.h; the spec has a cap only for
    [maxChunks > 0], and a call that passes none has no cap. *)
Definition maxChunks_default : Z := -1.

(** [scanQueue], the document is known and not being processed: skip it
    when its time is the stored one, else drop its chunks. *)
Definition scanQueue_existing (folder_id countForFolder : Z) (existing_id existing_time : Z)
    (document_time : Z) (chunksToRemove : list Z) : M (flow unit * list Z) :=
  if document_time =? existing_time then
    scheduleNext folder_id countForFolder;;
    mret (Return true, chunksToRemove)
  else
    '(ok, chunksToRemove) ← getChunksByDocumentId existing_id chunksToRemove;
    if negb ok then
      scheduleNext folder_id countForFolder;;
      mret (Return false, chunksToRemove)
    else
      ok ← removeChunksByDocumentId existing_id;
      if negb ok then
        scheduleNext folder_id countForFolder;;
        mret (Return false, chunksToRemove)
      else
        updateCollectionStatistics;;
        mret (Next tt, chunksToRemove).

(** [scanQueue], the document row: its time is updated, or the row is
    added. *)
Definition scanQueue_document (folder_id countForFolder : Z) (existing_id : Z)
    (document_time : Z) (document_path : string) (currentlyProcessing : bool) : M (flow Z) :=
  let document_id := existing_id in
  if negb currentlyProcessing then
    if negb (document_id =? -1) then
      ok ← updateDocument document_id document_time;
      if negb ok then
        scheduleNext folder_id countForFolder;;
        mret (Return false)
      else mret (Next document_id)
    else
      '(ok, document_id) ← addDocument folder_id document_time document_path document_id;
      if negb ok then
        scheduleNext folder_id countForFolder;;
        mret (Return false)
      else
        item ← guiCollectionItem folder_id;
        updateGuiForCollectionItem (set_totalDocs (totalDocs item + 1) item);;
        mret (Next document_id)
  else mret (Next document_id).

Definition with_currentPage (v : Z) (info : DocumentInfo) : DocumentInfo :=
  mkDocumentInfo (folder info) (doc info) v (currentPosition info) (currentlyProcessing info).
Definition with_currentPosition (v : Z) (info : DocumentInfo) : DocumentInfo :=
  mkDocumentInfo (folder info) (doc info) (currentPage info) v (currentlyProcessing info).
Definition with_currentlyProcessing (v : bool) (info : DocumentInfo) : DocumentInfo :=
  mkDocumentInfo (folder info) (doc info) (currentPage info) (currentPosition info) v.
Definition with_doc (v : QFileInfo) (info : DocumentInfo) : DocumentInfo :=
  mkDocumentInfo (folder info) v (currentPage info) (currentPosition info)
    (currentlyProcessing info).

(** [scanQueue], a PDF: one page per call. *)
Definition scanQueue_pdf (fs : FileSystem) (info : DocumentInfo) (folder_id countForFolder : Z)
    (document_id : Z) : M (flow unit) :=
  match fs_file fs (canonicalFilePath (doc info)) ≫= file_pdf with
  | None =>
      scheduleNext folder_id countForFolder;;
      mret (Return false)
  | Some pdf =>
      let bytes := size (doc info) in
      if pageCount pdf =? 0 then undefined else
      let bytesPerPage := Z.quot bytes (pageCount pdf) in
      let pageIndex := currentPage info in
      let text := getAllText pdf pageIndex in
      chunkStream (mkStream text 0) (folder info) document_id (fileName (doc info))
        (pdf_title pdf) (pdf_author pdf) (pdf_subject pdf) (pdf_keywords pdf)
        (pageIndex + 1) maxChunks_default;;
      item ← guiCollectionItem (folder info);
      let item := set_currentBytesToIndex (currentBytesToIndex item - bytesPerPage) item in
      updateGuiForCollectionItem item;;
      if currentPage info <? pageCount pdf then
        let info := with_currentlyProcessing true (with_currentPage (currentPage info + 1) info) in
        enqueueDocumentInternal info true;;
        scheduleNext folder_id (countForFolder + 1);;
        mret (Return true)
      else
        updateGuiForCollectionItem
          (set_currentBytesToIndex
             (currentBytesToIndex item - (bytes - bytesPerPage * pageCount pdf)) item);;
        mret (Next tt)
  end.

(** [scanQueue], a text file: at most 100 chunks per call. *)
Definition scanQueue_text (fs : FileSystem) (info : DocumentInfo) (folder_id countForFolder : Z)
    (document_id : Z) (document_path : string) : M (flow unit) :=
  match fs_file fs document_path with
  | Some file =>
      if negb (file_opens file) then
        scheduleNext folder_id countForFolder;;
        mret (Return false)
      else
      let bytes := size (doc info) in
      let byteIndex := currentPosition info in
      if negb (file_seeks file) then
        scheduleNext folder_id countForFolder;;
        mret (Return false)
      else
      pos ← chunkStream (Text.seek (file_text file) byteIndex) (folder info) document_id
               (fileName (doc info)) EmptyString EmptyString EmptyString EmptyString (-1) 100;
      let bytesChunked := pos - byteIndex in
      item ← guiCollectionItem (folder info);
      updateGuiForCollectionItem
        (set_currentBytesToIndex (currentBytesToIndex item - bytesChunked) item);;
      if currentPosition info <? bytes then
        let info := with_currentlyProcessing true (with_currentPosition pos info) in
        enqueueDocumentInternal info true;;
        scheduleNext folder_id (countForFolder + 1);;
        mret (Return true)
      else mret (Next tt)
  | None =>
      scheduleNext folder_id countForFolder;;
      mret (Return false)
  end.

Definition scanQueue (fs : FileSystem) (chunksToRemove : list Z) : M (bool * list Z) :=
  info ← dequeueDocument;
  countForFolder ← countOfDocuments (folder info);
  let folder_id := folder info in
  let info := with_doc (stat fs (doc info)) info in
  if negb (exists_ (doc info)) || negb (isReadable (doc info)) then
    scheduleNext folder_id countForFolder;;
    mret (true, chunksToRemove)
  else
  let document_time := fileTime (doc info) in
  let document_path := canonicalFilePath (doc info) in
  '(ok, existing_id, existing_time) ← selectDocument document_path (-1) (-1);
  if negb ok then
    scheduleNext folder_id countForFolder;;
    mret (false, chunksToRemove)
  else
  '(step, chunksToRemove) ←
     (if negb (existing_id =? -1) && negb (currentlyProcessing info)
      then scanQueue_existing folder_id countForFolder existing_id existing_time
             document_time chunksToRemove
      else mret (Next tt, chunksToRemove));
  match step with
  | Return result => mret (result, chunksToRemove)
  | Next _ =>
      step ← scanQueue_document folder_id countForFolder existing_id document_time
               document_path (currentlyProcessing info);
      match step with
      | Return result => mret (result, chunksToRemove)
      | Next document_id =>
          step ← (if isPdf info
                  then scanQueue_pdf fs info folder_id countForFolder document_id
                  else scanQueue_text fs info folder_id countForFolder document_id
                         document_path);
          match step with
          | Return result => mret (result, chunksToRemove)
          | Next _ =>
              scheduleNext folder_id countForFolder;;
              mret (true, chunksToRemove)
          end
      end
  end.

(** The loop of [scanQueueBatch]. [budget] is the number of times the test
    [timer.elapsed() < 100] holds. *)
Fixpoint scanQueueBatch_loop (fs : FileSystem) (budget : nat) (chunksToRemove : list Z)
    : M (bool * list Z) :=
  match budget with
  | O => mret (true, chunksToRemove)
  | S budget' =>
      m ← gets m_docsToScan;
      if bool_decide (m = ∅) then mret (true, chunksToRemove) else
      '(ok, chunksToRemove) ← scanQueue fs chunksToRemove;
      if negb ok then mret (false, chunksToRemove)
      else scanQueueBatch_loop fs budget' chunksToRemove
  end.

Definition scanQueueBatch (fs : FileSystem) (budget : nat) : M unit :=
  transaction;;
  '(ok, chunksToRemove) ← scanQueueBatch_loop fs budget [];
  if negb ok then rollback
  else
    removeAll chunksToRemove;;
    commit;;
    match chunksToRemove with
    | [] => skip
    | _ => Embeddings_save_M
    end.

Definition addFolderToWatch (path : string) : M bool :=
  w ← gets m_watcher;
  if existsb (String.eqb path) w then mret false
  else modify (with_watcher (fun w => w ++ [path]));; mret true.

Definition removeFolderFromWatch (path : string) : M bool :=
  w ← gets m_watcher;
  modify (with_watcher (List.filter (fun p => negb (String.eqb path p))));;
  mret (existsb (String.eqb path) w).

Definition extensions : list string := ["txt"; "pdf"; "md"; "rst"].

Fixpoint scanDocuments_loop (fs : FileSystem) (folder_id : Z) (entries : list string)
    (infos : list DocumentInfo) : M (list DocumentInfo) :=
  match entries with
  | [] => mret infos
  | path :: rest =>
      let fileInfo := stat fs (mkFileInfo path None) in
      if isDir fileInfo then
        addFolderToWatch (canonicalFilePath fileInfo);;
        scanDocuments_loop fs folder_id rest infos
      else if negb (existsb (String.eqb (suffix fileInfo)) extensions) then
        scanDocuments_loop fs folder_id rest infos
      else
        scanDocuments_loop fs folder_id rest
          (infos ++ [mkDocumentInfo folder_id fileInfo 0 0 false])
  end.

Definition scanDocuments (fs : FileSystem) (folder_id : Z) (folder_path : string) : M unit :=
  infos ← scanDocuments_loop fs folder_id (fs_entries fs folder_path) [];
  match infos with
  | [] => skip
  | _ =>
      item ← guiCollectionItem folder_id;
      updateGuiForCollectionItem (set_indexing true item);;
      enqueueDocuments folder_id infos
  end.

(** [QList::mid(i, s_batchSize)] for [i = 0, s_batchSize, ...]. *)
Fixpoint batches (fuel : nat) (l : list EmbeddingChunk) : list (list EmbeddingChunk) :=
  match fuel, l with
  | _, [] => []
  | O, _ => []
  | S fuel', _ =>
      firstn (Z.to_nat s_batchSize) l :: batches fuel' (skipn (Z.to_nat s_batchSize) l)
  end.

Definition scheduleUncompletedEmbeddings (folder_id : Z) : M unit :=
  '(ok, chunkList) ← selectAllUncompletedChunks folder_id [];
  if negb ok then skip else
  match chunkList with
  | [] => skip
  | _ =>
      '(ok, total) ← selectCountChunks folder_id 0;
      if negb ok then skip else
      item ← guiCollectionItem folder_id;
      updateGuiForCollectionItem
        (set_currentEmbeddingsToIndex (total - Z.of_nat (List.length chunkList))
           (set_totalEmbeddingsToIndex total item));;
      modify (with_embLLM (fun e =>
        mkEmbeddingLLM (llm_model e)
          (llm_requests e ++ batches (List.length chunkList) chunkList)))
  end.

Definition checkAndAddFolderToDB (fs : FileSystem) (path : string) : M Z :=
  let info := stat fs (mkFileInfo path None) in
  if negb (exists_ info) || negb (isReadable info) then mret (-1) else
  '(ok, folder_id) ← selectFolder path (-1);
  if negb ok then mret (-1) else
  if folder_id =? -1 then
    '(ok, folder_id) ← addFolderToDB path folder_id;
    if negb ok then mret (-1) else mret folder_id
  else mret folder_id.

Definition containsFolderId (folders : list (Z * string)) (folder_id : Z) : bool :=
  existsb (fun folder => folder.1 =? folder_id) folders.

Definition addFolder (fs : FileSystem) (collection path : string) : M unit :=
  folder_id ← checkAndAddFolderToDB fs path;
  if folder_id =? -1 then skip else
  '(ok, folders) ← selectFoldersFromCollection collection [];
  if negb ok then skip else
  model ← gets (fun s => llm_model (m_embLLM s));
  if Text.isEmpty model then skip else
  step ← (if negb (containsFolderId folders folder_id) then
            ok ← addCollection collection folder_id 0 model false;
            if negb ok then mret false else
            addGuiCollectionItem
              (mkItem collection path folder_id false false false EmptyString
                      0 0 0 0 0 0 0 0 0 0 EmptyString EmptyString);;
            mret true
          else mret true);
  if negb step then skip else
  addFolderToWatch path;;
  scanDocuments fs folder_id path.

Fixpoint addCurrentFolders_loop (fs : FileSystem) (collections : list CollectionItem) : M unit :=
  match collections with
  | [] => skip
  | i :: rest =>
      (if negb (forceIndexing i) then
         scheduleUncompletedEmbeddings (folder_id i);;
         addFolder fs (collection i) (folder_path i)
       else skip);;
      addCurrentFolders_loop fs rest
  end.

Definition addCurrentFolders (fs : FileSystem) : M unit :=
  '(ok, collections) ← selectAllFromCollections [];
  if negb ok then skip else
  guiCollectionListUpdated collections;;
  addCurrentFolders_loop fs collections;;
  updateCollectionStatistics.

(** The loop of [removeFolderInternal] over the documents of the folder:
    [false] when a statement failed. *)
Fixpoint removeFolder_loop (documentIds : list Z) (chunksToRemove : list Z)
    : M (bool * list Z) :=
  match documentIds with
  | [] => mret (true, chunksToRemove)
  | document_id :: rest =>
      '(ok, chunksToRemove) ← getChunksByDocumentId document_id chunksToRemove;
      if negb ok then mret (false, chunksToRemove) else
      ok ← removeChunksByDocumentId document_id;
      if negb ok then mret (false, chunksToRemove) else
      ok ← removeDocument document_id;
      if negb ok then mret (false, chunksToRemove) else
      removeFolder_loop rest chunksToRemove
  end.

Definition removeFolderInternal (collection : string) (folder_id : Z) (path : string) : M unit :=
  '(ok, collections) ← selectCollectionsFromFolder folder_id [];
  if negb ok then skip else
  transaction;;
  ok ← removeCollection collection folder_id;
  if negb ok then rollback else
  if Z.of_nat (List.length collections) >? 1 then commit else
  removeFolderFromDocumentQueue folder_id;;
  '(ok, documentIds) ← selectDocuments folder_id [];
  if negb ok then rollback else
  '(ok, chunksToRemove) ← removeFolder_loop documentIds [];
  if negb ok then rollback else
  ok ← removeFolderFromDB folder_id;
  if negb ok then rollback else
  removeAll chunksToRemove;;
  commit;;
  match chunksToRemove with
  | [] => skip
  | _ => Embeddings_save_M
  end;;
  removeGuiFolderById folder_id;;
  removeFolderFromWatch path;;
  skip.

Definition removeFolder (collection path : string) : M unit :=
  '(ok, folder_id) ← selectFolder path (-1);
  if negb ok then skip else
  if folder_id =? -1 then
    removeFolderFromWatch path;;
    skip
  else removeFolderInternal collection folder_id path.

Fixpoint cleanDB_folders (fs : FileSystem) (collections : list CollectionItem) : M unit :=
  match collections with
  | [] => skip
  | i :: rest =>
      let info := stat fs (mkFileInfo (folder_path i) None) in
      (if negb (exists_ info) || negb (isReadable info)
       then removeFolderInternal (collection i) (folder_id i) (folder_path i)
       else skip);;
      cleanDB_folders fs rest
  end.

(** The result of a loop over the documents inside a transaction: it ran to
    its end, the select of the chunks failed, or a delete failed. *)
Inductive loop_result := LoopDone | LoopSelectFailed | LoopDeleteFailed.

Fixpoint cleanDB_loop (fs : FileSystem) (rows : list (Z * string)) (chunksToRemove : list Z)
    : M (loop_result * list Z) :=
  match rows with
  | [] => mret (LoopDone, chunksToRemove)
  | (document_id, document_path) :: rest =>
      let info := stat fs (mkFileInfo document_path None) in
      if exists_ info && isReadable info then cleanDB_loop fs rest chunksToRemove else
      '(ok, chunksToRemove) ← getChunksByDocumentId document_id chunksToRemove;
      if negb ok then mret (LoopSelectFailed, chunksToRemove) else
      ok ← removeChunksByDocumentId document_id;
      if negb ok then mret (LoopDeleteFailed, chunksToRemove) else
      ok ← removeDocument document_id;
      if negb ok then mret (LoopDeleteFailed, chunksToRemove) else
      cleanDB_loop fs rest chunksToRemove
  end.

Definition cleanDB (fs : FileSystem) : M unit :=
  '(ok, collections) ← selectAllFromCollections [];
  if negb ok then skip else
  cleanDB_folders fs collections;;
  ok ← exec;
  if negb ok then skip else
  rows ← gets (fun s => all_documents (m_db s));
  transaction;;
  '(r, chunksToRemove) ← cleanDB_loop fs rows [];
  match r with
  | LoopSelectFailed => rollback
  | LoopDeleteFailed => rollback;; updateCollectionStatistics
  | LoopDone =>
      removeAll chunksToRemove;;
      commit;;
      match chunksToRemove with
      | [] => skip
      | _ => Embeddings_save_M
      end;;
      updateCollectionStatistics
  end.

Fixpoint changeChunkSize_loop (rows : list (Z * string)) (chunksToRemove : list Z)
    : M (bool * list Z) :=
  match rows with
  | [] => mret (true, chunksToRemove)
  | (document_id, _) :: rest =>
      '(ok, chunksToRemove) ← getChunksByDocumentId document_id chunksToRemove;
      if negb ok then mret (false, chunksToRemove) else
      ok ← removeChunksByDocumentId document_id;
      if negb ok then mret (false, chunksToRemove) else
      ok ← removeDocument document_id;
      if negb ok then mret (false, chunksToRemove) else
      changeChunkSize_loop rest chunksToRemove
  end.

Definition changeChunkSize (fs : FileSystem) (chunkSize : Z) : M unit :=
  old ← gets m_chunkSize;
  if chunkSize =? old then skip else
  modify (with_chunkSize chunkSize);;
  ok ← exec;
  if negb ok then skip else
  rows ← gets (fun s => all_documents (m_db s));
  transaction;;
  '(ok, chunksToRemove) ← changeChunkSize_loop rows [];
  if negb ok then rollback else
  removeAll chunksToRemove;;
  commit;;
  match chunksToRemove with
  | [] => skip
  | _ => Embeddings_save_M
  end;;
  addCurrentFolders fs;;
  updateCollectionStatistics.

Definition directoryChanged (fs : FileSystem) (path : string) : M unit :=
  '(ok, folder_id) ← selectFolder path (-1);
  if negb ok then skip else
  if folder_id =? -1 then
    removeFolderFromWatch path;;
    skip
  else
    cleanDB fs;;
    scanDocuments fs folder_id path.

(** ** Sparse retrieval: n-gram queries over chunks_fts *)

Definition dquote : ascii := "034"%char.

(** The character class of the expression [punctuation] of [generateGrams]:
    full stop, comma, semicolon, colon, exclamation and question mark,
    single and double quote, round brackets, hyphen. *)
Definition punctuation (c : ascii) : bool :=
  existsb (Ascii.eqb c)
    ["."; ","; ";"; ":"; "!"; "?"; "'"; dquote; "("; ")"; "-"]%char.

Definition quoted (w : string) : string :=
  String dquote (w +:+ String dquote EmptyString).

Definition generateGrams (input : string) (N : Z) : list string :=
  let cleanedInput := Text.remove punctuation input in
  let words := Text.splitSkipEmptyParts cleanedInput in
  let N := Z.min (Z.of_nat (List.length words)) N in
  map (fun i =>
         "NEAR(" +:+ Text.join " " (map quoted (firstn (Z.to_nat N) (skipn i words)))
                 +:+ ", " +:+ Text.number N +:+ ")")
      (seq 0 (Z.to_nat (Z.of_nat (List.length words) - (N - 1)))).

(** A row of the result of the select. *)
Record ResultRow := mkRow {
  r_chunk_id : Z;
  r_document_time : Z;
  r_chunk_text : string;
  r_file : string;
  r_title : string;
  r_author : string;
  r_page : Z;
  r_line_from : Z;
  r_line_to : Z
}.

Record ResultInfo := mkResultInfo {
  ri_file : string;
  ri_title : string;
  ri_author : string;
  ri_date : string;
  ri_text : string;
  ri_page : Z;
  ri_from : Z;
  ri_to : Z
}.

(** [SELECT_NGRAM_SQL] with its two place markers filled in (the collection
    names are taken to hold no place marker themselves). *)
Definition SELECT_NGRAM_SQL (names limit : string) : string :=
  "select chunks_fts.chunk_id, documents.document_time,
        chunks_fts.chunk_text, chunks_fts.file, chunks_fts.title, chunks_fts.author, chunks_fts.page,
        chunks_fts.line_from, chunks_fts.line_to
    from chunks_fts
    join documents ON chunks_fts.document_id = documents.id
    join folders ON documents.folder_id = folders.id
    join collections ON folders.id = collections.folder_id
    where chunks_fts match ? and collections.collection_name in (" +:+ names +:+ ")
    order by bm25(chunks_fts)
    limit " +:+ limit +:+ ";".

Section Retrieval.

(** SQLite running a statement with the value bound to its parameter: the
    rows of the result, or [None] when prepare or exec fails. *)
Variable sqlite : string -> string -> option (list ResultRow).

(** The formatting of a time stamp by [QDateTime::toString]. *)
Variable formatDate : Z -> string.

(** The loop [for (int N = N_WORDS; N > 2; N--)] of [selectChunk], entered
    with [N = 2 + count]. The rows are those a later [q.next()] walks. *)
Fixpoint selectChunk_loop (count : nat) (collection_names : list string) (chunk_text : string)
    (retrievalSize : Z) : bool * list ResultRow :=
  match count with
  | O => (true, [])
  | S count' =>
      let N := 2 + Z.of_nat count in
      let text := generateGrams chunk_text N in
      let orText := Text.join " OR " text in
      let collection_names_str := Text.join "', '" collection_names in
      let formatted_query :=
        SELECT_NGRAM_SQL ("'" +:+ collection_names_str +:+ "'") (Text.number retrievalSize) in
      match sqlite formatted_query orText with
      | None => (false, [])
      | Some [] => selectChunk_loop count' collection_names chunk_text retrievalSize
      | Some rows => (true, rows)
      end
  end.

Definition selectChunk (collection_names : list string) (chunk_text : string)
    (retrievalSize : Z) : bool * list ResultRow :=
  let N_WORDS := Z.of_nat (List.length (Text.split chunk_text)) in
  selectChunk_loop (Z.to_nat (N_WORDS - 2)) collection_names chunk_text retrievalSize.

(** [retrieveFromDB] when the vector index is not loaded. *)
Definition retrieveFromDB (collections : list string) (text : string) (retrievalSize : Z)
    (results : list ResultInfo) : list ResultInfo :=
  let (ok, rows) := selectChunk collections text retrievalSize in
  if negb ok then results else
  results ++
    map (fun r => mkResultInfo (r_file r) (r_title r) (r_author r)
                   (formatDate (r_document_time r)) (r_chunk_text r)
                   (r_page r) (r_line_from r) (r_line_to r)) rows.

End Retrieval.

(** ** The batch operations that delete chunks *)

Inductive batch_operation :=
| ScanTick (fs : FileSystem) (budget : nat)
| FolderRemoval (collection : string) (folder_id : Z) (path : string)
| Cleanup (fs : FileSystem)
| ChunkSizeChange (fs : FileSystem) (chunkSize : Z).

Definition run (op : batch_operation) : M unit :=
  match op with
  | ScanTick fs budget => scanQueueBatch fs budget
  | FolderRemoval collection folder_id path => removeFolderInternal collection folder_id path
  | Cleanup fs => cleanDB fs
  | ChunkSizeChange fs chunkSize => changeChunkSize fs chunkSize
  end.

(** The events of a transaction that is rolled back. *)
Definition rolled_back : list Event := [EvTransaction; EvRollback].

(** What follows the last statement of a transaction that commits and drops
    the chunks [cs]: their removal from the vector index, the commit, and
    the save of the index when there was a removal. *)
Definition apply_removals (cs : list Z) : list Event :=
  map EvVectorRemove cs ++ [EvCommit] ++
  match cs with
  | [] => []
  | _ => [EvVectorSave]
  end.

Definition committed (cs : list Z) : list Event := EvTransaction :: apply_removals cs.

(** A log made of whole transactions of these two shapes. *)
Inductive batch_log : list Event -> Prop :=
| batch_log_nil : batch_log []
| batch_log_rolled_back evs : batch_log evs -> batch_log (rolled_back ++ evs)
| batch_log_committed cs evs : batch_log evs -> batch_log (committed cs ++ evs).

(** The vector index after the logged operations. *)
Definition replay_event (e : Event) (x : Embeddings) : Embeddings :=
  match e with
  | EvVectorAdd v id _ => (Embeddings_add v id x).2
  | EvVectorRemove id => Embeddings_remove id x
  | EvVectorSave => Embeddings_save x
  | _ => x
  end.

Definition replay (evs : list Event) (x : Embeddings) : Embeddings :=
  foldl (fun x e => replay_event e x) x evs.

(** The claim that the vector index is touched only after the commit: no
    removal and no save is logged before the first commit. *)
Definition touches_vector_index (e : Event) : bool :=
  match e with
  | EvVectorAdd _ _ _ | EvVectorRemove _ | EvVectorSave => true
  | _ => false
  end.

Fixpoint vector_index_after_commit (evs : list Event) : bool :=
  match evs with
  | [] => true
  | EvCommit :: _ => true
  | e :: rest => negb (touches_vector_index e) && vector_index_after_commit rest
  end.

(** ** A small installation, used in the examples

    Folder [/a] with the file [a.txt], scanned into one chunk whose vector
    is in the index. *)

Definition sample_db (names : list string) : DB :=
  mkDB [mkFolder 1 "/a"]
       [mkDocument 1 1 1000 "/a/a.txt"]
       [mkChunk 1 1 "alpha beta" "a.txt" "" "" "" "" (-1) (-1) (-1) 2 0 1]
       [mkChunkFts 1 1 "alpha beta" "a.txt" "" "" "" "" (-1) (-1) (-1)]
       (map (fun name => mkCollection name 1 0 "model" false) names)
       1.

(** The same folder before its first scan. *)
Definition fresh_db (names : list string) : DB :=
  mkDB [mkFolder 1 "/a"] [] [] []
       (map (fun name => mkCollection name 1 0 "model" false) names) 0.

Definition sample_index : Embeddings :=
  mkEmbeddings {[1 := [0]]} {[1 := [0]]} (fun _ _ => true).

Definition empty_index : Embeddings := mkEmbeddings ∅ ∅ (fun _ _ => true).

Definition sample_item : CollectionItem :=
  mkItem "C" "/a" 1 true false false "" 0 0 0 0 0 0 1 2 0 0 "" "model".

Definition sample_state (db : DB) (index : Embeddings) (queue : list DocumentInfo)
    (faults : list bool) (chunkSize : Z) : Database :=
  mkDatabase db None faults chunkSize
    (match queue with [] => ∅ | _ => {[1 := queue]} end)
    [] {[1 := sample_item]} index (mkEmbeddingLLM "model" []) ["/a"] false [].

(** A file system with one file, at [path]. *)
Definition sample_fs (path : string) (file : File) : FileSystem :=
  mkFS (fun p => if String.eqb p path then Some file else None)
       (fun p => if String.eqb p "/a" then [path] else []).

Definition text_file (path : string) (time : Z) (text : string) : File :=
  mkFile true time path (Text.length text) false true true text None.

Definition pdf_file (path : string) (time : Z) (bytes : Z) (pdf : QPdfDocument) : File :=
  mkFile true time path bytes false true true EmptyString (Some pdf).

Definition queued (path : string) : DocumentInfo :=
  mkDocumentInfo 1 (mkFileInfo path None) 0 0 false.

(** The outcome of running an operation: the state it leaves ([s] itself
    when the behaviour is undefined). *)
Definition state_after {A : Type} (m : M A) (s : Database) : Database :=
  match m s with
  | Some (_, s') => s'
  | None => s
  end.

(** The removal of the sample folder from its one collection. *)
Definition removal_of_sample_folder : batch_operation := FolderRemoval "C" 1 "/a".

Definition state_with_sample_folder : Database :=
  sample_state (sample_db ["C"]) sample_index [] [] 10.

(** ** What the removal of a folder leaves in the relational store *)

Definition in_list (x : Z) (l : list Z) : bool := existsb (Z.eqb x) l.

(** The three deletes of one turn of the loop over the documents. *)
Definition purge_document (document_id : Z) (db : DB) : DB :=
  delete_document document_id (delete_chunks_fts document_id (delete_chunks document_id db)).

Fixpoint purge (documentIds : list Z) (db : DB) : DB :=
  match documentIds with
  | [] => db
  | d :: rest => purge rest (purge_document d db)
  end.

(** The chunk ids the loop collects for the vector index. *)
Fixpoint purged_chunks (documentIds : list Z) (db : DB) : list Z :=
  match documentIds with
  | [] => []
  | d :: rest => chunks_of_document d db ++ purged_chunks rest (purge_document d db)
  end.

(** The id [selectFolder] finds for a path. *)
Definition folder_of_path (path : string) (db : DB) : option Z :=
  match List.filter (fun f => String.eqb (f_folder_path f) path) (folders db) with
  | [] => None
  | f :: _ => Some (bindId (f_id f))
  end.

(** The store [after] is the store [before] without the folder: the chunks
    and the full-text rows of its documents, its documents and its own row
    are gone, every other row is in place. *)
Definition folder_deleted (folder_id : Z) (before after : DB) : Prop :=
  let ds := documents_of_folder folder_id before in
  chunks after = List.filter (fun c => negb (in_list (c_document_id c) ds)) (chunks before) /\
  chunks_fts after
    = List.filter (fun t => negb (in_list (t_document_id t) ds)) (chunks_fts before) /\
  documents after
    = List.filter (fun d => negb (in_list (bindId (d_id d)) ds)) (documents before) /\
  folders after = List.filter (fun f => negb (bindId (f_id f) =? folder_id)) (folders before).

(** ** What a batch of embeddings does to the chunks *)

(** The verdict of the vector index on a result of the embedder. *)
Definition accepted (s : Database) (e : EmbeddingResult) : bool :=
  e_accepts (m_embeddings s) (er_embedding e) (er_chunk_id e).

(** A chunk row before and after a batch: it is as it was, or it is flagged
    and the index accepted a vector of the batch under its chunk id. *)
Definition flagged_by (s : Database) (embeddings : list EmbeddingResult)
    (c c' : chunks_row) : Prop :=
  c' = c \/
  (c' = flagged c /\
   exists e, In e embeddings /\ er_chunk_id e = bindId (c_chunk_id c) /\ accepted s e = true).

(** The log of the batch: one add per result, in order, then the save. *)
Definition batch_events (s : Database) (embeddings : list EmbeddingResult) : list Event :=
  map (fun e => EvVectorAdd (er_embedding e) (er_chunk_id e) (accepted s e)) embeddings.

(** A chunk row after a batch when no statement fails: flagged when the
    index accepted a vector of the batch under its chunk id, else as it
    was. *)
Definition flag_added (s : Database) (embeddings : list EmbeddingResult) (c : chunks_row)
    : chunks_row :=
  if existsb (fun e => (bindId (c_chunk_id c) =? er_chunk_id e) && accepted s e) embeddings
  then flagged c else c.

(** The claim that the vector index is saved: a save is logged. *)
Definition saves_the_index (evs : list Event) : bool :=
  existsb (fun e => match e with EvVectorSave => true | _ => false end) evs.

(** ** The full-text rows of the chunks *)

(** The row of [chunks_fts] that [addChunk] writes next to a chunk. *)
Definition fts_of (c : chunks_row) : chunks_fts_row :=
  mkChunkFts (c_document_id c) (bindId (c_chunk_id c)) (c_chunk_text c) (c_file c)
    (c_title c) (c_author c) (c_subject c) (c_keywords c) (c_page c) (c_line_from c)
    (c_line_to c).

(** [chunks_fts] holds the row of every chunk, and no other row. *)
Definition fts_mirrors (db : DB) : Prop := chunks_fts db = map fts_of (chunks db).

(** The same in a state in which no statement fails, for the store and for
    the store a rollback would bring back. *)
Definition fts_kept (s : Database) : Prop :=
  m_faults s = [] /\ fts_mirrors (m_db s) /\ (forall d, m_txn s = Some d -> fts_mirrors d).


(** ** Forced collections

    [Database::forceIndexing] shares its name with the member of
    [CollectionItem]; it is [Database_forceIndexing] here. *)

Definition clear_force_indexing (collection_name : string) (db : DB) : DB :=
  with_collections
    (map (fun k =>
            if String.eqb (k_collection_name k) collection_name
            then mkCollection (k_collection_name k) (k_folder_id k) (k_last_update_time k)
                              (k_embedding_model k) false
            else k)
         (collections db)) db.

Definition updateCollectionForceIndexing (collection_name : string) : M bool :=
  ok ← exec;
  if negb ok then mret false else
  update_db (clear_force_indexing collection_name);;
  mret true.

Definition addForcedCollection (fs : FileSystem) (item : CollectionItem) : M bool :=
  let path := folder_path item in
  folder_id ← checkAndAddFolderToDB fs path;
  if folder_id =? -1 then mret false else
  model ← gets (fun s => llm_model (m_embLLM s));
  if Text.isEmpty model then mret false else
  ok ← addCollection (collection item) folder_id 0 model true;
  if negb ok then mret false else
  addGuiCollectionItem item;;
  mret true.

Fixpoint forceIndexing_loop (fs : FileSystem) (collection : string)
    (folders : list (Z * string)) : M unit :=
  match folders with
  | [] => skip
  | folder :: rest =>
      item ← guiCollectionItem folder.1;
      updateGuiForCollectionItem (set_forceIndexing false item);;
      addFolder fs collection folder.2;;
      forceIndexing_loop fs collection rest
  end.

Definition Database_forceIndexing (fs : FileSystem) (collection : string) : M unit :=
  '(ok, folders) ← selectFoldersFromCollection collection [];
  if negb ok then skip else
  ok ← updateCollectionForceIndexing collection;
  if negb ok then skip else
  forceIndexing_loop fs collection folders.

(** ** The entry points

    The slots of [Database] that the timer, the embedding model, the file
    watcher and the user interface call; [budget] is the number of documents
    the scan timer has time for. *)

Inductive slot : Type :=
  | ScanQueueBatch (budget : nat)
  | HandleEmbeddingsGenerated (embeddings : list EmbeddingResult)
  | HandleErrorGenerated (folder_id : Z) (error : string)
  | AddCurrentFolders
  | UpdateCollectionStatistics
  | ForceIndexing (collection : string)
  | AddFolder (collection path : string)
  | RemoveFolder (collection path : string)
  | CleanDB
  | ChangeChunkSize (chunkSize : Z)
  | DirectoryChanged (path : string).

Definition call (fs : FileSystem) (c : slot) : M unit :=
  match c with
  | ScanQueueBatch budget => scanQueueBatch fs budget
  | HandleEmbeddingsGenerated embeddings => handleEmbeddingsGenerated embeddings
  | HandleErrorGenerated folder_id error => handleErrorGenerated folder_id error
  | AddCurrentFolders => addCurrentFolders fs
  | UpdateCollectionStatistics => updateCollectionStatistics
  | ForceIndexing collection => Database_forceIndexing fs collection
  | AddFolder collection path => addFolder fs collection path
  | RemoveFolder collection path => removeFolder collection path
  | CleanDB => cleanDB fs
  | ChangeChunkSize chunkSize => changeChunkSize fs chunkSize
  | DirectoryChanged path => directoryChanged fs path
  end.

(** The slots called one after the other. *)
Fixpoint calls (fs : FileSystem) (cs : list slot) : M unit :=
  match cs with
  | [] => skip
  | c :: rest => call fs c;; calls fs rest
  end.

(** ** The scan queue

    [m_docsToScan] maps a folder to the queue of its documents; a folder
    whose queue runs empty is taken out of the map. *)

Definition queues_nonempty (s : Database) : Prop :=
  forall key queue, m_docsToScan s !! key = Some queue -> queue <> [].

(** ** The chunks on their way to the embedder

    The buffer [m_chunkList] and the batches handed to the embedding model. *)

Definition batch_sizes_kept (s : Database) : Prop :=
  Z.of_nat (List.length (m_chunkList s)) < s_batchSize /\
  Forall (fun batch => Z.of_nat (List.length batch) <= s_batchSize)
         (llm_requests (m_embLLM s)).

(** The chunk the embedder is handed for a row of the chunks table. *)
Definition to_embed (folder_id : Z) (c : chunks_row) : EmbeddingChunk :=
  mkEmbeddingChunk folder_id (bindId (c_chunk_id c)) (c_chunk_text c).

(** Every chunk handed over or still in the buffer, in order. *)
Definition chunks_on_the_way (s : Database) : list EmbeddingChunk :=
  List.concat (llm_requests (m_embLLM s)) ++ m_chunkList s.

(** ** The vector index and its file *)

(** Everything in the vector index has been written by a [save]. *)
Definition index_saved (s : Database) : Prop :=
  e_file (m_embeddings s) = e_index (m_embeddings s).

Definition transaction_closed (s : Database) : Prop := m_txn s = None.

(** No PDF of the file system loads with a page count of zero. *)
Definition no_empty_pdf (fs : FileSystem) : Prop :=
  forall path file pdf,
    fs_file fs path = Some file -> file_pdf file = Some pdf -> pageCount pdf <> 0.

(** The words [generateGrams] builds its n-grams from. *)
Definition words_of (input : string) : list string :=
  Text.splitSkipEmptyParts (Text.remove punctuation input).

(** The statement [selectChunk] prepares, and the value it binds for the
    n-grams of length [N]. *)
Definition ngram_statement (collection_names : list string) (retrievalSize : Z) : string :=
  SELECT_NGRAM_SQL ("'" +:+ Text.join "', '" collection_names +:+ "'")
                   (Text.number retrievalSize).

Definition ngram_match (chunk_text : string) (N : Z) : string :=
  Text.join " OR " (generateGrams chunk_text N).

(** ** The documents of a folder

    The entries of a folder that [scanDocuments] takes for documents: those
    that are no directory and have one of the four suffixes. *)

Definition recognised (fs : FileSystem) (path : string) : bool :=
  let fileInfo := stat fs (mkFileInfo path None) in
  negb (isDir fileInfo) && existsb (String.eqb (suffix fileInfo)) extensions.

Definition documents_found (fs : FileSystem) (folder_id : Z) (folder_path : string)
    : list DocumentInfo :=
  map (fun path => mkDocumentInfo folder_id (stat fs (mkFileInfo path None)) 0 0 false)
      (List.filter (recognised fs) (fs_entries fs folder_path)).

(** ** Files that are gone *)

(** The test of [cleanDB] on a path: there is a file and it can be read. *)
Definition readable (fs : FileSystem) (path : string) : bool :=
  let info := stat fs (mkFileInfo path None) in
  exists_ info && isReadable info.

(** The ids of the rows of a select of documents whose file is gone. *)
Definition missing (fs : FileSystem) (rows : list (Z * string)) : list Z :=
  map fst (List.filter (fun row => negb (readable fs row.2)) rows).

(** Every document waits in the queue of its own folder. *)
Definition queues_keyed (s : Database) : Prop :=
  forall key queue, m_docsToScan s !! key = Some queue ->
    Forall (fun info => folder info = key) queue.

(** * Properties *)

(** ** Running the monad *)

Lemma bind_Some {A B : Type} (m : M A) (f : A -> M B) (s : Database) (b : B) (s' : Database) :
  (m ≫= f) s = Some (b, s') <->
  exists a s1, m s = Some (a, s1) /\ f a s1 = Some (b, s').
Proof.
  unfold mbind, M_bind. split.
  - destruct (m s) as [[a s1]|] eqn:E; [|discriminate].
    intros H. exists a, s1. split; [reflexivity|exact H].
  - intros (a & s1 & E & H). rewrite E. exact H.
Qed.

Lemma bind_run {A B : Type} (m : M A) (f : A -> M B) (s : Database) (a : A) (s1 : Database) :
  m s = Some (a, s1) -> (m ≫= f) s = f a s1.
Proof. intros E. unfold mbind, M_bind. rewrite E. reflexivity. Qed.

Lemma ret_Some {A : Type} (a b : A) (s s' : Database) :
  (mret a : M A) s = Some (b, s') <-> a = b /\ s = s'.
Proof.
  unfold mret, M_ret. split.
  - intros H. injection H as -> ->. split; reflexivity.
  - intros [-> ->]. reflexivity.
Qed.

(** ** Invariants of the state *)

(** [m] keeps the property [I] of the state. *)
Definition keeps {A : Type} (I : Database -> Prop) (m : M A) : Prop :=
  forall s a s', m s = Some (a, s') -> I s -> I s'.

Lemma keeps_ret {A : Type} (I : Database -> Prop) (a : A) : keeps I (mret a : M A).
Proof. intros s b s' H. apply ret_Some in H as [_ <-]. auto. Qed.

Lemma keeps_bind {A B : Type} (I : Database -> Prop) (m : M A) (f : A -> M B) :
  keeps I m -> (forall a, keeps I (f a)) -> keeps I (m ≫= f).
Proof.
  intros Hm Hf s b s' H HI. apply bind_Some in H as (a & s1 & H1 & H2).
  exact (Hf a _ _ _ H2 (Hm _ _ _ H1 HI)).
Qed.

Lemma keeps_gets {A : Type} (I : Database -> Prop) (f : Database -> A) : keeps I (gets f).
Proof. intros s a s' H. injection H as _ <-. auto. Qed.

Lemma keeps_modify (I : Database -> Prop) (f : Database -> Database) :
  (forall s, I s -> I (f s)) -> keeps I (modify f).
Proof. intros Hf s a s' H. injection H as _ <-. apply Hf. Qed.

Lemma keeps_undefined {A : Type} (I : Database -> Prop) : keeps I (undefined : M A).
Proof. intros s a s' H. discriminate. Qed.

Lemma keeps_skip (I : Database -> Prop) : keeps I skip.
Proof. apply keeps_ret. Qed.

Create HintDb keeps.
#[global] Hint Resolve keeps_ret keeps_gets keeps_undefined keeps_skip : keeps.

(** A body built from binds, tests, changes of fields [I] does not read,
    and operations known to keep [I]. *)
Ltac keeps_step :=
  first
    [ progress cbv zeta
    | solve [auto with keeps]
    | apply keeps_modify; intros ? ?; assumption
    | apply keeps_gets
    | apply keeps_ret
    | apply keeps_bind; [| intros ?]
    | match goal with
      | |- keeps _ (if ?b then _ else _) => destruct b
      | |- keeps _ (match ?x with _ => _ end) => destruct x
      end ].

Ltac keeps_tac := repeat keeps_step.

(** ** Operations that leave the transaction, its log and the vector index alone *)

Definition frame (s : Database) : list Event * Embeddings * option DB :=
  (m_log s, m_embeddings s, m_txn s).

Definition silent {A : Type} (m : M A) : Prop :=
  forall s a s', m s = Some (a, s') -> frame s' = frame s.

Lemma silent_ret {A : Type} (a : A) : silent (mret a : M A).
Proof. intros s b s' H. apply ret_Some in H as [_ <-]. reflexivity. Qed.

Lemma silent_bind {A B : Type} (m : M A) (f : A -> M B) :
  silent m -> (forall a, silent (f a)) -> silent (m ≫= f).
Proof.
  intros Hm Hf s b s' H. apply bind_Some in H as (a & s1 & H1 & H2).
  rewrite (Hf a _ _ _ H2). exact (Hm _ _ _ H1).
Qed.

Lemma silent_gets {A : Type} (f : Database -> A) : silent (gets f).
Proof. intros s a s' H. injection H as _ <-. reflexivity. Qed.

Lemma silent_modify (f : Database -> Database) :
  (forall s, frame (f s) = frame s) -> silent (modify f).
Proof. intros Hf s a s' H. injection H as _ <-. apply Hf. Qed.

Lemma silent_undefined {A : Type} : silent (undefined : M A).
Proof. intros s a s' H. discriminate. Qed.

Lemma silent_skip : silent skip.
Proof. apply silent_ret. Qed.

Lemma silent_exec : silent exec.
Proof.
  intros s a s' H. unfold exec in H.
  destruct (m_faults s); injection H as _ <-; reflexivity.
Qed.

Lemma silent_update_db (f : DB -> DB) : silent (update_db f).
Proof. apply silent_modify. reflexivity. Qed.

Create HintDb silent.
#[global] Hint Resolve silent_ret silent_gets silent_undefined silent_skip silent_exec
  silent_update_db : silent.

(** A body built from binds, tests and known silent operations. *)
Ltac silent_step :=
  first
    [ progress cbv zeta
    | solve [auto with silent]
    | apply silent_modify; reflexivity
    | apply silent_bind; [| intros ?]
    | match goal with
      | |- silent (if ?b then _ else _) => destruct b
      | |- silent (match ?x with _ => _ end) => destruct x
      end ].

Ltac silent_tac := repeat silent_step.

Lemma selectFileForChunk_silent chunk_id file : silent (selectFileForChunk chunk_id file).
Proof. unfold selectFileForChunk. silent_tac. Qed.

Lemma addChunk_silent document_id chunk_text file title author subject keywords
    page from to words chunk_id :
  silent (addChunk document_id chunk_text file title author subject keywords
            page from to words chunk_id).
Proof. unfold addChunk. silent_tac. Qed.

Lemma removeChunksByDocumentId_silent document_id : silent (removeChunksByDocumentId document_id).
Proof. unfold removeChunksByDocumentId. silent_tac. Qed.

Lemma selectAllUncompletedChunks_silent folder_id l :
  silent (selectAllUncompletedChunks folder_id l).
Proof. unfold selectAllUncompletedChunks. silent_tac. Qed.

Lemma selectCountChunks_silent folder_id count : silent (selectCountChunks folder_id count).
Proof. unfold selectCountChunks. silent_tac. Qed.

Lemma updateChunkHasEmbedding_silent chunk_id : silent (updateChunkHasEmbedding chunk_id).
Proof. unfold updateChunkHasEmbedding. silent_tac. Qed.

Lemma addCollection_silent name folder_id last_update model force :
  silent (addCollection name folder_id last_update model force).
Proof. unfold addCollection. silent_tac. Qed.

Lemma removeCollection_silent name folder_id : silent (removeCollection name folder_id).
Proof. unfold removeCollection. silent_tac. Qed.

Lemma selectFoldersFromCollection_silent name l : silent (selectFoldersFromCollection name l).
Proof. unfold selectFoldersFromCollection. silent_tac. Qed.

Lemma selectCollectionsFromFolder_silent folder_id l :
  silent (selectCollectionsFromFolder folder_id l).
Proof. unfold selectCollectionsFromFolder. silent_tac. Qed.

Lemma selectAllFromCollections_silent l : silent (selectAllFromCollections l).
Proof. unfold selectAllFromCollections. silent_tac. Qed.

Lemma addFolderToDB_silent path id : silent (addFolderToDB path id).
Proof. unfold addFolderToDB. silent_tac. Qed.

Lemma removeFolderFromDB_silent id : silent (removeFolderFromDB id).
Proof. unfold removeFolderFromDB. silent_tac. Qed.

Lemma selectFolder_silent path id : silent (selectFolder path id).
Proof. unfold selectFolder. silent_tac. Qed.

Lemma addDocument_silent folder_id time path id : silent (addDocument folder_id time path id).
Proof. unfold addDocument. silent_tac. Qed.

Lemma removeDocument_silent id : silent (removeDocument id).
Proof. unfold removeDocument. silent_tac. Qed.

Lemma updateDocument_silent id time : silent (updateDocument id time).
Proof. unfold updateDocument. silent_tac. Qed.

Lemma selectDocument_silent path id time : silent (selectDocument path id time).
Proof. unfold selectDocument. silent_tac. Qed.

Lemma selectDocuments_silent folder_id l : silent (selectDocuments folder_id l).
Proof. unfold selectDocuments. silent_tac. Qed.

Lemma selectCountStatistics_silent folder_id total : silent (selectCountStatistics folder_id total).
Proof. unfold selectCountStatistics. silent_tac. Qed.

Lemma getChunksByDocumentId_silent document_id l : silent (getChunksByDocumentId document_id l).
Proof. unfold getChunksByDocumentId. silent_tac. Qed.

#[global] Hint Resolve selectFileForChunk_silent addChunk_silent removeChunksByDocumentId_silent
  selectAllUncompletedChunks_silent selectCountChunks_silent updateChunkHasEmbedding_silent
  addCollection_silent removeCollection_silent selectFoldersFromCollection_silent
  selectCollectionsFromFolder_silent selectAllFromCollections_silent addFolderToDB_silent
  removeFolderFromDB_silent selectFolder_silent addDocument_silent removeDocument_silent
  updateDocument_silent selectDocument_silent selectDocuments_silent
  selectCountStatistics_silent getChunksByDocumentId_silent : silent.

Lemma guiCollectionItem_silent folder_id : silent (guiCollectionItem folder_id).
Proof. unfold guiCollectionItem. silent_tac. Qed.

Lemma updateGuiForCollectionItem_silent item : silent (updateGuiForCollectionItem item).
Proof. unfold updateGuiForCollectionItem. silent_tac. Qed.

Lemma addGuiCollectionItem_silent item : silent (addGuiCollectionItem item).
Proof. unfold addGuiCollectionItem. silent_tac. Qed.

Lemma removeGuiFolderById_silent folder_id : silent (removeGuiFolderById folder_id).
Proof. unfold removeGuiFolderById. silent_tac. Qed.

Lemma guiCollectionListUpdated_silent l : silent (guiCollectionListUpdated l).
Proof. unfold guiCollectionListUpdated. silent_tac. Qed.

Lemma sendChunkList_silent : silent sendChunkList.
Proof. unfold sendChunkList. silent_tac. Qed.

#[global] Hint Resolve guiCollectionItem_silent updateGuiForCollectionItem_silent
  addGuiCollectionItem_silent removeGuiFolderById_silent guiCollectionListUpdated_silent
  sendChunkList_silent : silent.

Lemma appendChunk_silent chunk : silent (appendChunk chunk).
Proof. unfold appendChunk. silent_tac. Qed.

Lemma scheduleNext_silent folder_id countForFolder : silent (scheduleNext folder_id countForFolder).
Proof. unfold scheduleNext. silent_tac. Qed.

#[global] Hint Resolve appendChunk_silent scheduleNext_silent : silent.

Lemma chunkStream_loop_silent fuel : forall stream folder_id document_id file title author
    subject keywords page maxChunks charCount words chunks addedWords,
  silent (chunkStream_loop fuel stream folder_id document_id file title author subject
            keywords page maxChunks charCount words chunks addedWords).
Proof.
  induction fuel as [|fuel IH]; intros; simpl.
  - apply silent_ret.
  - silent_tac; try apply IH.
Qed.

#[global] Hint Resolve chunkStream_loop_silent : silent.

Lemma chunkStream_silent stream folder_id document_id file title author subject keywords
    page maxChunks :
  silent (chunkStream stream folder_id document_id file title author subject keywords
            page maxChunks).
Proof. unfold chunkStream. silent_tac. Qed.

Lemma countOfDocuments_silent folder_id : silent (countOfDocuments folder_id).
Proof. unfold countOfDocuments. silent_tac. Qed.

Lemma countOfBytes_silent folder_id : silent (countOfBytes folder_id).
Proof. unfold countOfBytes. silent_tac. Qed.

Lemma dequeueDocument_silent : silent dequeueDocument.
Proof. unfold dequeueDocument. silent_tac. Qed.

Lemma removeFolderFromDocumentQueue_silent folder_id :
  silent (removeFolderFromDocumentQueue folder_id).
Proof. unfold removeFolderFromDocumentQueue. silent_tac. Qed.

Lemma enqueueDocumentInternal_silent info prepend : silent (enqueueDocumentInternal info prepend).
Proof. unfold enqueueDocumentInternal. silent_tac. Qed.

#[global] Hint Resolve chunkStream_silent countOfDocuments_silent countOfBytes_silent
  dequeueDocument_silent removeFolderFromDocumentQueue_silent
  enqueueDocumentInternal_silent : silent.

Lemma enqueueAll_silent infos : silent (enqueueAll infos).
Proof. induction infos as [|i rest IH]; simpl; silent_tac. Qed.

#[global] Hint Resolve enqueueAll_silent : silent.

Lemma enqueueDocuments_silent folder_id infos : silent (enqueueDocuments folder_id infos).
Proof. unfold enqueueDocuments. silent_tac. Qed.

Lemma statistics_loop_silent collections : silent (statistics_loop collections).
Proof. induction collections as [|i rest IH]; simpl; silent_tac. Qed.

#[global] Hint Resolve enqueueDocuments_silent statistics_loop_silent : silent.

Lemma updateCollectionStatistics_silent : silent updateCollectionStatistics.
Proof. unfold updateCollectionStatistics. silent_tac. Qed.

#[global] Hint Resolve updateCollectionStatistics_silent : silent.

Lemma scanQueue_existing_silent folder_id countForFolder existing_id existing_time
    document_time chunksToRemove :
  silent (scanQueue_existing folder_id countForFolder existing_id existing_time
            document_time chunksToRemove).
Proof. unfold scanQueue_existing. silent_tac. Qed.

Lemma scanQueue_document_silent folder_id countForFolder existing_id document_time
    document_path processing :
  silent (scanQueue_document folder_id countForFolder existing_id document_time
            document_path processing).
Proof. unfold scanQueue_document. silent_tac. Qed.

Lemma scanQueue_pdf_silent fs info folder_id countForFolder document_id :
  silent (scanQueue_pdf fs info folder_id countForFolder document_id).
Proof. unfold scanQueue_pdf. silent_tac. Qed.

Lemma scanQueue_text_silent fs info folder_id countForFolder document_id document_path :
  silent (scanQueue_text fs info folder_id countForFolder document_id document_path).
Proof. unfold scanQueue_text. silent_tac. Qed.

#[global] Hint Resolve scanQueue_existing_silent scanQueue_document_silent
  scanQueue_pdf_silent scanQueue_text_silent : silent.

Lemma scanQueue_silent fs chunksToRemove : silent (scanQueue fs chunksToRemove).
Proof. unfold scanQueue. silent_tac. Qed.

#[global] Hint Resolve scanQueue_silent : silent.

Lemma scanQueueBatch_loop_silent fs budget : forall chunksToRemove,
  silent (scanQueueBatch_loop fs budget chunksToRemove).
Proof.
  induction budget as [|budget IH]; intros; simpl.
  - apply silent_ret.
  - silent_tac; try apply IH.
Qed.

Lemma addFolderToWatch_silent path : silent (addFolderToWatch path).
Proof. unfold addFolderToWatch. silent_tac. Qed.

Lemma removeFolderFromWatch_silent path : silent (removeFolderFromWatch path).
Proof. unfold removeFolderFromWatch. silent_tac. Qed.

#[global] Hint Resolve scanQueueBatch_loop_silent addFolderToWatch_silent
  removeFolderFromWatch_silent : silent.

Lemma scanDocuments_loop_silent fs folder_id entries : forall infos,
  silent (scanDocuments_loop fs folder_id entries infos).
Proof. induction entries as [|p rest IH]; intros; simpl; silent_tac; try apply IH. Qed.

#[global] Hint Resolve scanDocuments_loop_silent : silent.

Lemma scanDocuments_silent fs folder_id folder_path :
  silent (scanDocuments fs folder_id folder_path).
Proof. unfold scanDocuments. silent_tac. Qed.

Lemma scheduleUncompletedEmbeddings_silent folder_id :
  silent (scheduleUncompletedEmbeddings folder_id).
Proof. unfold scheduleUncompletedEmbeddings. silent_tac. Qed.

Lemma checkAndAddFolderToDB_silent fs path : silent (checkAndAddFolderToDB fs path).
Proof. unfold checkAndAddFolderToDB. silent_tac. Qed.

#[global] Hint Resolve scanDocuments_silent scheduleUncompletedEmbeddings_silent
  checkAndAddFolderToDB_silent : silent.

Lemma addFolder_silent fs collection path : silent (addFolder fs collection path).
Proof. unfold addFolder. silent_tac. Qed.

#[global] Hint Resolve addFolder_silent : silent.

Lemma addCurrentFolders_loop_silent fs collections : silent (addCurrentFolders_loop fs collections).
Proof. induction collections as [|i rest IH]; simpl; silent_tac. Qed.

#[global] Hint Resolve addCurrentFolders_loop_silent : silent.

Lemma addCurrentFolders_silent fs : silent (addCurrentFolders fs).
Proof. unfold addCurrentFolders. silent_tac. Qed.

Lemma removeFolder_loop_silent documentIds : forall chunksToRemove,
  silent (removeFolder_loop documentIds chunksToRemove).
Proof. induction documentIds as [|d rest IH]; intros; simpl; silent_tac; try apply IH. Qed.

Lemma cleanDB_loop_silent fs rows : forall chunksToRemove,
  silent (cleanDB_loop fs rows chunksToRemove).
Proof. induction rows as [|r rest IH]; intros; simpl; silent_tac; try apply IH. Qed.

Lemma changeChunkSize_loop_silent rows : forall chunksToRemove,
  silent (changeChunkSize_loop rows chunksToRemove).
Proof. induction rows as [|r rest IH]; intros; simpl; silent_tac; try apply IH. Qed.

#[global] Hint Resolve addCurrentFolders_silent removeFolder_loop_silent cleanDB_loop_silent
  changeChunkSize_loop_silent : silent.

(** ** The transaction log of the batch operations *)

(** [m] extends the log by events of shape [P], and the vector index is
    what these events make of it. *)
Definition logs {A : Type} (P : list Event -> Prop) (m : M A) : Prop :=
  forall s a s', m s = Some (a, s') ->
    exists evs, m_log s' = m_log s ++ evs /\
                m_embeddings s' = replay evs (m_embeddings s) /\ P evs.

(** Inside a transaction: [m] ends it, by a rollback or by the removals, the
    commit and the save. *)
Definition tx_tail (evs : list Event) : Prop :=
  evs = [EvRollback] \/ exists cs, evs = apply_removals cs.

Definition closes {A : Type} (m : M A) : Prop := logs tx_tail m.
Definition batched {A : Type} (m : M A) : Prop := logs batch_log m.

Lemma replay_app evs1 evs2 x : replay (evs1 ++ evs2) x = replay evs2 (replay evs1 x).
Proof. unfold replay. apply foldl_app. Qed.

Lemma batch_log_app evs1 evs2 : batch_log evs1 -> batch_log evs2 -> batch_log (evs1 ++ evs2).
Proof.
  induction 1 as [|evs _ IH|cs evs _ IH]; intros H2; [exact H2| |].
  - rewrite <- app_assoc. constructor. exact (IH H2).
  - rewrite <- app_assoc. constructor. exact (IH H2).
Qed.

Lemma logs_silent {A : Type} (P : list Event -> Prop) (m : M A) :
  silent m -> P [] -> logs P m.
Proof.
  intros Hm HP s a s' H. apply Hm in H. unfold frame in H. injection H as Hl He _.
  exists []. rewrite app_nil_r. auto.
Qed.

Lemma logs_bind {A B : Type} (P Q R : list Event -> Prop) (m : M A) (f : A -> M B) :
  logs P m -> (forall a, logs Q (f a)) ->
  (forall e1 e2, P e1 -> Q e2 -> R (e1 ++ e2)) ->
  logs R (m ≫= f).
Proof.
  intros Hm Hf HR s b s' H. apply bind_Some in H as (a & s1 & H1 & H2).
  destruct (Hm _ _ _ H1) as (e1 & L1 & X1 & P1).
  destruct (Hf _ _ _ _ H2) as (e2 & L2 & X2 & P2).
  exists (e1 ++ e2). rewrite L2, L1, X2, X1, replay_app, app_assoc. auto.
Qed.

Lemma closes_rollback : closes rollback.
Proof.
  intros s a s' H. exists [EvRollback]. unfold rollback in H.
  destruct (m_txn s) eqn:E;
    unfold mbind, M_bind, gets in H; rewrite E in H; simpl in H;
    injection H as _ <-; simpl; repeat split; left; reflexivity.
Qed.

Lemma closes_commit : closes commit.
Proof.
  intros s a s' H. exists (apply_removals []). injection H as _ <-.
  simpl. repeat split. right. exists []. reflexivity.
Qed.

Lemma removeAll_run cs s :
  exists s', removeAll cs s = Some (tt, s') /\
    m_log s' = m_log s ++ map EvVectorRemove cs /\
    m_embeddings s' = replay (map EvVectorRemove cs) (m_embeddings s).
Proof.
  revert s. induction cs as [|c cs IH]; intros s.
  - exists s. simpl. rewrite app_nil_r. auto.
  - simpl removeAll.
    destruct (IH (with_log (fun l => l ++ [EvVectorRemove c])
                   (with_embeddings (Embeddings_remove c) s))) as (s' & E & L & X).
    exists s'. split; [exact E|]. rewrite L, X. simpl. rewrite <- app_assoc. auto.
Qed.

Lemma closes_apply {A : Type} (cs : list Z) (rest : M A) :
  silent rest ->
  closes (removeAll cs;; commit;; match cs with [] => skip | _ => Embeddings_save_M end;; rest).
Proof.
  intros Hrest s a s' H.
  destruct (removeAll_run cs s) as (s1 & E1 & L1 & X1).
  rewrite (bind_run _ _ _ _ _ E1) in H.
  apply bind_Some in H as ([] & s2 & H2 & H).
  injection H2 as <-.
  apply bind_Some in H as ([] & s3 & H3 & H).
  apply Hrest in H. unfold frame in H. injection H as Hl He _.
  exists (apply_removals cs). rewrite Hl, He. unfold apply_removals.
  destruct cs as [|c cs'].
  - injection H3 as <-. simpl in *. rewrite L1, X1, app_nil_r.
    split_and!; [done|done|]. right. by exists [].
  - injection H3 as <-. cbn [m_log m_embeddings with_log with_embeddings with_txn].
    rewrite L1, X1. rewrite !replay_app, <- !app_assoc.
    split_and!; [done|done|]. right. by exists (c :: cs').
Qed.

Lemma closes_apply_end (cs : list Z) :
  closes (removeAll cs;; commit;; match cs with [] => skip | _ => Embeddings_save_M end).
Proof.
  intros s a s' H.
  apply (closes_apply cs skip silent_skip s tt s').
  destruct (removeAll_run cs s) as (s1 & E1 & _).
  rewrite (bind_run _ _ _ _ _ E1) in H. rewrite (bind_run _ _ _ _ _ E1).
  apply bind_Some in H as ([] & s2 & H2 & H). rewrite (bind_run _ _ _ _ _ H2).
  apply bind_Some. destruct a. exists tt, s'. split; [exact H|reflexivity].
Qed.

Lemma closes_after_silent {A B : Type} (m : M A) (f : A -> M B) :
  silent m -> (forall a, closes (f a)) -> closes (m ≫= f).
Proof.
  intros Hm Hf. apply (logs_bind (fun evs => evs = []) tx_tail).
  - apply logs_silent; [exact Hm|reflexivity].
  - exact Hf.
  - intros e1 e2 -> H. exact H.
Qed.

Lemma closes_then_silent {A B : Type} (m : M A) (f : A -> M B) :
  closes m -> (forall a, silent (f a)) -> closes (m ≫= f).
Proof.
  intros Hm Hf. apply (logs_bind tx_tail (fun evs => evs = [])).
  - exact Hm.
  - intros a. apply logs_silent; [apply Hf|reflexivity].
  - intros e1 e2 H ->. rewrite app_nil_r. exact H.
Qed.

Lemma batched_silent {A : Type} (m : M A) : silent m -> batched m.
Proof. intros H. apply logs_silent; [exact H|constructor]. Qed.

Lemma batched_bind {A B : Type} (m : M A) (f : A -> M B) :
  batched m -> (forall a, batched (f a)) -> batched (m ≫= f).
Proof.
  intros Hm Hf. apply (logs_bind batch_log batch_log); auto using batch_log_app.
Qed.

Lemma batched_transaction {A : Type} (m : M A) : closes m -> batched (transaction;; m).
Proof.
  intros Hm s a s' H. apply bind_Some in H as ([] & s1 & H1 & H).
  injection H1 as <-. destruct (Hm _ _ _ H) as (evs & L & X & T).
  exists (EvTransaction :: evs). rewrite L, X. simpl. rewrite <- app_assoc.
  split_and!; [done|done|]. destruct T as [->|[cs ->]].
  - apply (batch_log_rolled_back []). constructor.
  - rewrite <- (app_nil_r (EvTransaction :: apply_removals cs)).
    apply (batch_log_committed cs []). constructor.
Qed.

Ltac closes_step :=
  first
    [ progress cbv zeta
    | apply closes_rollback
    | apply closes_commit
    | apply closes_apply_end
    | apply closes_apply; solve [silent_tac]
    | apply closes_then_silent; [apply closes_rollback | intros ?; solve [silent_tac]]
    | apply closes_after_silent; [solve [silent_tac] | intros ?]
    | match goal with
      | |- closes (if ?b then _ else _) => destruct b
      | |- closes (match ?x with _ => _ end) => destruct x
      end ].

Ltac closes_tac := repeat closes_step.

Create HintDb batched.

Ltac batched_step :=
  first
    [ progress cbv zeta
    | solve [auto with batched]
    | apply batched_silent; solve [silent_tac]
    | apply batched_transaction; solve [closes_tac]
    | apply batched_bind; [| intros ?]
    | match goal with
      | |- batched (if ?b then _ else _) => destruct b
      | |- batched (match ?x with _ => _ end) => destruct x
      end ].

Ltac batched_tac := repeat batched_step.

Lemma scanQueueBatch_batched fs budget : batched (scanQueueBatch fs budget).
Proof. unfold scanQueueBatch. batched_tac. Qed.

Lemma removeFolderInternal_batched collection folder_id path :
  batched (removeFolderInternal collection folder_id path).
Proof. unfold removeFolderInternal. batched_tac. Qed.

#[global] Hint Resolve removeFolderInternal_batched : batched.

Lemma cleanDB_folders_batched fs collections : batched (cleanDB_folders fs collections).
Proof. induction collections as [|i rest IH]; simpl; batched_tac. Qed.

#[global] Hint Resolve cleanDB_folders_batched : batched.

Lemma cleanDB_batched fs : batched (cleanDB fs).
Proof. unfold cleanDB. batched_tac. Qed.

Lemma changeChunkSize_batched fs chunkSize : batched (changeChunkSize fs chunkSize).
Proof. unfold changeChunkSize. batched_tac. Qed.

(** ** Folder removal when no statement fails *)

Lemma exec_ok s : m_faults s = [] -> exec s = Some (true, s).
Proof. intros H. unfold exec. rewrite H. reflexivity. Qed.

(** Unfold the monad on a state whose fault list is empty. *)
Ltac run_ok H :=
  unfold mbind, M_bind, mret, M_ret, update_db, modify, gets, exec; simpl;
  repeat (rewrite H; simpl); try reflexivity.

Lemma selectCollectionsFromFolder_ok folder_id l s :
  m_faults s = [] ->
  selectCollectionsFromFolder folder_id l s
    = Some ((true, l ++ collections_of_folder folder_id (m_db s)), s).
Proof. intros H. unfold selectCollectionsFromFolder. run_ok H. Qed.

Lemma removeCollection_ok name folder_id s :
  m_faults s = [] ->
  removeCollection name folder_id s
    = Some (true, with_db (delete_collection name folder_id) s).
Proof. intros H. unfold removeCollection. run_ok H. Qed.

Lemma selectDocuments_ok folder_id l s :
  m_faults s = [] ->
  selectDocuments folder_id l s = Some ((true, l ++ documents_of_folder folder_id (m_db s)), s).
Proof. intros H. unfold selectDocuments. run_ok H. Qed.

Lemma getChunksByDocumentId_ok document_id l s :
  m_faults s = [] ->
  getChunksByDocumentId document_id l s
    = Some ((true, l ++ chunks_of_document document_id (m_db s)), s).
Proof. intros H. unfold getChunksByDocumentId. run_ok H. Qed.

Lemma removeChunksByDocumentId_ok document_id s :
  m_faults s = [] ->
  removeChunksByDocumentId document_id s
    = Some (true, with_db (fun db => delete_chunks_fts document_id (delete_chunks document_id db)) s).
Proof. intros H. unfold removeChunksByDocumentId. run_ok H. Qed.

Lemma removeDocument_ok document_id s :
  m_faults s = [] ->
  removeDocument document_id s = Some (true, with_db (delete_document document_id) s).
Proof. intros H. unfold removeDocument. run_ok H. Qed.

Lemma removeFolderFromDB_ok folder_id s :
  m_faults s = [] ->
  removeFolderFromDB folder_id s = Some (true, with_db (delete_folder folder_id) s).
Proof. intros H. unfold removeFolderFromDB. run_ok H. Qed.

Lemma selectFolder_ok path id s :
  m_faults s = [] ->
  selectFolder path id s = Some ((true, default id (folder_of_path path (m_db s))), s).
Proof.
  intros H. unfold selectFolder, folder_of_path. run_ok H.
  destruct (List.filter _ _); reflexivity.
Qed.

Lemma removeFolder_loop_ok documentIds : forall chunksToRemove s,
  m_faults s = [] ->
  removeFolder_loop documentIds chunksToRemove s
    = Some ((true, chunksToRemove ++ purged_chunks documentIds (m_db s)),
            with_db (purge documentIds) s).
Proof.
  induction documentIds as [|d rest IH]; intros ctr s H; simpl.
  - rewrite app_nil_r. destruct s; reflexivity.
  - rewrite (bind_run _ _ _ _ _ (getChunksByDocumentId_ok d ctr s H)). simpl.
    rewrite (bind_run _ _ _ _ _ (removeChunksByDocumentId_ok d s H)). simpl.
    rewrite (bind_run _ _ _ _ _ (removeDocument_ok d (with_db _ s) H)). simpl.
    rewrite (IH _ (with_db _ (with_db _ s)) H). simpl. rewrite <- app_assoc. reflexivity.
Qed.

Lemma removeAll_ok cs : forall s,
  removeAll cs s
    = Some (tt, with_log (fun l => l ++ map EvVectorRemove cs)
                  (with_embeddings (replay (map EvVectorRemove cs)) s)).
Proof.
  induction cs as [|c cs IH]; intros s; simpl.
  - unfold with_log, with_embeddings. simpl. rewrite app_nil_r. destruct s; reflexivity.
  - unfold Embeddings_remove_M, emit, modify, mbind, M_bind. rewrite IH.
    unfold with_log, with_embeddings. simpl. rewrite <- app_assoc. reflexivity.
Qed.

Lemma removeFolderFromDocumentQueue_ok folder_id s :
  exists s', removeFolderFromDocumentQueue folder_id s = Some (tt, s') /\
    m_docsToScan s' = delete folder_id (m_docsToScan s) /\
    m_db s' = m_db s /\ m_txn s' = m_txn s /\ m_faults s' = m_faults s /\
    m_log s' = m_log s /\ m_embeddings s' = m_embeddings s.
Proof.
  unfold removeFolderFromDocumentQueue, mbind, M_bind, gets.
  destruct (m_docsToScan s !! folder_id) eqn:E.
  - eexists. split; [reflexivity|]. simpl. split_and!; reflexivity.
  - exists s. split; [reflexivity|]. rewrite (delete_id _ _ E). split_and!; reflexivity.
Qed.

Lemma removeFolderInternal_last_referent collection folder_id path s :
  m_faults s = [] ->
  (List.length (collections_of_folder folder_id (m_db s)) <= 1)%nat ->
  exists s',
    removeFolderInternal collection folder_id path s = Some (tt, s') /\
    (let db := delete_collection collection folder_id (m_db s) in
     let ds := documents_of_folder folder_id db in
     let cs := purged_chunks ds db in
     m_db s' = delete_folder folder_id (purge ds db) /\
     m_docsToScan s' = delete folder_id (m_docsToScan s) /\
     m_log s' = m_log s ++ committed cs /\
     m_embeddings s' = replay (apply_removals cs) (m_embeddings s)).
Proof.
  intros H Hn. unfold removeFolderInternal.
  rewrite (bind_run _ _ _ _ _ (selectCollectionsFromFolder_ok folder_id [] s H)).
  cbn [negb app].
  assert (Hc : (Z.of_nat (List.length (collections_of_folder folder_id (m_db s))) >? 1) = false)
    by (rewrite Z.gtb_ltb; apply Z.ltb_ge; lia).
  rewrite (bind_run transaction _ s tt
             (with_log (fun l => l ++ [EvTransaction]) (with_txn (Some (m_db s)) s)) eq_refl).
  rewrite (bind_run _ _ _ _ _ (removeCollection_ok collection folder_id
             (with_log _ (with_txn _ s)) H)).
  cbn [negb]. rewrite Hc.
  destruct (removeFolderFromDocumentQueue_ok folder_id
              (with_db (delete_collection collection folder_id)
                 (with_log (fun l => l ++ [EvTransaction]) (with_txn (Some (m_db s)) s))))
    as (s1 & E1 & Q1 & D1 & T1 & F1 & L1 & X1).
  rewrite (bind_run _ _ _ _ _ E1).
  assert (H1 : m_faults s1 = []) by (rewrite F1; exact H).
  rewrite (bind_run _ _ _ _ _ (selectDocuments_ok folder_id [] s1 H1)).
  cbn [negb app].
  rewrite (bind_run _ _ _ _ _ (removeFolder_loop_ok _ [] s1 H1)).
  cbn [negb app].
  rewrite (bind_run _ _ _ _ _ (removeFolderFromDB_ok folder_id (with_db _ s1) H1)).
  cbn [negb].
  rewrite (bind_run _ _ _ _ _ (removeAll_ok _ _)).
  simpl in Q1, D1, L1, X1.
  rewrite D1.
  set (db := delete_collection collection folder_id (m_db s)).
  set (cs := purged_chunks (documents_of_folder folder_id db) db).
  unfold mbind, M_bind, commit, skip, Embeddings_save_M, removeGuiFolderById,
    removeFolderFromWatch, emit, modify, gets, mret, M_ret.
  unfold committed, apply_removals.
  destruct cs as [|c cs'] eqn:Ecs; simpl; (eexists; split; [reflexivity|]); simpl;
    rewrite ?D1, ?Q1, ?L1, ?X1, ?replay_app, <- ?app_assoc; simpl;
    split_and!; reflexivity.
Qed.


Lemma folder_of_path_found path db folder_id :
  folder_of_path path db = Some folder_id -> (folder_id =? -1) = false.
Proof.
  unfold folder_of_path. destruct (List.filter _ _) as [|f ?]; [discriminate|].
  intros [= <-]. reflexivity.
Qed.

Lemma removeFolder_found collection path s folder_id :
  m_faults s = [] ->
  folder_of_path path (m_db s) = Some folder_id ->
  removeFolder collection path s = removeFolderInternal collection folder_id path s.
Proof.
  intros H Hf. unfold removeFolder.
  rewrite (bind_run _ _ _ _ _ (selectFolder_ok path (-1) s H)).
  rewrite Hf. simpl. rewrite (folder_of_path_found _ _ _ Hf). reflexivity.
Qed.

(** *** What is left after the purge *)

Lemma filter_filter {A : Type} (f g : A -> bool) (l : list A) :
  List.filter f (List.filter g l) = List.filter (fun x => g x && f x) l.
Proof.
  induction l as [|x l IH]; simpl; [reflexivity|].
  destruct (g x); simpl; [destruct (f x)|]; rewrite IH; reflexivity.
Qed.

Lemma filter_all {A : Type} (f : A -> bool) (l : list A) :
  (forall x, f x = true) -> List.filter f l = l.
Proof.
  intros Hf. induction l as [|x l IH]; simpl; [reflexivity|]. rewrite Hf, IH. reflexivity.
Qed.

Lemma in_list_cons x d ds : in_list x (d :: ds) = (x =? d) || in_list x ds.
Proof. reflexivity. Qed.

Lemma purge_tables ds : forall db,
  documents (purge ds db)
    = List.filter (fun d => negb (in_list (bindId (d_id d)) ds)) (documents db) /\
  chunks (purge ds db)
    = List.filter (fun c => negb (in_list (c_document_id c) ds)) (chunks db) /\
  chunks_fts (purge ds db)
    = List.filter (fun t => negb (in_list (t_document_id t) ds)) (chunks_fts db) /\
  folders (purge ds db) = folders db /\
  collections (purge ds db) = collections db.
Proof.
  induction ds as [|d ds IH]; intros db.
  - simpl. rewrite !filter_all by reflexivity. split_and!; reflexivity.
  - simpl purge. destruct (IH (purge_document d db)) as (Hd & Hc & Ht & Hf & Hk).
    rewrite Hd, Hc, Ht, Hf, Hk.
    unfold purge_document, delete_document, delete_chunks_fts, delete_chunks,
      with_documents, with_chunks, with_chunks_fts.
    cbn [documents chunks chunks_fts folders collections]. rewrite !filter_filter.
    split_and!; try reflexivity;
      apply List.filter_ext; intros x; rewrite in_list_cons, negb_orb; reflexivity.
Qed.

Lemma purged_chunks_complete ds : forall db c,
  In c (chunks db) -> in_list (c_document_id c) ds = true ->
  In (bindId (c_chunk_id c)) (purged_chunks ds db).
Proof.
  induction ds as [|d ds IH]; intros db c Hin Hds; [discriminate|].
  simpl. apply in_or_app. rewrite in_list_cons in Hds.
  destruct (c_document_id c =? d) eqn:E.
  - left. unfold chunks_of_document. apply (in_map (fun c => bindId (c_chunk_id c))).
    apply filter_In. split; assumption.
  - right. apply IH; [|exact Hds]. simpl. apply filter_In. split; [exact Hin|].
    rewrite E. reflexivity.
Qed.

Lemma documents_of_folder_complete folder_id db d :
  In d (documents db) -> d_folder_id d = folder_id ->
  in_list (bindId (d_id d)) (documents_of_folder folder_id db) = true.
Proof.
  intros Hin Hf. unfold in_list. apply existsb_exists. exists (bindId (d_id d)).
  split; [|apply Z.eqb_refl].
  unfold documents_of_folder. apply (in_map (fun d => bindId (d_id d))).
  apply filter_In. split; [exact Hin|]. apply Z.eqb_eq. exact Hf.
Qed.

(** *** The vector index after the removals *)

Lemma replay_removals_index cs : forall x,
  e_index (replay (map EvVectorRemove cs) x) = foldl (fun m c => delete c m) (e_index x) cs.
Proof.
  induction cs as [|c cs IH]; intros x; [reflexivity|].
  change (replay (map EvVectorRemove (c :: cs)) x)
    with (replay (map EvVectorRemove cs) (Embeddings_remove c x)).
  rewrite IH. reflexivity.
Qed.

Lemma foldl_delete_None cs : forall (m : gmap Z embedding) id,
  m !! id = None -> foldl (fun m c => delete c m) m cs !! id = None.
Proof.
  induction cs as [|c cs IH]; intros m id H; [exact H|].
  simpl. apply IH. rewrite lookup_delete. case_decide; [reflexivity|exact H].
Qed.

Lemma foldl_delete_In cs : forall (m : gmap Z embedding) id,
  In id cs -> foldl (fun m c => delete c m) m cs !! id = None.
Proof.
  induction cs as [|c cs IH]; intros m id H; [destruct H|].
  simpl. destruct H as [->|H].
  - apply foldl_delete_None, lookup_delete_eq.
  - apply IH, H.
Qed.

Lemma replay_apply_removals cs x id :
  In id cs ->
  e_index (replay (apply_removals cs) x) !! id = None /\
  e_file (replay (apply_removals cs) x) !! id = None.
Proof.
  intros Hin.
  assert (E : replay (apply_removals cs) x
              = Embeddings_save (replay (map EvVectorRemove cs) x)).
  { unfold apply_removals. rewrite replay_app.
    destruct cs; [destruct Hin|reflexivity]. }
  rewrite E. cbn [Embeddings_save e_index e_file].
  rewrite replay_removals_index. split; apply foldl_delete_In, Hin.
Qed.

Lemma folder_deleted_purge collection folder_id db :
  folder_deleted folder_id db
    (delete_folder folder_id
       (purge (documents_of_folder folder_id (delete_collection collection folder_id db))
          (delete_collection collection folder_id db))).
Proof.
  unfold folder_deleted.
  change (documents_of_folder folder_id (delete_collection collection folder_id db))
    with (documents_of_folder folder_id db).
  destruct (purge_tables (documents_of_folder folder_id db)
              (delete_collection collection folder_id db)) as (Hd & Hc & Ht & Hf & _).
  unfold delete_folder, with_folders. cbn [chunks chunks_fts documents folders].
  rewrite Hd, Hc, Ht, Hf. split_and!; reflexivity.
Qed.

Lemma folder_deleted_nothing_left folder_id before after :
  folder_deleted folder_id before after ->
  (forall c, In c (chunks after) ->
     in_list (c_document_id c) (documents_of_folder folder_id before) = false) /\
  (forall t, In t (chunks_fts after) ->
     in_list (t_document_id t) (documents_of_folder folder_id before) = false) /\
  (forall d, In d (documents after) -> d_folder_id d <> folder_id) /\
  (forall f, In f (folders after) -> bindId (f_id f) <> folder_id).
Proof.
  intros (Hc & Ht & Hd & Hf). split_and!.
  - intros c Hin. rewrite Hc in Hin. apply filter_In in Hin as [_ Hin].
    apply negb_true_iff, Hin.
  - intros t Hin. rewrite Ht in Hin. apply filter_In in Hin as [_ Hin].
    apply negb_true_iff, Hin.
  - intros d Hin Hfolder. rewrite Hd in Hin. apply filter_In in Hin as [Hin Hnot].
    rewrite (documents_of_folder_complete folder_id before d Hin Hfolder) in Hnot.
    discriminate.
  - intros f Hin Hid. rewrite Hf in Hin. apply filter_In in Hin as [_ Hnot].
    rewrite Hid, Z.eqb_refl in Hnot. discriminate.
Qed.

(** ** The vectors of the chunks a batch operation deletes *)

Lemma chunks_row_eq_dec (a b : chunks_row) : {a = b} + {a <> b}.
Proof.
  decide equality; solve [apply Z.eq_dec | apply Pos.eq_dec | apply string_dec].
Qed.

(** The vector index has no entry for [id], in memory or in its file. *)
Definition gone (id : Z) (x : Embeddings) : Prop :=
  e_index x !! id = None /\ e_file x !! id = None.

(** Inside a transaction: the rows of [before] that are no longer in the
    table have their ids in [chunksToRemove]. *)
Definition owes (before : list chunks_row) (chunksToRemove : list Z) (s : Database) : Prop :=
  forall c, In c before -> ~ In c (chunks (m_db s)) ->
    In (bindId (c_chunk_id c)) chunksToRemove.

(** Outside a transaction: the rows of [before] that are no longer in the
    table have no vector, and an id that had no vector in [x] has none. *)
Definition settled (before : list chunks_row) (x : Embeddings) (s : Database) : Prop :=
  (forall c, In c before -> ~ In c (chunks (m_db s)) ->
     gone (bindId (c_chunk_id c)) (m_embeddings s)) /\
  (forall id, gone id x -> gone id (m_embeddings s)).

(** [m] leaves no vector of a chunk it deletes. *)
Definition tidy {A : Type} (m : M A) : Prop :=
  forall s a s', m s = Some (a, s') -> settled (chunks (m_db s)) (m_embeddings s) s'.

(** The state inside a transaction that began with the chunks [before] and
    the vector index [x]. *)
Definition in_transaction (before : list chunks_row) (x : Embeddings)
    (chunksToRemove : list Z) (s : Database) : Prop :=
  (exists db, m_txn s = Some db /\ chunks db = before) /\
  m_embeddings s = x /\
  owes before chunksToRemove s.

(** [m] ends the transaction. *)
Definition ends {A : Type} (before : list chunks_row) (x : Embeddings)
    (chunksToRemove : list Z) (m : M A) : Prop :=
  forall s a s', m s = Some (a, s') ->
    in_transaction before x chunksToRemove s -> settled before x s'.

(** [m] goes on inside the transaction and returns the new [chunksToRemove]. *)
Definition collects {A : Type} (before : list chunks_row) (x : Embeddings)
    (chunksToRemove : list Z) (m : M (A * list Z)) : Prop :=
  forall s r s', m s = Some (r, s') ->
    in_transaction before x chunksToRemove s -> in_transaction before x r.2 s'.

(** [m] deletes no chunk. *)
Definition grows {A : Type} (m : M A) : Prop :=
  forall before chunksToRemove, keeps (owes before chunksToRemove) m.

(** *** Operations that delete no chunk *)

Lemma exec_owes before ctr : keeps (owes before ctr) exec.
Proof.
  intros s a s' H HI. unfold exec in H.
  destruct (m_faults s); injection H as _ <-; exact HI.
Qed.

#[global] Hint Resolve exec_owes : keeps.

Lemma update_db_owes before ctr (f : DB -> DB) :
  (forall db, incl (chunks db) (chunks (f db))) -> keeps (owes before ctr) (update_db f).
Proof.
  intros Hf. apply keeps_modify. intros s HI c Hc Hn.
  apply (HI c Hc). intros Hin. apply Hn. exact (Hf _ _ Hin).
Qed.

Lemma addChunk_owes before ctr document_id chunk_text file title author subject keywords
    page from to words chunk_id :
  keeps (owes before ctr)
    (addChunk document_id chunk_text file title author subject keywords page from to words
       chunk_id).
Proof.
  unfold addChunk. keeps_tac.
  apply update_db_owes. intros db. unfold insert_chunk. cbn [chunks with_seq_chunks with_chunks].
  apply incl_appl, incl_refl.
Qed.

#[global] Hint Resolve addChunk_owes : keeps.

Lemma chunkStream_loop_owes before ctr fuel : forall stream folder_id document_id file title
    author subject keywords page maxChunks charCount words count addedWords,
  keeps (owes before ctr)
    (chunkStream_loop fuel stream folder_id document_id file title author subject keywords
       page maxChunks charCount words count addedWords).
Proof.
  induction fuel as [|fuel IH]; intros; simpl.
  - apply keeps_ret.
  - keeps_tac; try apply IH.
Qed.

Lemma statistics_loop_owes before ctr collections :
  keeps (owes before ctr) (statistics_loop collections).
Proof. induction collections as [|i rest IH]; simpl; keeps_tac. Qed.

#[global] Hint Resolve chunkStream_loop_owes statistics_loop_owes : keeps.

Lemma scanQueue_document_owes before ctr folder_id countForFolder existing_id document_time
    document_path processing :
  keeps (owes before ctr)
    (scanQueue_document folder_id countForFolder existing_id document_time document_path
       processing).
Proof. unfold scanQueue_document. keeps_tac. Qed.

Lemma scanQueue_pdf_owes before ctr fs info folder_id countForFolder document_id :
  keeps (owes before ctr) (scanQueue_pdf fs info folder_id countForFolder document_id).
Proof. unfold scanQueue_pdf. keeps_tac. Qed.

Lemma scanQueue_text_owes before ctr fs info folder_id countForFolder document_id
    document_path :
  keeps (owes before ctr)
    (scanQueue_text fs info folder_id countForFolder document_id document_path).
Proof. unfold scanQueue_text. keeps_tac. Qed.

#[global] Hint Resolve scanQueue_document_owes scanQueue_pdf_owes scanQueue_text_owes : keeps.

Lemma enqueueAll_owes before ctr infos : keeps (owes before ctr) (enqueueAll infos).
Proof. induction infos as [|i rest IH]; simpl; keeps_tac. Qed.

Lemma scanDocuments_loop_owes before ctr fs folder_id entries : forall infos,
  keeps (owes before ctr) (scanDocuments_loop fs folder_id entries infos).
Proof. induction entries as [|p rest IH]; intros; simpl; keeps_tac; try apply IH. Qed.

Lemma checkAndAddFolderToDB_owes before ctr fs path :
  keeps (owes before ctr) (checkAndAddFolderToDB fs path).
Proof. unfold checkAndAddFolderToDB. keeps_tac. Qed.

#[global] Hint Resolve enqueueAll_owes scanDocuments_loop_owes checkAndAddFolderToDB_owes
  : keeps.

Lemma addCurrentFolders_loop_owes before ctr fs collections :
  keeps (owes before ctr) (addCurrentFolders_loop fs collections).
Proof. induction collections as [|i rest IH]; simpl; keeps_tac. Qed.

#[global] Hint Resolve addCurrentFolders_loop_owes : keeps.

Ltac grows_tac := intros ? ?; solve [keeps_tac].

(** *** The rules of the transaction *)

Lemma in_transaction_kept {A : Type} before x ctr (m : M A) :
  silent m -> grows m -> keeps (in_transaction before x ctr) m.
Proof.
  intros Hs Hg s a s' H (Ht & Hx & Ho).
  pose proof (Hs _ _ _ H) as F. unfold frame in F. injection F as _ Fe Ft.
  split_and!.
  - rewrite Ft. exact Ht.
  - rewrite Fe. exact Hx.
  - exact (Hg _ _ _ _ _ H Ho).
Qed.

Lemma settled_kept {A : Type} before x (m : M A) :
  silent m -> grows m -> keeps (settled before x) m.
Proof.
  intros Hs Hg s a s' H [H1 H2].
  pose proof (Hs _ _ _ H) as F. unfold frame in F. injection F as _ Fe _.
  split; [|intros id Hid; rewrite Fe; exact (H2 _ Hid)].
  intros c Hc Hn. rewrite Fe. apply H1; [exact Hc|]. intros Hin.
  apply (Hg [c] [] _ _ _ H) with (c := c); [|left; reflexivity|exact Hn].
  intros c' [<-|[]] Hn'. destruct (Hn' Hin).
Qed.

Lemma tidy_quiet {A : Type} (m : M A) : silent m -> grows m -> tidy m.
Proof.
  intros Hs Hg s a s' H. apply (settled_kept _ _ m Hs Hg _ _ _ H). split.
  - intros c Hc Hn. destruct (Hn Hc).
  - auto.
Qed.

Lemma tidy_bind {A B : Type} (m : M A) (f : A -> M B) :
  tidy m -> (forall a, tidy (f a)) -> tidy (m ≫= f).
Proof.
  intros Hm Hf s b s' H. apply bind_Some in H as (a & s1 & H1 & H2).
  destruct (Hm _ _ _ H1) as [M1 M2]. destruct (Hf _ _ _ _ H2) as [F1 F2]. split.
  - intros c Hc Hn. destruct (in_dec chunks_row_eq_dec c (chunks (m_db s1))) as [Hin|Hout].
    + exact (F1 c Hin Hn).
    + exact (F2 _ (M1 c Hc Hout)).
  - intros id Hg. exact (F2 _ (M2 _ Hg)).
Qed.

Lemma tidy_transaction {A : Type} (m : M A) :
  (forall before x, ends before x [] m) -> tidy (transaction;; m).
Proof.
  intros Hm s a s' H. apply bind_Some in H as ([] & s1 & H1 & H).
  injection H1 as <-. apply (Hm _ _ _ _ _ H). split_and!.
  - exists (m_db s). split; reflexivity.
  - reflexivity.
  - intros c Hc Hn. destruct (Hn Hc).
Qed.

Lemma ends_rollback before x ctr : ends before x ctr rollback.
Proof.
  intros s a s' H ((db & Ht & Hb) & Hx & _).
  unfold rollback, mbind, M_bind, gets in H. rewrite Ht in H.
  injection H as _ <-. split.
  - intros c Hc Hn. exfalso. apply Hn. cbn. rewrite Hb. exact Hc.
  - intros id Hg. cbn. rewrite Hx. exact Hg.
Qed.

Lemma ends_commit before x : ends before x [] commit.
Proof.
  intros s a s' H (_ & Hx & Ho). injection H as _ <-. split.
  - intros c Hc Hn. destruct (Ho c Hc Hn).
  - intros id Hg. cbn. rewrite Hx. exact Hg.
Qed.

Lemma gone_apply_removals cs x id : gone id x -> gone id (replay (apply_removals cs) x).
Proof.
  intros [Hi Hf]. destruct cs as [|c cs]; [split; assumption|].
  assert (E : replay (apply_removals (c :: cs)) x
              = Embeddings_save (replay (map EvVectorRemove (c :: cs)) x)).
  { unfold apply_removals. rewrite replay_app. reflexivity. }
  rewrite E. unfold gone. cbn [Embeddings_save e_index e_file].
  rewrite replay_removals_index. split; apply foldl_delete_None, Hi.
Qed.

Lemma ends_apply {A : Type} before x (cs : list Z) (rest : M A) :
  silent rest -> grows rest ->
  ends before x cs
    (removeAll cs;; commit;; match cs with [] => skip | _ => Embeddings_save_M end;; rest).
Proof.
  intros Hs Hg s a s' H (_ & Hx & Ho).
  rewrite (bind_run _ _ _ _ _ (removeAll_ok cs s)) in H.
  apply bind_Some in H as ([] & s2 & H2 & H). injection H2 as <-.
  apply bind_Some in H as ([] & s3 & H3 & H).
  apply (settled_kept before x rest Hs Hg _ _ _ H).
  assert (E : m_db s3 = m_db s /\ m_embeddings s3 = replay (apply_removals cs) x).
  { rewrite <- Hx. unfold apply_removals.
    destruct cs; injection H3 as <-; cbn [m_db m_embeddings with_log with_embeddings with_txn];
      rewrite ?replay_app; split; reflexivity. }
  destruct E as [Edb Ee]. unfold settled. rewrite Edb, Ee. split.
  - intros c Hc Hn. apply replay_apply_removals. exact (Ho c Hc Hn).
  - intros id. apply gone_apply_removals.
Qed.

Lemma ends_apply_end before x (cs : list Z) :
  ends before x cs
    (removeAll cs;; commit;; match cs with [] => skip | _ => Embeddings_save_M end).
Proof.
  intros s a s' H.
  apply (ends_apply before x cs skip silent_skip (fun _ _ => keeps_skip _) s tt s').
  rewrite (bind_run _ _ _ _ _ (removeAll_ok cs s)) in H.
  rewrite (bind_run _ _ _ _ _ (removeAll_ok cs s)).
  apply bind_Some in H as ([] & s2 & H2 & H). rewrite (bind_run _ _ _ _ _ H2).
  apply bind_Some. destruct a. exists tt, s'. split; [exact H|reflexivity].
Qed.

Lemma ends_then {A B : Type} before x ctr (m : M A) (f : A -> M B) :
  ends before x ctr m -> (forall a, silent (f a)) -> (forall a, grows (f a)) ->
  ends before x ctr (m ≫= f).
Proof.
  intros Hm Hs Hg s b s' H HI. apply bind_Some in H as (a & s1 & H1 & H2).
  exact (settled_kept before x (f a) (Hs a) (Hg a) _ _ _ H2 (Hm _ _ _ H1 HI)).
Qed.

Lemma ends_after {A B : Type} before x ctr (m : M A) (f : A -> M B) :
  silent m -> grows m -> (forall a, ends before x ctr (f a)) -> ends before x ctr (m ≫= f).
Proof.
  intros Hs Hg Hf s b s' H HI. apply bind_Some in H as (a & s1 & H1 & H2).
  exact (Hf a _ _ _ H2 (in_transaction_kept before x ctr m Hs Hg _ _ _ H1 HI)).
Qed.

Lemma ends_after_collect {A B : Type} before x ctr (m : M (A * list Z))
    (f : A * list Z -> M B) :
  collects before x ctr m -> (forall r, ends before x r.2 (f r)) ->
  ends before x ctr (m ≫= f).
Proof.
  intros Hm Hf s b s' H HI. apply bind_Some in H as (r & s1 & H1 & H2).
  exact (Hf r _ _ _ H2 (Hm _ _ _ H1 HI)).
Qed.

Lemma collects_ret {A : Type} before x ctr (a : A) :
  collects before x ctr (mret (a, ctr)).
Proof. intros s r s' H HI. apply ret_Some in H as [<- <-]. exact HI. Qed.

Lemma collects_after {A B : Type} before x ctr (m : M A) (f : A -> M (B * list Z)) :
  silent m -> grows m -> (forall a, collects before x ctr (f a)) ->
  collects before x ctr (m ≫= f).
Proof.
  intros Hs Hg Hf s b s' H HI. apply bind_Some in H as (a & s1 & H1 & H2).
  exact (Hf a _ _ _ H2 (in_transaction_kept before x ctr m Hs Hg _ _ _ H1 HI)).
Qed.

Lemma collects_bind {A B : Type} before x ctr (m : M (A * list Z))
    (f : A * list Z -> M (B * list Z)) :
  collects before x ctr m -> (forall r, collects before x r.2 (f r)) ->
  collects before x ctr (m ≫= f).
Proof.
  intros Hm Hf s b s' H HI. apply bind_Some in H as (r & s1 & H1 & H2).
  exact (Hf r _ _ _ H2 (Hm _ _ _ H1 HI)).
Qed.

(** *** The select and the delete of the chunks of a document *)

Lemma exec_run s ok s' : exec s = Some (ok, s') -> m_db s' = m_db s /\ frame s' = frame s.
Proof.
  intros H. unfold exec in H. destruct (m_faults s); injection H as _ <-; split; reflexivity.
Qed.

Lemma getChunksByDocumentId_run document_id ctr s ok ctr' s' :
  getChunksByDocumentId document_id ctr s = Some ((ok, ctr'), s') ->
  m_db s' = m_db s /\ frame s' = frame s /\
  ctr' = if ok then ctr ++ chunks_of_document document_id (m_db s) else ctr.
Proof.
  intros H. unfold getChunksByDocumentId in H.
  apply bind_Some in H as (ok0 & s0 & He & H). apply exec_run in He as [Edb Ef].
  destruct ok0; cbn [negb] in H.
  - injection H as <- <- <-. rewrite Edb. auto.
  - injection H as <- <- <-. auto.
Qed.

Lemma removeChunksByDocumentId_run document_id s ok s' :
  removeChunksByDocumentId document_id s = Some (ok, s') ->
  frame s' = frame s /\
  (chunks (m_db s') = chunks (m_db s) \/
   chunks (m_db s')
     = List.filter (fun c => negb (c_document_id c =? document_id)) (chunks (m_db s))).
Proof.
  intros H. split; [exact (removeChunksByDocumentId_silent _ _ _ _ H)|].
  unfold removeChunksByDocumentId in H.
  apply bind_Some in H as (ok0 & s0 & He & H). apply exec_run in He as [Edb _].
  destruct ok0; cbn [negb] in H.
  - apply bind_Some in H as ([] & s1 & H1 & H). injection H1 as <-.
    apply bind_Some in H as (ok1 & s2 & He & H). apply exec_run in He as [Edb2 _].
    right. destruct ok1; cbn [negb] in H.
    + apply bind_Some in H as ([] & s3 & H3 & H). injection H3 as <-.
      apply ret_Some in H as [_ <-]. cbn. rewrite Edb2. cbn. rewrite Edb. reflexivity.
    + apply ret_Some in H as [_ <-]. rewrite Edb2. cbn. rewrite Edb. reflexivity.
  - apply ret_Some in H as [_ <-]. left. rewrite Edb. reflexivity.
Qed.

Lemma owes_more before ctr ctr' s s' :
  m_db s' = m_db s -> incl ctr ctr' -> owes before ctr s -> owes before ctr' s'.
Proof. intros Edb Hi Ho c Hc Hn. rewrite Edb in Hn. exact (Hi _ (Ho c Hc Hn)). Qed.

Lemma collects_delete {A : Type} before x ctr document_id
    (fail1 fail2 rest : list Z -> M (A * list Z)) :
  (forall c, collects before x c (fail1 c)) ->
  (forall c, collects before x c (fail2 c)) ->
  (forall c, collects before x c (rest c)) ->
  collects before x ctr
    ('(ok, chunksToRemove) ← getChunksByDocumentId document_id ctr;
     if negb ok then fail1 chunksToRemove else
     ok ← removeChunksByDocumentId document_id;
     if negb ok then fail2 chunksToRemove else rest chunksToRemove).
Proof.
  intros H1 H2 H3 s r s' H (Ht & Hx & Ho).
  apply bind_Some in H as ([ok c] & s1 & Hget & H).
  apply getChunksByDocumentId_run in Hget as (Edb & Ef & Ec).
  unfold frame in Ef. injection Ef as _ Fe Ft.
  destruct ok; cbn [negb] in H.
  - apply bind_Some in H as (ok' & s2 & Hdel & H).
    apply removeChunksByDocumentId_run in Hdel as (Ef & Hdel).
    unfold frame in Ef. injection Ef as _ Fe2 Ft2.
    assert (HI : in_transaction before x c s2).
    { split_and!.
      - rewrite Ft2, Ft. exact Ht.
      - rewrite Fe2, Fe. exact Hx.
      - intros c0 Hc Hn. subst c. apply in_or_app.
        destruct (in_dec chunks_row_eq_dec c0 (chunks (m_db s))) as [Hin|Hout].
        + right. unfold chunks_of_document.
          apply (in_map (fun c => bindId (c_chunk_id c))), filter_In. split; [exact Hin|].
          destruct (c_document_id c0 =? document_id) eqn:E; [reflexivity|].
          exfalso. apply Hn. destruct Hdel as [->| ->]; rewrite Edb; [exact Hin|].
          apply filter_In. split; [exact Hin|]. rewrite E. reflexivity.
        + left. exact (Ho c0 Hc Hout). }
    destruct ok'; cbn [negb] in H.
    + exact (H3 c _ _ _ H HI).
    + exact (H2 c _ _ _ H HI).
  - apply (H1 c _ _ _ H). subst c. split_and!.
    + rewrite Ft. exact Ht.
    + rewrite Fe. exact Hx.
    + exact (owes_more before ctr ctr s s1 Edb (incl_refl _) Ho).
Qed.

Create HintDb collects.

Ltac collects_step :=
  first
    [ progress cbv zeta
    | apply collects_ret
    | solve [auto with collects]
    | apply collects_delete; intros ?
    | apply collects_after; [solve [silent_tac] | grows_tac | intros ?]
    | apply collects_bind; [| intros ?]
    | match goal with
      | |- collects _ _ _ (if ?b then _ else _) => destruct b
      | |- collects _ _ _ (match ?x with _ => _ end) => destruct x
      end ].

Ltac collects_tac := repeat collects_step.

Lemma scanQueue_existing_collects before x ctr folder_id countForFolder existing_id
    existing_time document_time :
  collects before x ctr
    (scanQueue_existing folder_id countForFolder existing_id existing_time document_time ctr).
Proof. unfold scanQueue_existing. collects_tac. Qed.

#[global] Hint Resolve scanQueue_existing_collects : collects.

Lemma scanQueue_collects before x ctr fs : collects before x ctr (scanQueue fs ctr).
Proof. unfold scanQueue. collects_tac. Qed.

#[global] Hint Resolve scanQueue_collects : collects.

Lemma scanQueueBatch_loop_collects before x fs budget : forall ctr,
  collects before x ctr (scanQueueBatch_loop fs budget ctr).
Proof.
  induction budget as [|budget IH]; intros; simpl.
  - apply collects_ret.
  - collects_tac; try apply IH.
Qed.

Lemma removeFolder_loop_collects before x documentIds : forall ctr,
  collects before x ctr (removeFolder_loop documentIds ctr).
Proof. induction documentIds as [|d rest IH]; intros; simpl; collects_tac; try apply IH. Qed.

Lemma cleanDB_loop_collects before x fs rows : forall ctr,
  collects before x ctr (cleanDB_loop fs rows ctr).
Proof. induction rows as [|r rest IH]; intros; simpl; collects_tac; try apply IH. Qed.

Lemma changeChunkSize_loop_collects before x rows : forall ctr,
  collects before x ctr (changeChunkSize_loop rows ctr).
Proof. induction rows as [|r rest IH]; intros; simpl; collects_tac; try apply IH. Qed.

#[global] Hint Resolve scanQueueBatch_loop_collects removeFolder_loop_collects
  cleanDB_loop_collects changeChunkSize_loop_collects : collects.

Ltac ends_step :=
  first
    [ progress cbv zeta
    | apply ends_rollback
    | apply ends_commit
    | apply ends_apply_end
    | apply ends_apply; [solve [silent_tac] | grows_tac]
    | apply ends_then; [apply ends_rollback | intros ?; solve [silent_tac] | intros ?; grows_tac]
    | apply ends_after; [solve [silent_tac] | grows_tac | intros ?]
    | apply ends_after_collect; [solve [auto with collects] | intros ?]
    | match goal with
      | |- ends _ _ _ (if ?b then _ else _) => destruct b
      | |- ends _ _ _ (match ?x with _ => _ end) => destruct x
      end ].

Ltac ends_tac := repeat ends_step.

Create HintDb tidy.

Ltac tidy_step :=
  first
    [ progress cbv zeta
    | solve [auto with tidy]
    | apply tidy_quiet; [solve [silent_tac] | grows_tac]
    | apply tidy_transaction; intros ? ?; solve [ends_tac]
    | apply tidy_bind; [| intros ?]
    | match goal with
      | |- tidy (if ?b then _ else _) => destruct b
      | |- tidy (match ?x with _ => _ end) => destruct x
      end ].

Ltac tidy_tac := repeat tidy_step.

Lemma scanQueueBatch_tidy fs budget : tidy (scanQueueBatch fs budget).
Proof. unfold scanQueueBatch. tidy_tac. Qed.

Lemma removeFolderInternal_tidy collection folder_id path :
  tidy (removeFolderInternal collection folder_id path).
Proof. unfold removeFolderInternal. tidy_tac. Qed.

#[global] Hint Resolve removeFolderInternal_tidy : tidy.

Lemma cleanDB_folders_tidy fs collections : tidy (cleanDB_folders fs collections).
Proof. induction collections as [|i rest IH]; simpl; tidy_tac. Qed.

#[global] Hint Resolve cleanDB_folders_tidy : tidy.

Lemma cleanDB_tidy fs : tidy (cleanDB fs).
Proof. unfold cleanDB. tidy_tac. Qed.

Lemma changeChunkSize_tidy fs chunkSize : tidy (changeChunkSize fs chunkSize).
Proof. unfold changeChunkSize. tidy_tac. Qed.

(** ** C2: the vector index and the commit *)

(** C2, as amended. For every batch operation that deletes chunks (scan
    tick, folder removal, cleanup, change of the chunk size), whatever
    statements fail: the log of the operation is a sequence of whole
    transactions, each of which is either rolled back without any access
    to the vector index, or ends with removals from the vector index, then
    the commit, then the save of the index when an entry was removed; the
    vector index after the operation is the result of exactly these
    removals and saves; and every chunk row the operation has deleted from
    the table has no entry left in the vector index, in memory or in its
    file. *)
Theorem vector_index_updates_end_the_transaction (op : batch_operation) (s s' : Database) :
  run op s = Some (tt, s') ->
  (exists evs,
     m_log s' = m_log s ++ evs /\
     m_embeddings s' = replay evs (m_embeddings s) /\
     batch_log evs) /\
  (forall c, In c (chunks (m_db s)) -> ~ In c (chunks (m_db s')) ->
     e_index (m_embeddings s') !! bindId (c_chunk_id c) = None /\
     e_file (m_embeddings s') !! bindId (c_chunk_id c) = None).
Proof.
  intros H. split.
  - assert (Hb : batched (run op)).
    { destruct op; simpl.
      - apply scanQueueBatch_batched.
      - apply removeFolderInternal_batched.
      - apply cleanDB_batched.
      - apply changeChunkSize_batched. }
    exact (Hb s tt s' H).
  - assert (Ht : tidy (run op)).
    { destruct op; simpl.
      - apply scanQueueBatch_tidy.
      - apply removeFolderInternal_tidy.
      - apply cleanDB_tidy.
      - apply changeChunkSize_tidy. }
    exact (proj1 (Ht s tt s' H)).
Qed.

Lemma vector_index_updates_end_the_transaction_witness :
  run removal_of_sample_folder state_with_sample_folder
    = Some (tt, state_after (run removal_of_sample_folder) state_with_sample_folder) /\
  map c_chunk_id (chunks (m_db state_with_sample_folder)) = [1%positive] /\
  e_index (m_embeddings state_with_sample_folder) !! 1 = Some [0] /\
  chunks (m_db (state_after (run removal_of_sample_folder) state_with_sample_folder)) = [] /\
  (exists evs,
     m_log (state_after (run removal_of_sample_folder) state_with_sample_folder)
       = m_log state_with_sample_folder ++ evs /\
     m_embeddings (state_after (run removal_of_sample_folder) state_with_sample_folder)
       = replay evs (m_embeddings state_with_sample_folder) /\
     batch_log evs) /\
  (forall c, In c (chunks (m_db state_with_sample_folder)) ->
     ~ In c (chunks (m_db (state_after (run removal_of_sample_folder)
                             state_with_sample_folder))) ->
     e_index (m_embeddings (state_after (run removal_of_sample_folder)
                              state_with_sample_folder)) !! bindId (c_chunk_id c) = None /\
     e_file (m_embeddings (state_after (run removal_of_sample_folder)
                             state_with_sample_folder)) !! bindId (c_chunk_id c) = None).
Proof.
  split; [vm_compute; reflexivity|].
  split; [vm_compute; reflexivity|]. split; [vm_compute; reflexivity|].
  split; [vm_compute; reflexivity|].
  apply (vector_index_updates_end_the_transaction removal_of_sample_folder).
  vm_compute. reflexivity.
Defined.

(** C2, as stated, fails: removing the sample folder takes the vector of its
    chunk out of the index before the commit. *)
Lemma vector_index_touched_before_commit :
  run removal_of_sample_folder state_with_sample_folder
    = Some (tt, state_after (run removal_of_sample_folder) state_with_sample_folder) /\
  m_log (state_after (run removal_of_sample_folder) state_with_sample_folder)
    = [EvTransaction; EvVectorRemove 1; EvCommit; EvVectorSave] /\
  vector_index_after_commit
    (m_log (state_after (run removal_of_sample_folder) state_with_sample_folder)) = false.
Proof. split_and!; vm_compute; reflexivity. Qed.

(** ** C10: removal of a folder that has a single association *)

(** C10. When the folder of [path] is in the store, the collections table
    holds exactly one row for it and no statement fails,
    [removeFolder collection path] deletes the chunks, the full-text rows and
    the documents of the folder and the folder row, whatever [collection] is:
    the rows of the folder are counted before the delete of the association,
    so the cascade also runs when that delete removes nothing. *)
Theorem removeFolder_single_association (collection path : string) (folder_id : Z)
    (s : Database) :
  m_faults s = [] ->
  folder_of_path path (m_db s) = Some folder_id ->
  List.length (collections_of_folder folder_id (m_db s)) = 1%nat ->
  exists s',
    removeFolder collection path s = Some (tt, s') /\
    folder_deleted folder_id (m_db s) (m_db s') /\
    (forall c, In c (chunks (m_db s')) ->
       in_list (c_document_id c) (documents_of_folder folder_id (m_db s)) = false) /\
    (forall d, In d (documents (m_db s')) -> d_folder_id d <> folder_id) /\
    (forall f, In f (folders (m_db s')) -> bindId (f_id f) <> folder_id) /\
    collections (m_db s')
      = List.filter (fun k => negb (is_collection collection folder_id k))
          (collections (m_db s)).
Proof.
  intros H Hf Hn.
  destruct (removeFolderInternal_last_referent collection folder_id path s H)
    as (s' & E & D & _); [lia|].
  exists s'. rewrite (removeFolder_found _ _ _ _ H Hf).
  assert (Hdel : folder_deleted folder_id (m_db s) (m_db s')).
  { cbv zeta in D. rewrite D. apply folder_deleted_purge. }
  destruct (folder_deleted_nothing_left _ _ _ Hdel) as (Hc & _ & Hd & Hfo).
  split_and!; try assumption.
  cbv zeta in D. rewrite D.
  destruct (purge_tables
              (documents_of_folder folder_id (delete_collection collection folder_id (m_db s)))
              (delete_collection collection folder_id (m_db s))) as (_ & _ & _ & _ & Hk).
  unfold delete_folder, with_folders. cbn [collections]. rewrite Hk. reflexivity.
Qed.

Definition state_with_folder_of_Y : Database :=
  sample_state (sample_db ["Y"]) sample_index [] [] 10.

Lemma removeFolder_single_association_witness :
  m_faults state_with_folder_of_Y = [] /\
  folder_of_path "/a" (m_db state_with_folder_of_Y) = Some 1 /\
  List.length (collections_of_folder 1 (m_db state_with_folder_of_Y)) = 1%nat /\
  exists s',
    removeFolder "X" "/a" state_with_folder_of_Y = Some (tt, s') /\
    folder_deleted 1 (m_db state_with_folder_of_Y) (m_db s') /\
    (forall c, In c (chunks (m_db s')) ->
       in_list (c_document_id c) (documents_of_folder 1 (m_db state_with_folder_of_Y)) = false) /\
    (forall d, In d (documents (m_db s')) -> d_folder_id d <> 1) /\
    (forall f, In f (folders (m_db s')) -> bindId (f_id f) <> 1) /\
    collections (m_db s')
      = List.filter (fun k => negb (is_collection "X" 1 k))
          (collections (m_db state_with_folder_of_Y)).
Proof.
  split_and!; [reflexivity|reflexivity|reflexivity|].
  apply (removeFolder_single_association "X" "/a" 1 state_with_folder_of_Y);
    reflexivity.
Defined.

(** ** C5: removal of a folder from a collection *)





(** The two scenarios of the spec: with the collections [C] and [D] on the
    folder, the removal of [C] takes the association only; the removal of
    the last collection takes the folder with it. *)
Definition state_with_folder_of_C_and_D : Database :=
  sample_state (sample_db ["C"; "D"]) sample_index [queued "/a/a.txt"] [] 10.

Example removal_of_one_of_two_collections :
  m_db (state_after (removeFolder "C" "/a") state_with_folder_of_C_and_D)
    = sample_db ["D"] /\
  m_docsToScan (state_after (removeFolder "C" "/a") state_with_folder_of_C_and_D)
    = m_docsToScan state_with_folder_of_C_and_D /\
  m_log (state_after (removeFolder "C" "/a") state_with_folder_of_C_and_D)
    = [EvTransaction; EvCommit].
Proof. split_and!; vm_compute; reflexivity. Qed.

Example removal_of_both_collections :
  m_db (state_after (removeFolder "C" "/a";; removeFolder "D" "/a")
          state_with_folder_of_C_and_D)
    = mkDB [] [] [] [] [] 1 /\
  m_docsToScan (state_after (removeFolder "C" "/a";; removeFolder "D" "/a")
                  state_with_folder_of_C_and_D) = ∅ /\
  m_log (state_after (removeFolder "C" "/a";; removeFolder "D" "/a")
           state_with_folder_of_C_and_D)
    = [EvTransaction; EvCommit; EvTransaction; EvVectorRemove 1; EvCommit; EvVectorSave].
Proof. split_and!; vm_compute; reflexivity. Qed.


(** ** C8: a document whose modification time is the stored one *)

Lemma scheduleNext_run folder_id countForFolder s :
  exists s', scheduleNext folder_id countForFolder s = Some (tt, s') /\
    m_db s' = m_db s /\ m_faults s' = m_faults s.
Proof.
  unfold scheduleNext, guiCollectionItem, sendChunkList, updateGuiForCollectionItem,
    mbind, M_bind, gets, modify.
  destruct (countForFolder =? 0); eexists; (split; [reflexivity|]); simpl; auto.
Qed.

Lemma dequeueDocument_db s info s0 :
  dequeueDocument s = Some (info, s0) -> m_db s0 = m_db s /\ m_faults s0 = m_faults s.
Proof.
  unfold dequeueDocument, mbind, M_bind, gets, modify, undefined, mret, M_ret.
  destruct (firstKey (m_docsToScan s)) as [key|]; [|discriminate].
  destruct (m_docsToScan s !! key) as [[|result queue]|]; try discriminate.
  intros [= _ <-]. auto.
Qed.

Lemma selectDocument_run path id time s :
  exists r s1,
    selectDocument path id time s = Some (r, s1) /\ m_db s1 = m_db s /\
    (r = (false, id, time) /\ head (m_faults s) = Some true \/
     r = match List.filter (fun d => String.eqb (d_document_path d) path)
                 (documents (m_db s)) with
         | [] => (true, id, time)
         | d :: _ => (true, bindId (d_id d), d_document_time d)
         end).
Proof.
  unfold selectDocument, exec, mbind, M_bind, gets, mret, M_ret.
  destruct (m_faults s) as [|[|] faults]; simpl.
  - destruct (List.filter _ _); eexists _, _; (split; [reflexivity|]); auto.
  - eexists _, _. split; [reflexivity|]. auto.
  - destruct (List.filter _ _); eexists _, _; (split; [reflexivity|]); auto.
Qed.

(** C8. The document taken from the queue is not marked as being
    processed, the documents table has a row for its path, and the time
    stored in that row is the modification time of the file: [scanQueue]
    returns and leaves the relational store as it is: no chunk row is
    inserted or deleted, the documents row is unchanged, and no chunk is
    scheduled for removal from the vector index. The result is [true], the
    document is skipped, unless the select of the document itself fails. *)
Theorem scanQueue_skips_unchanged_document (fs : FileSystem) (chunksToRemove : list Z)
    (s s0 : Database) (info : DocumentInfo) (d : documents_row) (others : list documents_row) :
  dequeueDocument s = Some (info, s0) ->
  currentlyProcessing info = false ->
  List.filter
    (fun d => String.eqb (d_document_path d) (canonicalFilePath (stat fs (doc info))))
    (documents (m_db s)) = d :: others ->
  d_document_time d = fileTime (stat fs (doc info)) ->
  exists result s',
    scanQueue fs chunksToRemove s = Some ((result, chunksToRemove), s') /\
    m_db s' = m_db s /\
    (result = false -> head (m_faults s) = Some true).
Proof.
  intros Hq Hp Hrow Htime.
  destruct (dequeueDocument_db _ _ _ Hq) as [Hdb Hfaults].
  unfold scanQueue. rewrite (bind_run _ _ _ _ _ Hq).
  unfold countOfDocuments at 1.
  rewrite (bind_run (gets _) _ s0 _ s0 eq_refl).
  cbv zeta. cbn [doc with_doc currentlyProcessing folder].
  set (count := match m_docsToScan s0 !! folder info with
                | Some q => Z.of_nat (List.length q) | None => 0 end).
  destruct (negb (exists_ (stat fs (doc info))) || negb (isReadable (stat fs (doc info)))).
  { destruct (scheduleNext_run (folder info) count s0) as (s1 & E1 & D1 & _).
    rewrite (bind_run _ _ _ _ _ E1). exists true, s1.
    split; [reflexivity|]. split; [congruence|discriminate]. }
  destruct (selectDocument_run (canonicalFilePath (stat fs (doc info))) (-1) (-1) s0)
    as (r & s1 & E1 & D1 & Hr).
  rewrite (bind_run _ _ _ _ _ E1).
  destruct Hr as [[-> Hfail]| ->].
  - cbn [negb].
    destruct (scheduleNext_run (folder info) count s1) as (s2 & E2 & D2 & _).
    rewrite (bind_run _ _ _ _ _ E2). exists false, s2.
    split; [reflexivity|]. split; [congruence|]. intros _. congruence.
  - rewrite Hdb, Hrow. cbn [negb]. rewrite Hp. cbn [negb andb].
    replace (bindId (d_id d) =? -1) with false by reflexivity. cbn [negb].
    unfold scanQueue_existing. rewrite Htime, Z.eqb_refl.
    destruct (scheduleNext_run (folder info) count s1) as (s2 & E2 & D2 & _).
    cbn [andb].
    erewrite (bind_run _ _ s1); [|rewrite (bind_run _ _ _ _ _ E2); reflexivity].
    exists true, s2. split; [reflexivity|]. split; [congruence|discriminate].
Qed.

Definition unchanged_fs : FileSystem :=
  sample_fs "/a/a.txt" (text_file "/a/a.txt" 1000 "alpha beta").

Definition state_before_rescan : Database :=
  sample_state (sample_db ["C"]) sample_index [queued "/a/a.txt"] [] 10.

Lemma scanQueue_skips_unchanged_document_witness :
  dequeueDocument state_before_rescan
    = Some (queued "/a/a.txt", state_after dequeueDocument state_before_rescan) /\
  currentlyProcessing (queued "/a/a.txt") = false /\
  List.filter
    (fun d => String.eqb (d_document_path d)
                (canonicalFilePath (stat unchanged_fs (doc (queued "/a/a.txt")))))
    (documents (m_db state_before_rescan)) = [mkDocument 1 1 1000 "/a/a.txt"] /\
  d_document_time (mkDocument 1 1 1000 "/a/a.txt")
    = fileTime (stat unchanged_fs (doc (queued "/a/a.txt"))) /\
  exists result s',
    scanQueue unchanged_fs [] state_before_rescan = Some ((result, []), s') /\
    m_db s' = m_db state_before_rescan /\
    (result = false -> head (m_faults state_before_rescan) = Some true).
Proof.
  split_and!; [vm_compute; reflexivity|reflexivity|reflexivity|reflexivity|].
  apply (scanQueue_skips_unchanged_document unchanged_fs [] state_before_rescan
           (state_after dequeueDocument state_before_rescan) (queued "/a/a.txt")
           (mkDocument 1 1 1000 "/a/a.txt") []);
    [vm_compute; reflexivity|reflexivity|reflexivity|reflexivity].
Defined.

(** The whole tick over the unchanged file leaves the store as it is. *)
Example tick_over_unchanged_file :
  m_db (state_after (scanQueueBatch unchanged_fs 5) state_before_rescan)
    = m_db state_before_rescan.
Proof. vm_compute. reflexivity. Qed.

(** ** C9: the results of the embedder *)

Lemma updateChunkHasEmbedding_run chunk_id s :
  exists ok s1,
    updateChunkHasEmbedding chunk_id s = Some (ok, s1) /\
    m_log s1 = m_log s /\ m_embeddings s1 = m_embeddings s /\
    (m_db s1 = m_db s \/ m_db s1 = set_has_embedding chunk_id (m_db s)).
Proof.
  unfold updateChunkHasEmbedding, exec, update_db, modify, mbind, M_bind, mret, M_ret.
  destruct (m_faults s) as [|[|] faults]; simpl; eexists _, _;
    (split; [reflexivity|]); simpl; auto.
Qed.

Lemma set_has_embedding_flags chunk_id db :
  Forall2 (fun c c' => c' = c \/ (c' = flagged c /\ chunk_id = bindId (c_chunk_id c)))
    (chunks db) (chunks (set_has_embedding chunk_id db)).
Proof.
  unfold set_has_embedding, with_chunks. cbn [chunks].
  induction (chunks db) as [|c l IH]; cbn [map]; constructor; [|exact IH].
  destruct (bindId (c_chunk_id c) =? chunk_id) eqn:E; [|left; reflexivity].
  right. split; [reflexivity|]. symmetry. apply Z.eqb_eq, E.
Qed.

Lemma Forall2_same {A : Type} (R : A -> A -> Prop) (l : list A) :
  (forall x, R x x) -> Forall2 R l l.
Proof. intros HR. induction l; constructor; auto. Qed.

Lemma Forall2_compose {A : Type} (R1 R2 R : A -> A -> Prop) (l1 l2 l3 : list A) :
  (forall x y z, R1 x y -> R2 y z -> R x z) ->
  Forall2 R1 l1 l2 -> Forall2 R2 l2 l3 -> Forall2 R l1 l3.
Proof.
  intros HR H12. revert l3. induction H12 as [|x y l1 l2 Hxy _ IH]; intros l3 H23.
  - inversion H23. constructor.
  - inversion H23 as [|y' z l2' l3' Hyz H23']; subst. constructor; eauto.
Qed.

Lemma replay_accepts evs : forall x, e_accepts (replay evs x) = e_accepts x.
Proof.
  induction evs as [|ev evs IH]; intros x; [reflexivity|].
  change (replay (ev :: evs) x) with (replay evs (replay_event ev x)). rewrite IH.
  destruct ev; try reflexivity. simpl. unfold Embeddings_add.
  destruct (e_accepts x v chunk_id); reflexivity.
Qed.

Lemma Embeddings_add_M_run v id s :
  Embeddings_add_M v id s
    = Some (e_accepts (m_embeddings s) v id,
            with_log (fun l => l ++ [EvVectorAdd v id (e_accepts (m_embeddings s) v id)])
              (with_embeddings
                 (replay_event (EvVectorAdd v id (e_accepts (m_embeddings s) v id))) s)).
Proof.
  unfold Embeddings_add_M, mbind, M_bind, gets, emit, modify, mret, M_ret, replay_event,
    Embeddings_add, with_log, with_embeddings.
  destruct (e_accepts (m_embeddings s) v id); reflexivity.
Qed.

Lemma flagged_by_step (s s1 : Database) (e : EmbeddingResult) (rest : list EmbeddingResult)
    (x y z : chunks_row) :
  e_accepts (m_embeddings s1) = e_accepts (m_embeddings s) ->
  (y = x \/ (y = flagged x /\ accepted s e = true /\ er_chunk_id e = bindId (c_chunk_id x))) ->
  flagged_by s1 rest y z ->
  flagged_by s (e :: rest) x z.
Proof.
  intros Hacc Hxy Hyz.
  assert (Hrest : forall e', accepted s1 e' = accepted s e')
    by (intros e'; unfold accepted; rewrite Hacc; reflexivity).
  destruct Hxy as [->|(-> & Ha & Hid)], Hyz as [->|(-> & e' & Hin & Hid' & Ha')].
  - left. reflexivity.
  - right. split; [reflexivity|]. exists e'. rewrite <- Hrest. simpl. auto.
  - right. split; [reflexivity|]. exists e. simpl. auto.
  - right. split; [reflexivity|]. exists e. simpl. auto.
Qed.

Lemma embeddings_loop_run embeddings : forall folder_id s,
  exists folder_id' s',
    embeddings_loop embeddings folder_id s = Some (folder_id', s') /\
    m_log s' = m_log s ++ batch_events s embeddings /\
    m_embeddings s' = replay (batch_events s embeddings) (m_embeddings s) /\
    m_db s' = with_chunks (chunks (m_db s')) (m_db s) /\
    Forall2 (flagged_by s embeddings) (chunks (m_db s)) (chunks (m_db s')).
Proof.
  induction embeddings as [|e rest IH]; intros folder_id s.
  - exists folder_id, s. split; [reflexivity|]. simpl. rewrite app_nil_r.
    split_and!; try reflexivity.
    + destruct (m_db s); reflexivity.
    + apply Forall2_same. intros c. left. reflexivity.
  - cbn [embeddings_loop].
    rewrite (bind_run _ _ _ _ _ (Embeddings_add_M_run (er_embedding e) (er_chunk_id e) s)).
    fold (accepted s e).
    set (ev := EvVectorAdd (er_embedding e) (er_chunk_id e) (accepted s e)).
    set (s1 := with_log (fun l => l ++ [ev]) (with_embeddings (replay_event ev) s)).
    assert (Hstep : exists s2,
      (if accepted s e then updateChunkHasEmbedding (er_chunk_id e);; skip else skip) s1
        = Some (tt, s2) /\
      m_log s2 = m_log s1 /\ m_embeddings s2 = m_embeddings s1 /\
      m_db s2 = with_chunks (chunks (m_db s2)) (m_db s) /\
      Forall2 (fun x y => y = x \/
                 (y = flagged x /\ accepted s e = true /\
                  er_chunk_id e = bindId (c_chunk_id x)))
        (chunks (m_db s)) (chunks (m_db s2))).
    { destruct (accepted s e) eqn:Ha.
      - destruct (updateChunkHasEmbedding_run (er_chunk_id e) s1)
          as (ok & s2 & E2 & L2 & X2 & D2).
        exists s2. rewrite (bind_run _ _ _ _ _ E2). split; [reflexivity|].
        split_and!; try assumption.
        + destruct D2 as [-> | ->]; simpl; destruct (m_db s); reflexivity.
        + destruct D2 as [-> | ->].
          * apply Forall2_same. intros c. left. reflexivity.
          * eapply Forall2_impl; [apply set_has_embedding_flags|].
            intros x y [->|[-> ->]]; auto.
      - exists s1. split; [reflexivity|]. split_and!; try reflexivity.
        + simpl. destruct (m_db s); reflexivity.
        + apply Forall2_same. intros c. left. reflexivity. }
    destruct Hstep as (s2 & E2 & L2 & X2 & D2 & F2).
    rewrite (bind_run _ _ _ _ _ E2).
    destruct (IH (er_folder_id e) s2) as (fid & s' & E & L & X & D & F).
    assert (Hacc : e_accepts (m_embeddings s2) = e_accepts (m_embeddings s)).
    { rewrite X2. subst s1. simpl. unfold Embeddings_add.
      destruct (e_accepts _ _ _); reflexivity. }
    assert (Hev : batch_events s2 rest = batch_events s rest).
    { unfold batch_events, accepted. rewrite Hacc. reflexivity. }
    exists fid, s'. split; [exact E|]. rewrite Hev in L, X.
    split_and!.
    + rewrite L, L2. subst s1. simpl. rewrite <- app_assoc. reflexivity.
    + rewrite X, X2. subst s1. reflexivity.
    + rewrite D, D2. reflexivity.
    + eapply Forall2_compose; [|exact F2|exact F].
      intros x y z Hxy Hyz. exact (flagged_by_step s s2 e rest x y z Hacc Hxy Hyz).
Qed.

Lemma selectFileForChunk_run chunk_id file s :
  exists r s1,
    selectFileForChunk chunk_id file s = Some (r, s1) /\
    m_db s1 = m_db s /\ m_log s1 = m_log s /\ m_embeddings s1 = m_embeddings s.
Proof.
  unfold selectFileForChunk, exec, mbind, M_bind, gets, mret, M_ret.
  destruct (m_faults s) as [|[|] faults]; simpl;
    try destruct (List.filter _ _); eexists _, _; (split; [reflexivity|]); auto.
Qed.

Lemma replay_saved evs x :
  e_file (replay (evs ++ [EvVectorSave]) x) = e_index (replay (evs ++ [EvVectorSave]) x).
Proof. rewrite replay_app. reflexivity. Qed.

Lemma flag_added_accepts (s s1 : Database) (embeddings : list EmbeddingResult) (c : chunks_row) :
  e_accepts (m_embeddings s1) = e_accepts (m_embeddings s) ->
  flag_added s1 embeddings c = flag_added s embeddings c.
Proof. intros H. unfold flag_added, accepted. rewrite H. reflexivity. Qed.

Lemma flag_added_cons (s : Database) (e : EmbeddingResult) (rest : list EmbeddingResult)
    (c : chunks_row) :
  flag_added s rest
    (if (bindId (c_chunk_id c) =? er_chunk_id e) && accepted s e then flagged c else c)
  = flag_added s (e :: rest) c.
Proof.
  unfold flag_added. cbn [existsb].
  destruct ((bindId (c_chunk_id c) =? er_chunk_id e) && accepted s e);
    cbn [orb flagged c_chunk_id]; [|reflexivity].
  destruct (existsb _ rest); reflexivity.
Qed.

(** The loop over the batch when no statement fails. *)
Lemma embeddings_loop_ok embeddings : forall folder_id s,
  m_faults s = [] ->
  exists folder_id' s',
    embeddings_loop embeddings folder_id s = Some (folder_id', s') /\
    m_faults s' = [] /\
    chunks (m_db s') = map (flag_added s embeddings) (chunks (m_db s)).
Proof.
  induction embeddings as [|e rest IH]; intros folder_id s Hf.
  - exists folder_id, s. split; [reflexivity|]. split; [exact Hf|].
    unfold flag_added. cbn [existsb]. rewrite map_id. reflexivity.
  - cbn [embeddings_loop].
    rewrite (bind_run _ _ _ _ _ (Embeddings_add_M_run (er_embedding e) (er_chunk_id e) s)).
    fold (accepted s e).
    set (ev := EvVectorAdd (er_embedding e) (er_chunk_id e) (accepted s e)).
    set (s1 := with_log (fun l => l ++ [ev]) (with_embeddings (replay_event ev) s)).
    assert (Hacc1 : e_accepts (m_embeddings s1) = e_accepts (m_embeddings s)).
    { subst s1 ev. simpl. unfold Embeddings_add. destruct (e_accepts _ _ _); reflexivity. }
    assert (Hstep : exists s2,
      (if accepted s e then updateChunkHasEmbedding (er_chunk_id e);; skip else skip) s1
        = Some (tt, s2) /\
      m_faults s2 = [] /\
      e_accepts (m_embeddings s2) = e_accepts (m_embeddings s) /\
      chunks (m_db s2)
        = map (fun c => if (bindId (c_chunk_id c) =? er_chunk_id e) && accepted s e
                        then flagged c else c) (chunks (m_db s))).
    { destruct (accepted s e) eqn:Ha.
      - exists (with_db (set_has_embedding (er_chunk_id e)) s1). split_and!.
        + unfold updateChunkHasEmbedding. run_ok Hf.
        + exact Hf.
        + exact Hacc1.
        + cbn. apply map_ext. intros c. rewrite andb_true_r. reflexivity.
      - exists s1. split_and!; [reflexivity|exact Hf|exact Hacc1|].
        cbn. rewrite <- (map_id (chunks (m_db s))) at 1. apply map_ext. intros c.
        rewrite andb_false_r. reflexivity. }
    destruct Hstep as (s2 & E2 & Hf2 & Hacc2 & C2).
    rewrite (bind_run _ _ _ _ _ E2).
    destruct (IH (er_folder_id e) s2 Hf2) as (fid & s' & E & Hf' & C).
    exists fid, s'. split; [exact E|]. split; [exact Hf'|].
    rewrite C, C2, map_map. apply map_ext. intros c.
    rewrite (flag_added_accepts s s2 rest _ Hacc2). apply flag_added_cons.
Qed.

(** C9, as amended. An empty batch of results is ignored: the state stays
    as it is, nothing is added and nothing is saved. For every non-empty
    batch of results of the embedder (and whatever statements fail): the
    vector of each result is offered to the vector index under its chunk
    id, in the order of the batch, and the index is saved after the last
    one; in the relational store only rows of [chunks] change, and a row
    changes only by getting [has_embedding = 1], which takes a result of
    the batch for its chunk id that the index accepted: a chunk whose adds
    all failed keeps the [has_embedding] it had. When no statement fails,
    the rows that get [has_embedding = 1] are exactly those for whose chunk
    id the index accepted a result of the batch. *)
Theorem handleEmbeddingsGenerated_flags_added_chunks (embeddings : list EmbeddingResult)
    (s : Database) :
  exists s',
    handleEmbeddingsGenerated embeddings s = Some (tt, s') /\
    match embeddings with
    | [] => s' = s
    | _ :: _ =>
        m_log s' = m_log s ++ batch_events s embeddings ++ [EvVectorSave] /\
        m_embeddings s'
          = replay (batch_events s embeddings ++ [EvVectorSave]) (m_embeddings s) /\
        e_file (m_embeddings s') = e_index (m_embeddings s') /\
        m_db s' = with_chunks (chunks (m_db s')) (m_db s) /\
        Forall2 (flagged_by s embeddings) (chunks (m_db s)) (chunks (m_db s')) /\
        (m_faults s = [] ->
         chunks (m_db s') = map (flag_added s embeddings) (chunks (m_db s)))
    end.
Proof.
  destruct embeddings as [|first rest]; [exists s; split; reflexivity|].
  unfold handleEmbeddingsGenerated.
  destruct (embeddings_loop_run (first :: rest) 0 s) as (fid & s1 & E1 & L1 & X1 & D1 & F1).
  rewrite (bind_run _ _ _ _ _ E1).
  destruct (selectFileForChunk_run (er_chunk_id first) EmptyString s1)
    as ([ok file] & s2 & E2 & D2 & L2 & X2).
  rewrite (bind_run _ _ _ _ _ E2).
  unfold guiCollectionItem, updateGuiForCollectionItem, Embeddings_save_M, emit, modify,
    gets, mbind, M_bind.
  eexists. split; [reflexivity|]. cbn [m_log m_embeddings m_db with_log with_embeddings
    with_collectionMap].
  rewrite L2, X2, D2, L1, X1.
  assert (Hx : Embeddings_save (replay (batch_events s (first :: rest)) (m_embeddings s))
               = replay (batch_events s (first :: rest) ++ [EvVectorSave]) (m_embeddings s))
    by (rewrite replay_app; reflexivity).
  rewrite Hx, <- app_assoc.
  split_and!; try reflexivity; try assumption.
  - apply replay_saved.
  - intros Hf. destruct (embeddings_loop_ok (first :: rest) 0 s Hf) as (fid' & s1' & E1' & _ & C).
    rewrite E1 in E1'. injection E1' as _ <-. exact C.
Qed.

(** One chunk waits for its vector, and the index takes no vector for a
    chunk id above 1. *)
Definition picky_index : Embeddings :=
  mkEmbeddings ∅ ∅ (fun _ id => id <=? 1).

Definition pending_db : DB :=
  mkDB [mkFolder 1 "/a"]
       [mkDocument 1 1 1000 "/a/a.txt"]
       [mkChunk 1 1 "alpha beta" "a.txt" "" "" "" "" (-1) (-1) (-1) 2 0 0;
        mkChunk 1 2 "gamma delta" "a.txt" "" "" "" "" (-1) (-1) (-1) 2 0 0]
       [mkChunkFts 1 1 "alpha beta" "a.txt" "" "" "" "" (-1) (-1) (-1);
        mkChunkFts 1 2 "gamma delta" "a.txt" "" "" "" "" (-1) (-1) (-1)]
       [mkCollection "C" 1 0 "model" false]
       2.

Definition state_with_pending_chunks : Database :=
  sample_state pending_db picky_index [] [] 10.

Definition sample_batch : list EmbeddingResult :=
  [mkEmbeddingResult 1 1 [7]; mkEmbeddingResult 1 2 [8]].

Lemma handleEmbeddingsGenerated_flags_added_chunks_witness :
  m_faults state_with_pending_chunks = [] /\
  map (flag_added state_with_pending_chunks sample_batch)
      (chunks (m_db state_with_pending_chunks))
    = [mkChunk 1 1 "alpha beta" "a.txt" "" "" "" "" (-1) (-1) (-1) 2 0 1;
       mkChunk 1 2 "gamma delta" "a.txt" "" "" "" "" (-1) (-1) (-1) 2 0 0] /\
  exists s',
    handleEmbeddingsGenerated sample_batch state_with_pending_chunks = Some (tt, s') /\
    m_log s' = m_log state_with_pending_chunks
                 ++ batch_events state_with_pending_chunks sample_batch ++ [EvVectorSave] /\
    m_embeddings s'
      = replay (batch_events state_with_pending_chunks sample_batch ++ [EvVectorSave])
          (m_embeddings state_with_pending_chunks) /\
    e_file (m_embeddings s') = e_index (m_embeddings s') /\
    m_db s' = with_chunks (chunks (m_db s')) (m_db state_with_pending_chunks) /\
    Forall2 (flagged_by state_with_pending_chunks sample_batch)
      (chunks (m_db state_with_pending_chunks)) (chunks (m_db s')) /\
    (m_faults state_with_pending_chunks = [] ->
     chunks (m_db s')
       = map (flag_added state_with_pending_chunks sample_batch)
           (chunks (m_db state_with_pending_chunks))).
Proof.
  split; [reflexivity|]. split; [vm_compute; reflexivity|].
  exact (handleEmbeddingsGenerated_flags_added_chunks sample_batch state_with_pending_chunks).
Defined.

(** On the sample batch: the first vector is added and its chunk flagged,
    the second is refused and its chunk keeps [has_embedding = 0]. *)
Example sample_batch_outcome :
  map (fun c => (c_chunk_id c, c_has_embedding c))
      (chunks (m_db (state_after (handleEmbeddingsGenerated sample_batch)
                       state_with_pending_chunks)))
    = [(1%positive, 1); (2%positive, 0)] /\
  m_log (state_after (handleEmbeddingsGenerated sample_batch) state_with_pending_chunks)
    = [EvVectorAdd [7] 1 true; EvVectorAdd [8] 2 false; EvVectorSave].
Proof. split; vm_compute; reflexivity. Qed.

(** C9, as stated, fails on the empty batch: [handleEmbeddingsGenerated]
    returns at once and leaves the state as it is, so the batch is processed
    and no save of the vector index follows, while the sample batch is
    followed by one. The state is one between two slots: the file of its
    index holds what the index holds. *)
Lemma empty_batch_is_not_saved :
  handleEmbeddingsGenerated [] state_with_pending_chunks
    = Some (tt, state_with_pending_chunks) /\
  e_file (m_embeddings state_with_pending_chunks)
    = e_index (m_embeddings state_with_pending_chunks) /\
  m_log (state_after (handleEmbeddingsGenerated []) state_with_pending_chunks) = [] /\
  saves_the_index
    (m_log (state_after (handleEmbeddingsGenerated []) state_with_pending_chunks)) = false /\
  saves_the_index
    (m_log (state_after (handleEmbeddingsGenerated sample_batch) state_with_pending_chunks))
    = true.
Proof. split_and!; vm_compute; reflexivity. Qed.

(** ** C1: a chunk insert that fails during a scan tick *)

Definition state_before_first_scan (path : string) (faults : list bool) (chunkSize : Z)
    : Database :=
  sample_state (fresh_db ["C"]) empty_index [queued path] faults chunkSize.

(** The third statement of the tick fails: after the select and the insert
    of the document, the insert of the chunk. *)
Definition chunk_insert_fails : list bool := [false; false; true].

(** C1 does not hold on the code. The file [a.txt] is new and the insert of
    its only chunk fails. [chunkStream] goes on, [scanQueue] reports success
    and the tick commits: the store has the document row and no chunk, and
    the chunk went to the embedder under the id 0. The claim has the tick
    rolled back and the store as it was. *)
Theorem failed_chunk_insert_is_committed :
  scanQueueBatch unchanged_fs 5 (state_before_first_scan "/a/a.txt" chunk_insert_fails 100)
    = Some (tt, state_after (scanQueueBatch unchanged_fs 5)
                  (state_before_first_scan "/a/a.txt" chunk_insert_fails 100)) /\
  m_log (state_after (scanQueueBatch unchanged_fs 5)
           (state_before_first_scan "/a/a.txt" chunk_insert_fails 100))
    = [EvTransaction; EvCommit] /\
  documents (m_db (state_before_first_scan "/a/a.txt" chunk_insert_fails 100)) = [] /\
  documents (m_db (state_after (scanQueueBatch unchanged_fs 5)
                     (state_before_first_scan "/a/a.txt" chunk_insert_fails 100)))
    = [mkDocument 1 1 1000 "/a/a.txt"] /\
  chunks (m_db (state_after (scanQueueBatch unchanged_fs 5)
                  (state_before_first_scan "/a/a.txt" chunk_insert_fails 100))) = [] /\
  llm_requests (m_embLLM (state_after (scanQueueBatch unchanged_fs 5)
                            (state_before_first_scan "/a/a.txt" chunk_insert_fails 100)))
    = [[mkEmbeddingChunk 1 0 "alpha beta"]].
Proof. split_and!; vm_compute; reflexivity. Qed.

(** The failures [scanQueue] does report end the tick with a rollback: here
    the insert of the document fails and the store is as before. *)
Example failed_document_insert_is_rolled_back :
  m_log (state_after (scanQueueBatch unchanged_fs 5)
           (state_before_first_scan "/a/a.txt" [false; true] 100))
    = [EvTransaction; EvRollback] /\
  m_db (state_after (scanQueueBatch unchanged_fs 5)
          (state_before_first_scan "/a/a.txt" [false; true] 100))
    = m_db (state_before_first_scan "/a/a.txt" [false; true] 100).
Proof. split; vm_compute; reflexivity. Qed.

(** What holds of a tick: when [scanQueue] reports a failure the tick ends
    with a rollback, and a tick that ends with a rollback leaves the
    relational store as it found it. *)
Lemma rolled_back_tick_restores_store (fs : FileSystem) (budget : nat) (s s' : Database) :
  scanQueueBatch fs budget s = Some (tt, s') ->
  m_log s' = m_log s ++ rolled_back ->
  m_db s' = m_db s.
Proof.
  unfold scanQueueBatch. intros H Hlog.
  apply bind_Some in H as ([] & s1 & H1 & H). injection H1 as <-.
  apply bind_Some in H as ([ok cs] & s2 & H2 & H).
  apply scanQueueBatch_loop_silent in H2. unfold frame in H2. injection H2 as L2 X2 T2.
  simpl in L2, T2.
  destruct ok; cbn [negb] in H.
  - destruct (closes_apply_end cs s2 tt s' H) as (evs & L & _ & [->|[cs' ->]]).
    + destruct (removeAll_run cs s2) as (s3 & E3 & L3 & _).
      rewrite (bind_run _ _ _ _ _ E3) in H.
      apply bind_Some in H as ([] & s4 & H4 & H). injection H4 as <-.
      assert (Hlast : exists l, m_log s' = l ++ [EvCommit] \/ m_log s' = l ++ [EvVectorSave]).
      { destruct cs; injection H as <-; simpl; eauto. }
      destruct Hlast as (l & [Hl|Hl]); rewrite Hlog in Hl; unfold rolled_back in Hl;
        change [EvTransaction; EvRollback] with ([EvTransaction] ++ [EvRollback]) in Hl;
        rewrite app_assoc in Hl; apply app_inj_tail in Hl as [_ Hl]; discriminate.
    + rewrite L, L2, <- app_assoc in Hlog. apply app_inv_head in Hlog.
      injection Hlog as Hlog. unfold apply_removals in Hlog.
      destruct cs' as [|? [|? ?]]; discriminate.
  - unfold rollback, mbind, M_bind, gets in H. rewrite T2 in H.
    injection H as <-. reflexivity.
Qed.

(** ** C3: the chunks of a stream *)

Definition chunks_of_stream (text : string) (chunkSize : Z) : list (string * Z) :=
  map (fun c => (c_chunk_text c, c_words c))
    (chunks (m_db (state_after
       (chunkStream (mkStream text 0) 1 1 "a.txt" "" "" "" "" (-1) 100)
       (state_before_first_scan "/a/a.txt" [] chunkSize)))).

(** The scenario of the spec: two chunks of two words. *)
Example chunks_of_four_words :
  chunks_of_stream "alpha beta gamma delta" 10 = [("alpha beta", 2); ("gamma delta", 2)].
Proof. vm_compute. reflexivity. Qed.

(** C3 does not hold on the code. With white space after the last word the
    stream is not at its end when that word has been read; the next read
    gives an empty word and reaches the end, and a chunk is emitted from the
    empty word buffer: an empty text with zero words. The claim has a chunk
    at the end of the stream only for a word buffer that is not empty. *)
Theorem chunk_of_empty_buffer_at_end_of_stream :
  chunks_of_stream "alpha beta " 10 = [("alpha beta", 2); ("", 0)] /\
  chunks_of_stream " " 10 = [("", 0)].
Proof. split; vm_compute; reflexivity. Qed.

(** *** The fuel of the loop is enough *)

Lemma skipWhiteSpace_length s :
  (String.length (Text.skipWhiteSpace s) <= String.length s)%nat.
Proof.
  induction s as [|c s IH]; simpl; [lia|]. destruct (Text.isSpace c); simpl; lia.
Qed.

Lemma scanToken_length s :
  (String.length (Text.scanToken s).2 <= String.length s)%nat.
Proof.
  induction s as [|c s IH]; simpl; [lia|].
  destruct (Text.isSpace c); simpl; [lia|].
  destruct (Text.scanToken s) as [w r]. simpl in *. lia.
Qed.

(** A read from a stream that is not at its end takes at least one
    character. *)
Lemma readWord_consumes stream :
  Text.atEnd stream = false ->
  (String.length (ts_data (Text.readWord stream).2) < String.length (ts_data stream))%nat.
Proof.
  unfold Text.atEnd, Text.readWord. destruct stream as [data pos]. cbn [ts_data].
  destruct data as [|c data]; [discriminate|]. intros _.
  cbn [Text.skipWhiteSpace]. destruct (Text.isSpace c) eqn:E.
  - pose proof (scanToken_length (Text.skipWhiteSpace data)).
    pose proof (skipWhiteSpace_length data).
    destruct (Text.scanToken (Text.skipWhiteSpace data)) as [w r]. simpl in *. lia.
  - cbn [Text.scanToken]. rewrite E.
    pose proof (scanToken_length data).
    destruct (Text.scanToken data) as [w r]. simpl in *. lia.
Qed.

(** With more fuel than the stream has characters, the loop of
    [chunkStream] ends as the C++ loop does: at the end of the stream, or at
    the cap on the number of chunks. *)
Lemma chunkStream_loop_ends fuel : forall stream folder_id document_id file title author
    subject keywords page maxChunks charCount words chunks addedWords s stream' chunks'
    addedWords' s',
  (String.length (ts_data stream) < fuel)%nat ->
  chunkStream_loop fuel stream folder_id document_id file title author subject keywords
    page maxChunks charCount words chunks addedWords s
    = Some ((stream', chunks', addedWords'), s') ->
  Text.atEnd stream' = true \/ ((maxChunks >? 0) && (chunks' =? maxChunks)) = true.
Proof.
  induction fuel as [|fuel IH]; intros until s'; intros Hfuel H; [lia|].
  cbn [chunkStream_loop] in H.
  destruct (Text.atEnd stream) eqn:Eend.
  - apply ret_Some in H as [[= <- _ _] _]. left. exact Eend.
  - pose proof (readWord_consumes stream Eend) as Hshort.
    destruct (Text.readWord stream) as [word stream1]. cbn [snd] in Hshort.
    apply bind_Some in H as (chunkSize & s1 & _ & H).
    match type of H with
    | (if ?b then _ else _) _ = _ => destruct b
    end.
    + apply bind_Some in H as ([ok chunk_id] & s2 & _ & H).
      apply bind_Some in H as ([] & s3 & _ & H).
      match type of H with
      | (if ?b then _ else _) _ = _ => destruct b eqn:Ecap
      end.
      * apply ret_Some in H as [[= _ <- _] _]. right. exact Ecap.
      * apply IH in H; [exact H|lia].
    + apply IH in H; [exact H|lia].
Qed.

(** ** C4 and C7: the pages of a PDF *)

Definition pdf_fs (pages : list string) : FileSystem :=
  sample_fs "/a/a.pdf" (pdf_file "/a/a.pdf" 1000 2048 (mkPdf pages "T" "A" "S" "K")).

(** C4 does not hold on the code. For a PDF that loads with no page,
    [scanQueue] divides the size of the file by the page count, zero: the
    behaviour of the tick is undefined. The claim has the document skipped
    without error. *)
Theorem zero_page_pdf_is_undefined :
  scanQueue (pdf_fs []) [] (state_before_first_scan "/a/a.pdf" [] 100) = None /\
  scanQueueBatch (pdf_fs []) 5 (state_before_first_scan "/a/a.pdf" [] 100) = None.
Proof. split; vm_compute; reflexivity. Qed.

(** C7 does not hold on the code. The PDF has one page. After its page 0,
    the last one, has been chunked, the document is back at the front of the
    queue with [currentPage = 1]: the test compares the index of the page
    that was processed with the page count. The claim has no re-enqueue
    after the last page. *)
Theorem pdf_is_enqueued_again_after_last_page :
  scanQueue (pdf_fs ["alpha beta"]) [] (state_before_first_scan "/a/a.pdf" [] 100)
    = Some ((true, []),
            state_after (scanQueue (pdf_fs ["alpha beta"]) [])
              (state_before_first_scan "/a/a.pdf" [] 100)) /\
  map c_chunk_text
    (chunks (m_db (state_after (scanQueue (pdf_fs ["alpha beta"]) [])
                     (state_before_first_scan "/a/a.pdf" [] 100))))
    = ["alpha beta"] /\
  map (fun info => (currentPage info, currentlyProcessing info))
    (default [] (m_docsToScan (state_after (scanQueue (pdf_fs ["alpha beta"]) [])
                                 (state_before_first_scan "/a/a.pdf" [] 100)) !! 1))
    = [(1, true)].
Proof. split_and!; vm_compute; reflexivity. Qed.

(** ** C6: the n-gram queries of the sparse retrieval *)

Definition near_alpha_beta : string :=
  "NEAR(" +:+ quoted "alpha" +:+ " " +:+ quoted "beta" +:+ ", 2)".

(** An engine in which exactly the phrase query for [alpha beta] has a
    hit. *)
Definition sample_sqlite (sql match_ : string) : option (list ResultRow) :=
  if String.eqb match_ near_alpha_beta
  then Some [mkRow 1 1000 "alpha beta" "a.txt" "" "" (-1) (-1) (-1)]
  else Some [].

(** Three words: the query of the 3-grams is the only one. *)
Example grams_of_three_words :
  generateGrams "alpha, beta gamma!" 3
    = ["NEAR(" +:+ quoted "alpha" +:+ " " +:+ quoted "beta" +:+ " " +:+ quoted "gamma"
         +:+ ", 3)"].
Proof. vm_compute. reflexivity. Qed.

(** Two words and nothing else: no query is run. *)
Example two_words_run_no_query (sqlite : string -> string -> option (list ResultRow)) :
  selectChunk sqlite ["C"] "alpha beta" 5 = (true, []).
Proof. reflexivity. Qed.

(** C6 does not hold on the code. The query [alpha beta ] has two words, and
    the count [N_WORDS] is 3, for the empty part after the last space; the
    loop runs with N = 3, [generateGrams] clamps N to the two words, the
    2-gram query is run and its rows are the result. The claim has no
    result for a query of fewer than three words. *)
Theorem two_words_and_a_space_run_a_query :
  (forall sqlite : string -> string -> option (list ResultRow),
     selectChunk sqlite ["C"] "alpha beta " 5
       = match sqlite (SELECT_NGRAM_SQL "'C'" "5") near_alpha_beta with
         | None => (false, [])
         | Some rows => (true, rows)
         end) /\
  selectChunk sample_sqlite ["C"] "alpha beta " 5
    = (true, [mkRow 1 1000 "alpha beta" "a.txt" "" "" (-1) (-1) (-1)]).
Proof.
  split.
  - intros sqlite. unfold selectChunk.
    change (Z.to_nat (Z.of_nat (List.length (Text.split "alpha beta ")) - 2)) with 1%nat.
    cbn [selectChunk_loop].
    change (Text.join " OR " (generateGrams "alpha beta " (2 + Z.of_nat 1)))
      with near_alpha_beta.
    change (SELECT_NGRAM_SQL ("'" +:+ Text.join "', '" ["C"] +:+ "'") (Text.number 5))
      with (SELECT_NGRAM_SQL "'C'" "5").
    destruct (sqlite _ _) as [[|r rows]|]; reflexivity.
  - vm_compute. reflexivity.
Qed.

(** * Further properties of the engine *)

(** ** The scan tick as a transaction *)

(** X1. A scan tick that returns ended in one of two ways: rolled back, with the
    relational store and the vector index as they were before the tick and
    no transaction left open; or committed, with the removals from the
    vector index and its save around the commit. *)
Theorem scan_tick_commits_or_restores (fs : FileSystem) (budget : nat) (s s' : Database) :
  scanQueueBatch fs budget s = Some (tt, s') ->
  m_txn s' = None /\
  ((m_log s' = m_log s ++ rolled_back /\ m_db s' = m_db s /\
    m_embeddings s' = m_embeddings s) \/
   (exists cs, m_log s' = m_log s ++ committed cs /\
               m_embeddings s' = replay (apply_removals cs) (m_embeddings s))).
Proof.
  unfold scanQueueBatch. intros H.
  apply bind_Some in H as ([] & s1 & H1 & H). injection H1 as <-.
  apply bind_Some in H as ([ok cs] & s2 & H2 & H).
  apply scanQueueBatch_loop_silent in H2. unfold frame in H2. injection H2 as L2 X2 T2.
  simpl in L2, X2, T2.
  destruct ok; cbn [negb] in H.
  - rewrite (bind_run _ _ _ _ _ (removeAll_ok cs s2)) in H.
    apply bind_Some in H as ([] & s4 & H4 & H). injection H4 as <-.
    split.
    + destruct cs; injection H as <-; reflexivity.
    + right. exists cs. unfold committed, apply_removals.
      destruct cs as [|c cs']; injection H as <-; simpl; rewrite L2, X2, <- ?app_assoc;
        simpl; rewrite ?replay_app; split; reflexivity.
  - unfold rollback, mbind, M_bind, gets in H. rewrite T2 in H.
    injection H as <-. simpl. split; [reflexivity|]. left.
    rewrite L2, X2, <- app_assoc. split_and!; reflexivity.
Qed.

Lemma scan_tick_commits_or_restores_witness :
  scanQueueBatch unchanged_fs 5 (state_before_first_scan "/a/a.txt" [false; true] 100)
    = Some (tt, state_after (scanQueueBatch unchanged_fs 5)
                  (state_before_first_scan "/a/a.txt" [false; true] 100)) /\
  m_txn (state_after (scanQueueBatch unchanged_fs 5)
           (state_before_first_scan "/a/a.txt" [false; true] 100)) = None /\
  ((m_log (state_after (scanQueueBatch unchanged_fs 5)
             (state_before_first_scan "/a/a.txt" [false; true] 100))
      = m_log (state_before_first_scan "/a/a.txt" [false; true] 100) ++ rolled_back /\
    m_db (state_after (scanQueueBatch unchanged_fs 5)
            (state_before_first_scan "/a/a.txt" [false; true] 100))
      = m_db (state_before_first_scan "/a/a.txt" [false; true] 100) /\
    m_embeddings (state_after (scanQueueBatch unchanged_fs 5)
                    (state_before_first_scan "/a/a.txt" [false; true] 100))
      = m_embeddings (state_before_first_scan "/a/a.txt" [false; true] 100)) \/
   (exists cs,
      m_log (state_after (scanQueueBatch unchanged_fs 5)
               (state_before_first_scan "/a/a.txt" [false; true] 100))
        = m_log (state_before_first_scan "/a/a.txt" [false; true] 100) ++ committed cs /\
      m_embeddings (state_after (scanQueueBatch unchanged_fs 5)
                      (state_before_first_scan "/a/a.txt" [false; true] 100))
        = replay (apply_removals cs)
            (m_embeddings (state_before_first_scan "/a/a.txt" [false; true] 100)))).
Proof.
  split; [vm_compute; reflexivity|].
  apply (scan_tick_commits_or_restores unchanged_fs 5
           (state_before_first_scan "/a/a.txt" [false; true] 100)).
  vm_compute. reflexivity.
Defined.

(** ** The ids of the chunks *)

Lemma max_rowid_bound (ids : list positive) (p : positive) :
  In p ids -> (Npos p <= max_rowid ids)%N.
Proof.
  induction ids as [|q ids IH]; intros H; [destruct H|].
  simpl. destruct H as [->|H]; [lia|]. specialize (IH H). lia.
Qed.

Lemma addChunk_ok document_id chunk_text file title author subject keywords page from to
    words chunk_id s :
  m_faults s = [] ->
  addChunk document_id chunk_text file title author subject keywords page from to words
    chunk_id s
    = Some ((true, bindId (next_chunk_id (m_db s))),
            with_db (fun db =>
                       insert_chunk_fts document_id (bindId (next_chunk_id db)) chunk_text
                         file title author subject keywords page from to
                         (insert_chunk document_id chunk_text file title author subject
                            keywords page from to words db)) s).
Proof. intros H. unfold addChunk. run_ok H. Qed.

(** X2. When no statement fails, a call of [addChunk] stores the chunk and
    its full-text row under an id that is larger than the id of every chunk
    in the table at the time of the call and larger than the counter of the
    table at that time, and moves the counter to it. *)
Theorem addChunk_id_is_fresh (document_id : Z)
    (chunk_text file title author subject keywords : string) (page from to words : Z)
    (s : Database) :
  m_faults s = [] ->
  exists id s',
    addChunk document_id chunk_text file title author subject keywords page from to words
      0 s = Some ((true, bindId id), s') /\
    (forall c, In c (chunks (m_db s)) -> (c_chunk_id c < id)%positive) /\
    (seq_chunks (m_db s) < Npos id)%N /\
    seq_chunks (m_db s') = Npos id /\
    chunks (m_db s')
      = chunks (m_db s) ++
        [mkChunk document_id id chunk_text file title author subject keywords
                 page from to words 0 0] /\
    chunks_fts (m_db s')
      = chunks_fts (m_db s) ++
        [mkChunkFts document_id (bindId id) chunk_text file title author subject keywords
                    page from to].
Proof.
  intros H. eexists _, _. split; [apply addChunk_ok, H|].
  split_and!; try reflexivity.
  - intros c Hc. unfold next_chunk_id.
    pose proof (max_rowid_bound _ _ (in_map c_chunk_id _ _ Hc)). lia.
  - unfold next_chunk_id. lia.
Qed.

Lemma addChunk_id_is_fresh_witness :
  m_faults state_with_sample_folder = [] /\
  exists id s',
    addChunk 1 "gamma" "a.txt" "" "" "" "" (-1) (-1) (-1) 1 0 state_with_sample_folder
      = Some ((true, bindId id), s') /\
    (forall c, In c (chunks (m_db state_with_sample_folder)) ->
       (c_chunk_id c < id)%positive) /\
    (seq_chunks (m_db state_with_sample_folder) < Npos id)%N /\
    seq_chunks (m_db s') = Npos id /\
    chunks (m_db s')
      = chunks (m_db state_with_sample_folder) ++
        [mkChunk 1 id "gamma" "a.txt" "" "" "" "" (-1) (-1) (-1) 1 0 0] /\
    chunks_fts (m_db s')
      = chunks_fts (m_db state_with_sample_folder) ++
        [mkChunkFts 1 (bindId id) "gamma" "a.txt" "" "" "" "" (-1) (-1) (-1)].
Proof.
  split; [reflexivity|].
  apply (addChunk_id_is_fresh 1 "gamma" "a.txt" "" "" "" "" (-1) (-1) (-1) 1
           state_with_sample_folder).
  reflexivity.
Defined.

(** ** Invariants carried through every operation

    The operations of the engine are built from a few parts: the statements
    that write to the store, the three operations on the transaction, the
    three on the vector index, the three on the scan queue, and the changes
    of the simple members. A property of the state that each part keeps is
    kept by every operation. *)

Record kept_by_parts (I : Database -> Prop) : Prop := {
  kp_exec : keeps I exec;
  kp_addChunk : forall document_id chunk_text file title author subject keywords page from
                  to words chunk_id,
    keeps I (addChunk document_id chunk_text file title author subject keywords page from
               to words chunk_id);
  kp_removeChunksByDocumentId : forall document_id,
    keeps I (removeChunksByDocumentId document_id);
  kp_updateChunkHasEmbedding : forall chunk_id, keeps I (updateChunkHasEmbedding chunk_id);
  kp_addCollection : forall name folder_id last_update model force,
    keeps I (addCollection name folder_id last_update model force);
  kp_removeCollection : forall name folder_id, keeps I (removeCollection name folder_id);
  kp_addFolderToDB : forall path id, keeps I (addFolderToDB path id);
  kp_removeFolderFromDB : forall id, keeps I (removeFolderFromDB id);
  kp_addDocument : forall folder_id time path id,
    keeps I (addDocument folder_id time path id);
  kp_removeDocument : forall id, keeps I (removeDocument id);
  kp_updateDocument : forall id time, keeps I (updateDocument id time);
  kp_transaction : keeps I transaction;
  kp_commit : keeps I commit;
  kp_rollback : keeps I rollback;
  kp_Embeddings_add : forall v id, keeps I (Embeddings_add_M v id);
  kp_Embeddings_remove : forall id, keeps I (Embeddings_remove_M id);
  kp_Embeddings_save : keeps I Embeddings_save_M;
  kp_dequeueDocument : keeps I dequeueDocument;
  kp_enqueueDocumentInternal : forall info prepend,
    keeps I (enqueueDocumentInternal info prepend);
  kp_removeFolderFromDocumentQueue : forall folder_id,
    keeps I (removeFolderFromDocumentQueue folder_id);
  kp_collectionMap : forall f, keeps I (modify (with_collectionMap f));
  kp_sendChunkList : keeps I sendChunkList;
  kp_appendChunk : forall chunk, keeps I (appendChunk chunk);
  kp_batches : forall n l,
    keeps I (modify (with_embLLM (fun e =>
               mkEmbeddingLLM (llm_model e) (llm_requests e ++ batches n l))));
  kp_watcher : forall f, keeps I (modify (with_watcher f));
  kp_scanTimer : forall v, keeps I (modify (with_scanTimer v))
}.

#[global] Hint Resolve kp_exec kp_addChunk kp_removeChunksByDocumentId
  kp_updateChunkHasEmbedding kp_addCollection kp_removeCollection kp_addFolderToDB
  kp_removeFolderFromDB kp_addDocument kp_removeDocument kp_updateDocument kp_transaction
  kp_commit kp_rollback kp_Embeddings_add kp_Embeddings_remove kp_Embeddings_save
  kp_dequeueDocument kp_enqueueDocumentInternal kp_removeFolderFromDocumentQueue
  kp_collectionMap kp_sendChunkList kp_appendChunk kp_batches kp_watcher kp_scanTimer : keeps.

Lemma selectFileForChunk_keeps I (HI : kept_by_parts I) chunk_id file :
  keeps I (selectFileForChunk chunk_id file).
Proof. unfold selectFileForChunk. keeps_tac. Qed.
#[global] Hint Resolve selectFileForChunk_keeps : keeps.

Lemma selectAllUncompletedChunks_keeps I (HI : kept_by_parts I) folder_id l :
  keeps I (selectAllUncompletedChunks folder_id l).
Proof. unfold selectAllUncompletedChunks. keeps_tac. Qed.
#[global] Hint Resolve selectAllUncompletedChunks_keeps : keeps.

Lemma selectCountChunks_keeps I (HI : kept_by_parts I) folder_id count :
  keeps I (selectCountChunks folder_id count).
Proof. unfold selectCountChunks. keeps_tac. Qed.
#[global] Hint Resolve selectCountChunks_keeps : keeps.

Lemma selectFoldersFromCollection_keeps I (HI : kept_by_parts I) name l :
  keeps I (selectFoldersFromCollection name l).
Proof. unfold selectFoldersFromCollection. keeps_tac. Qed.
#[global] Hint Resolve selectFoldersFromCollection_keeps : keeps.

Lemma selectCollectionsFromFolder_keeps I (HI : kept_by_parts I) folder_id l :
  keeps I (selectCollectionsFromFolder folder_id l).
Proof. unfold selectCollectionsFromFolder. keeps_tac. Qed.
#[global] Hint Resolve selectCollectionsFromFolder_keeps : keeps.

Lemma selectAllFromCollections_keeps I (HI : kept_by_parts I) l :
  keeps I (selectAllFromCollections l).
Proof. unfold selectAllFromCollections. keeps_tac. Qed.
#[global] Hint Resolve selectAllFromCollections_keeps : keeps.

Lemma selectFolder_keeps I (HI : kept_by_parts I) path id :
  keeps I (selectFolder path id).
Proof. unfold selectFolder. keeps_tac. Qed.
#[global] Hint Resolve selectFolder_keeps : keeps.

Lemma selectDocument_keeps I (HI : kept_by_parts I) path id time :
  keeps I (selectDocument path id time).
Proof. unfold selectDocument. keeps_tac. Qed.
#[global] Hint Resolve selectDocument_keeps : keeps.

Lemma selectDocuments_keeps I (HI : kept_by_parts I) folder_id l :
  keeps I (selectDocuments folder_id l).
Proof. unfold selectDocuments. keeps_tac. Qed.
#[global] Hint Resolve selectDocuments_keeps : keeps.

Lemma selectCountStatistics_keeps I (HI : kept_by_parts I) folder_id total :
  keeps I (selectCountStatistics folder_id total).
Proof. unfold selectCountStatistics. keeps_tac. Qed.
#[global] Hint Resolve selectCountStatistics_keeps : keeps.

Lemma getChunksByDocumentId_keeps I (HI : kept_by_parts I) document_id l :
  keeps I (getChunksByDocumentId document_id l).
Proof. unfold getChunksByDocumentId. keeps_tac. Qed.
#[global] Hint Resolve getChunksByDocumentId_keeps : keeps.

Lemma guiCollectionItem_keeps I (HI : kept_by_parts I) folder_id :
  keeps I (guiCollectionItem folder_id).
Proof. unfold guiCollectionItem. keeps_tac. Qed.
#[global] Hint Resolve guiCollectionItem_keeps : keeps.

Lemma updateGuiForCollectionItem_keeps I (HI : kept_by_parts I) item :
  keeps I (updateGuiForCollectionItem item).
Proof. unfold updateGuiForCollectionItem. keeps_tac. Qed.
#[global] Hint Resolve updateGuiForCollectionItem_keeps : keeps.

Lemma addGuiCollectionItem_keeps I (HI : kept_by_parts I) item :
  keeps I (addGuiCollectionItem item).
Proof. unfold addGuiCollectionItem. keeps_tac. Qed.
#[global] Hint Resolve addGuiCollectionItem_keeps : keeps.

Lemma removeGuiFolderById_keeps I (HI : kept_by_parts I) folder_id :
  keeps I (removeGuiFolderById folder_id).
Proof. unfold removeGuiFolderById. keeps_tac. Qed.
#[global] Hint Resolve removeGuiFolderById_keeps : keeps.

Lemma guiCollectionListUpdated_keeps I (HI : kept_by_parts I) l :
  keeps I (guiCollectionListUpdated l).
Proof. unfold guiCollectionListUpdated. keeps_tac. Qed.
#[global] Hint Resolve guiCollectionListUpdated_keeps : keeps.

Lemma scheduleNext_keeps I (HI : kept_by_parts I) folder_id countForFolder :
  keeps I (scheduleNext folder_id countForFolder).
Proof. unfold scheduleNext. keeps_tac. Qed.
#[global] Hint Resolve scheduleNext_keeps : keeps.

Lemma chunkStream_loop_keeps I (HI : kept_by_parts I) fuel :
  forall stream folder_id document_id file title author subject keywords page maxChunks
      charCount words chunks addedWords, keeps I (chunkStream_loop fuel stream folder_id
      document_id file title author subject keywords page maxChunks charCount words chunks
      addedWords).
Proof. induction fuel as [|? IH]; intros; simpl; keeps_tac; try apply IH. Qed.
#[global] Hint Resolve chunkStream_loop_keeps : keeps.

Lemma chunkStream_keeps I (HI : kept_by_parts I) stream folder_id document_id file title
    author subject keywords page maxChunks :
  keeps I (chunkStream stream folder_id document_id file title author subject keywords page
      maxChunks).
Proof. unfold chunkStream. keeps_tac. Qed.
#[global] Hint Resolve chunkStream_keeps : keeps.

Lemma embeddings_loop_keeps I (HI : kept_by_parts I) embeddings :
  forall folder_id, keeps I (embeddings_loop embeddings folder_id).
Proof. induction embeddings as [|? ? IH]; intros; simpl; keeps_tac; try apply IH. Qed.
#[global] Hint Resolve embeddings_loop_keeps : keeps.

Lemma handleEmbeddingsGenerated_keeps I (HI : kept_by_parts I) embeddings :
  keeps I (handleEmbeddingsGenerated embeddings).
Proof. unfold handleEmbeddingsGenerated. keeps_tac. Qed.
#[global] Hint Resolve handleEmbeddingsGenerated_keeps : keeps.

Lemma handleErrorGenerated_keeps I (HI : kept_by_parts I) folder_id error :
  keeps I (handleErrorGenerated folder_id error).
Proof. unfold handleErrorGenerated. keeps_tac. Qed.
#[global] Hint Resolve handleErrorGenerated_keeps : keeps.

Lemma countOfDocuments_keeps I (HI : kept_by_parts I) folder_id :
  keeps I (countOfDocuments folder_id).
Proof. unfold countOfDocuments. keeps_tac. Qed.
#[global] Hint Resolve countOfDocuments_keeps : keeps.

Lemma countOfBytes_keeps I (HI : kept_by_parts I) folder_id :
  keeps I (countOfBytes folder_id).
Proof. unfold countOfBytes. keeps_tac. Qed.
#[global] Hint Resolve countOfBytes_keeps : keeps.

Lemma enqueueAll_keeps I (HI : kept_by_parts I) infos :
  keeps I (enqueueAll infos).
Proof. induction infos as [|? ? IH]; intros; simpl; keeps_tac; try apply IH. Qed.
#[global] Hint Resolve enqueueAll_keeps : keeps.

Lemma enqueueDocuments_keeps I (HI : kept_by_parts I) folder_id infos :
  keeps I (enqueueDocuments folder_id infos).
Proof. unfold enqueueDocuments. keeps_tac. Qed.
#[global] Hint Resolve enqueueDocuments_keeps : keeps.

Lemma statistics_loop_keeps I (HI : kept_by_parts I) collections :
  keeps I (statistics_loop collections).
Proof. induction collections as [|? ? IH]; intros; simpl; keeps_tac; try apply IH. Qed.
#[global] Hint Resolve statistics_loop_keeps : keeps.

Lemma updateCollectionStatistics_keeps I (HI : kept_by_parts I) :
  keeps I (updateCollectionStatistics).
Proof. unfold updateCollectionStatistics. keeps_tac. Qed.
#[global] Hint Resolve updateCollectionStatistics_keeps : keeps.

Lemma scanQueue_existing_keeps I (HI : kept_by_parts I) folder_id countForFolder existing_id
    existing_time document_time chunksToRemove :
  keeps I (scanQueue_existing folder_id countForFolder existing_id existing_time document_time
      chunksToRemove).
Proof. unfold scanQueue_existing. keeps_tac. Qed.
#[global] Hint Resolve scanQueue_existing_keeps : keeps.

Lemma scanQueue_document_keeps I (HI : kept_by_parts I) folder_id countForFolder existing_id
    document_time document_path processing :
  keeps I (scanQueue_document folder_id countForFolder existing_id document_time document_path
      processing).
Proof. unfold scanQueue_document. keeps_tac. Qed.
#[global] Hint Resolve scanQueue_document_keeps : keeps.

Lemma scanQueue_pdf_keeps I (HI : kept_by_parts I) fs info folder_id countForFolder document_id :
  keeps I (scanQueue_pdf fs info folder_id countForFolder document_id).
Proof. unfold scanQueue_pdf. keeps_tac. Qed.
#[global] Hint Resolve scanQueue_pdf_keeps : keeps.

Lemma scanQueue_text_keeps I (HI : kept_by_parts I) fs info folder_id countForFolder
    document_id document_path :
  keeps I (scanQueue_text fs info folder_id countForFolder document_id document_path).
Proof. unfold scanQueue_text. keeps_tac. Qed.
#[global] Hint Resolve scanQueue_text_keeps : keeps.

Lemma scanQueue_keeps I (HI : kept_by_parts I) fs chunksToRemove :
  keeps I (scanQueue fs chunksToRemove).
Proof. unfold scanQueue. keeps_tac. Qed.
#[global] Hint Resolve scanQueue_keeps : keeps.

Lemma scanQueueBatch_loop_keeps I (HI : kept_by_parts I) fs budget :
  forall chunksToRemove, keeps I (scanQueueBatch_loop fs budget chunksToRemove).
Proof. induction budget as [|? IH]; intros; simpl; keeps_tac; try apply IH. Qed.
#[global] Hint Resolve scanQueueBatch_loop_keeps : keeps.

Lemma removeAll_keeps I (HI : kept_by_parts I) cs :
  keeps I (removeAll cs).
Proof. induction cs as [|? ? IH]; intros; simpl; keeps_tac; try apply IH. Qed.
#[global] Hint Resolve removeAll_keeps : keeps.

Lemma scanQueueBatch_keeps I (HI : kept_by_parts I) fs budget :
  keeps I (scanQueueBatch fs budget).
Proof. unfold scanQueueBatch. keeps_tac. Qed.
#[global] Hint Resolve scanQueueBatch_keeps : keeps.

Lemma addFolderToWatch_keeps I (HI : kept_by_parts I) path :
  keeps I (addFolderToWatch path).
Proof. unfold addFolderToWatch. keeps_tac. Qed.
#[global] Hint Resolve addFolderToWatch_keeps : keeps.

Lemma removeFolderFromWatch_keeps I (HI : kept_by_parts I) path :
  keeps I (removeFolderFromWatch path).
Proof. unfold removeFolderFromWatch. keeps_tac. Qed.
#[global] Hint Resolve removeFolderFromWatch_keeps : keeps.

Lemma scanDocuments_loop_keeps I (HI : kept_by_parts I) fs folder_id entries :
  forall infos, keeps I (scanDocuments_loop fs folder_id entries infos).
Proof. induction entries as [|? ? IH]; intros; simpl; keeps_tac; try apply IH. Qed.
#[global] Hint Resolve scanDocuments_loop_keeps : keeps.

Lemma scanDocuments_keeps I (HI : kept_by_parts I) fs folder_id folder_path :
  keeps I (scanDocuments fs folder_id folder_path).
Proof. unfold scanDocuments. keeps_tac. Qed.
#[global] Hint Resolve scanDocuments_keeps : keeps.

Lemma scheduleUncompletedEmbeddings_keeps I (HI : kept_by_parts I) folder_id :
  keeps I (scheduleUncompletedEmbeddings folder_id).
Proof. unfold scheduleUncompletedEmbeddings. keeps_tac. Qed.
#[global] Hint Resolve scheduleUncompletedEmbeddings_keeps : keeps.

Lemma checkAndAddFolderToDB_keeps I (HI : kept_by_parts I) fs path :
  keeps I (checkAndAddFolderToDB fs path).
Proof. unfold checkAndAddFolderToDB. keeps_tac. Qed.
#[global] Hint Resolve checkAndAddFolderToDB_keeps : keeps.

Lemma addFolder_keeps I (HI : kept_by_parts I) fs collection path :
  keeps I (addFolder fs collection path).
Proof. unfold addFolder. keeps_tac. Qed.
#[global] Hint Resolve addFolder_keeps : keeps.

Lemma addCurrentFolders_loop_keeps I (HI : kept_by_parts I) fs collections :
  keeps I (addCurrentFolders_loop fs collections).
Proof. induction collections as [|? ? IH]; intros; simpl; keeps_tac; try apply IH. Qed.
#[global] Hint Resolve addCurrentFolders_loop_keeps : keeps.

Lemma addCurrentFolders_keeps I (HI : kept_by_parts I) fs :
  keeps I (addCurrentFolders fs).
Proof. unfold addCurrentFolders. keeps_tac. Qed.
#[global] Hint Resolve addCurrentFolders_keeps : keeps.

Lemma removeFolder_loop_keeps I (HI : kept_by_parts I) documentIds :
  forall chunksToRemove, keeps I (removeFolder_loop documentIds chunksToRemove).
Proof. induction documentIds as [|? ? IH]; intros; simpl; keeps_tac; try apply IH. Qed.
#[global] Hint Resolve removeFolder_loop_keeps : keeps.

Lemma removeFolderInternal_keeps I (HI : kept_by_parts I) collection folder_id path :
  keeps I (removeFolderInternal collection folder_id path).
Proof. unfold removeFolderInternal. keeps_tac. Qed.
#[global] Hint Resolve removeFolderInternal_keeps : keeps.

Lemma removeFolder_keeps I (HI : kept_by_parts I) collection path :
  keeps I (removeFolder collection path).
Proof. unfold removeFolder. keeps_tac. Qed.
#[global] Hint Resolve removeFolder_keeps : keeps.

Lemma cleanDB_folders_keeps I (HI : kept_by_parts I) fs collections :
  keeps I (cleanDB_folders fs collections).
Proof. induction collections as [|? ? IH]; intros; simpl; keeps_tac; try apply IH. Qed.
#[global] Hint Resolve cleanDB_folders_keeps : keeps.

Lemma cleanDB_loop_keeps I (HI : kept_by_parts I) fs rows :
  forall chunksToRemove, keeps I (cleanDB_loop fs rows chunksToRemove).
Proof. induction rows as [|? ? IH]; intros; simpl; keeps_tac; try apply IH. Qed.
#[global] Hint Resolve cleanDB_loop_keeps : keeps.

Lemma cleanDB_keeps I (HI : kept_by_parts I) fs :
  keeps I (cleanDB fs).
Proof. unfold cleanDB. keeps_tac. Qed.
#[global] Hint Resolve cleanDB_keeps : keeps.

Lemma changeChunkSize_loop_keeps I (HI : kept_by_parts I) rows :
  forall chunksToRemove, keeps I (changeChunkSize_loop rows chunksToRemove).
Proof. induction rows as [|? ? IH]; intros; simpl; keeps_tac; try apply IH. Qed.
#[global] Hint Resolve changeChunkSize_loop_keeps : keeps.

Lemma changeChunkSize_keeps I (HI : kept_by_parts I)
    (Hsize : forall v, keeps I (modify (with_chunkSize v))) fs chunkSize :
  keeps I (changeChunkSize fs chunkSize).
Proof. unfold changeChunkSize. keeps_tac. Qed.

Lemma directoryChanged_keeps I (HI : kept_by_parts I) fs path :
  keeps I (directoryChanged fs path).
Proof. unfold directoryChanged. keeps_tac. Qed.
#[global] Hint Resolve directoryChanged_keeps : keeps.

Lemma updateCollectionForceIndexing_keeps I (HI : kept_by_parts I)
    (Hforce : forall name, keeps I (update_db (clear_force_indexing name))) name :
  keeps I (updateCollectionForceIndexing name).
Proof. unfold updateCollectionForceIndexing. keeps_tac. Qed.

Lemma addForcedCollection_keeps I (HI : kept_by_parts I) fs item :
  keeps I (addForcedCollection fs item).
Proof. unfold addForcedCollection. keeps_tac. Qed.

Lemma forceIndexing_loop_keeps I (HI : kept_by_parts I) fs collection folders :
  keeps I (forceIndexing_loop fs collection folders).
Proof. induction folders as [|? ? IH]; simpl; keeps_tac; try apply IH. Qed.

Lemma Database_forceIndexing_keeps I (HI : kept_by_parts I)
    (Hforce : forall name, keeps I (update_db (clear_force_indexing name))) fs collection :
  keeps I (Database_forceIndexing fs collection).
Proof.
  unfold Database_forceIndexing. keeps_tac;
    first [ apply updateCollectionForceIndexing_keeps; assumption
          | apply forceIndexing_loop_keeps; assumption ].
Qed.

Lemma call_keeps I (HI : kept_by_parts I)
    (Hforce : forall name, keeps I (update_db (clear_force_indexing name)))
    (Hsize : forall v, keeps I (modify (with_chunkSize v))) fs c :
  keeps I (call fs c).
Proof.
  destruct c; simpl; auto with keeps.
  - apply Database_forceIndexing_keeps; assumption.
  - apply changeChunkSize_keeps; assumption.
Qed.

Lemma calls_keeps I (HI : kept_by_parts I)
    (Hforce : forall name, keeps I (update_db (clear_force_indexing name)))
    (Hsize : forall v, keeps I (modify (with_chunkSize v))) fs cs :
  keeps I (calls fs cs).
Proof.
  induction cs as [|c cs IH]; simpl; keeps_tac;
    first [apply call_keeps; assumption | apply IH].
Qed.

(** ** The full-text table mirrors the chunks *)

Lemma keeps_run {A : Type} (I : Database -> Prop) (m : M A) :
  (forall s, I s -> exists a s', m s = Some (a, s') /\ I s') -> keeps I m.
Proof.
  intros H s a s' E Hs. destruct (H s Hs) as (a' & s'' & E' & Hs').
  rewrite E in E'. injection E' as <- <-. exact Hs'.
Qed.

Lemma fts_kept_exec : keeps fts_kept exec.
Proof.
  apply keeps_run. intros s Hs. exists true, s. split; [|exact Hs].
  apply exec_ok, Hs.
Qed.

Lemma fts_kept_update (f : DB -> DB) :
  (forall db, fts_mirrors db -> fts_mirrors (f db)) -> keeps fts_kept (update_db f).
Proof.
  intros Hf s a s' E (H1 & H2 & H3). inversion E; subst.
  split_and!; [exact H1 | apply Hf, H2 | exact H3].
Qed.

Lemma fts_of_flagged c : fts_of (flagged c) = fts_of c.
Proof. reflexivity. Qed.

Lemma fts_mirrors_delete document_id db :
  fts_mirrors db -> fts_mirrors (delete_chunks_fts document_id (delete_chunks document_id db)).
Proof.
  unfold fts_mirrors. destruct db as [fo do ch ft co sq]. simpl. intros ->.
  induction ch as [|c ch IH]; [reflexivity|].
  simpl. destruct (negb (c_document_id c =? document_id)); simpl; rewrite IH; reflexivity.
Qed.

Lemma fts_mirrors_flag chunk_id db : fts_mirrors db -> fts_mirrors (set_has_embedding chunk_id db).
Proof.
  unfold fts_mirrors, set_has_embedding, with_chunks. destruct db as [fo do ch ft co sq].
  cbn [chunks chunks_fts]. intros ->.
  rewrite map_map. apply map_ext. intros c.
  destruct (bindId (c_chunk_id c) =? chunk_id); reflexivity.
Qed.

Lemma fts_mirrors_insert document_id chunk_text file title author subject keywords page from
    to words db :
  fts_mirrors db ->
  fts_mirrors
    (insert_chunk_fts document_id (bindId (next_chunk_id db)) chunk_text file title author
       subject keywords page from to
       (insert_chunk document_id chunk_text file title author subject keywords page from to
          words db)).
Proof.
  unfold fts_mirrors. destruct db as [fo do ch ft co sq]. simpl. intros ->.
  rewrite map_app. reflexivity.
Qed.

Lemma fts_kept_parts : kept_by_parts fts_kept.
Proof.
  assert (Hexec := fts_kept_exec).
  assert (Hframe : forall f : DB -> DB,
             (forall db, chunks (f db) = chunks db) ->
             (forall db, chunks_fts (f db) = chunks_fts db) ->
             keeps fts_kept (update_db f)).
  { intros f Hc Ht. apply fts_kept_update. unfold fts_mirrors. intros db H.
    rewrite Hc, Ht. exact H. }
  split; intros; try solve [keeps_tac].
  - apply keeps_run. intros s Hs. eexists _, _. split; [apply addChunk_ok, Hs|].
    destruct Hs as (H1 & H2 & H3). split_and!; [exact H1 | | exact H3].
    apply fts_mirrors_insert, H2.
  - apply keeps_run. intros s Hs. eexists _, _.
    split; [apply removeChunksByDocumentId_ok, Hs|].
    destruct Hs as (H1 & H2 & H3). split_and!; [exact H1 | | exact H3].
    apply fts_mirrors_delete, H2.
  - unfold updateChunkHasEmbedding. keeps_tac.
    apply fts_kept_update, fts_mirrors_flag.
  - intros s a s' E (H1 & H2 & H3). inversion E; subst.
    split_and!; [exact H1 | exact H2 |]. intros d [= <-]. exact H2.
  - intros s a s' E (H1 & H2 & H3). inversion E; subst.
    split_and!; [exact H1 | exact H2 | intros d [=]].
  - intros s a s' E (H1 & H2 & H3). unfold rollback, mbind, M_bind, gets in E.
    cbn in E. destruct (m_txn s) as [d|] eqn:Et; cbn in E; inversion E; subst.
    + split_and!; [exact H1 | apply H3; reflexivity | intros ? [=]].
    + split_and!; [exact H1 | exact H2 | intros ? [=]].
Qed.

(** X3. When no statement fails, every slot leaves the full-text table the
    mirror of the chunks: the rows of [chunks_fts] are the rows of [chunks]
    without the word and token counts and the embedding flag, in the same
    order. An insert of a chunk adds to both tables, a removal of the chunks
    of a document takes from both, and flagging a chunk changes no mirrored
    column. *)
Theorem full_text_table_mirrors_chunks (fs : FileSystem) (cs : list slot) (s s' : Database) :
  m_faults s = [] ->
  m_txn s = None ->
  fts_mirrors (m_db s) ->
  calls fs cs s = Some (tt, s') ->
  fts_mirrors (m_db s').
Proof.
  intros Hf Ht Hm E.
  assert (Hs : fts_kept s).
  { split_and!; [exact Hf | exact Hm |]. intros d Hd. rewrite Ht in Hd. discriminate. }
  assert (Hforce : forall name, keeps fts_kept (update_db (clear_force_indexing name))).
  { intros name. apply fts_kept_update. unfold fts_mirrors. intros db H. exact H. }
  assert (Hsize : forall v, keeps fts_kept (modify (with_chunkSize v))).
  { intros v. apply keeps_modify. intros ? ?. assumption. }
  destruct (calls_keeps fts_kept fts_kept_parts Hforce Hsize fs cs s tt s' E Hs) as (_ & H & _).
  exact H.
Qed.

Lemma full_text_table_mirrors_chunks_witness :
  m_faults (state_before_first_scan "/a/a.txt" [] 100) = [] /\
  m_txn (state_before_first_scan "/a/a.txt" [] 100) = None /\
  fts_mirrors (m_db (state_before_first_scan "/a/a.txt" [] 100)) /\
  calls unchanged_fs [ScanQueueBatch 5] (state_before_first_scan "/a/a.txt" [] 100)
    = Some (tt, state_after (calls unchanged_fs [ScanQueueBatch 5])
                  (state_before_first_scan "/a/a.txt" [] 100)) /\
  chunks (m_db (state_after (calls unchanged_fs [ScanQueueBatch 5])
                  (state_before_first_scan "/a/a.txt" [] 100)))
    = [mkChunk 1 1 "alpha beta" "a.txt" "" "" "" "" (-1) (-1) (-1) 2 0 0] /\
  fts_mirrors (m_db (state_after (calls unchanged_fs [ScanQueueBatch 5])
                       (state_before_first_scan "/a/a.txt" [] 100))).
Proof.
  split_and!.
  - reflexivity.
  - reflexivity.
  - reflexivity.
  - vm_compute. reflexivity.
  - vm_compute. reflexivity.
  - apply (full_text_table_mirrors_chunks unchanged_fs [ScanQueueBatch 5]
             (state_before_first_scan "/a/a.txt" [] 100)).
    + reflexivity.
    + reflexivity.
    + reflexivity.
    + vm_compute. reflexivity.
Defined.

(** ** The scan queue holds no empty queue *)

Lemma queues_nonempty_parts : kept_by_parts queues_nonempty.
Proof.
  assert (Hexec : keeps queues_nonempty exec).
  { intros s a s' E Hs. unfold exec in E.
    destruct (m_faults s); inversion E; subst; exact Hs. }
  assert (Hdb : forall f, keeps queues_nonempty (update_db f)).
  { intros f. apply keeps_modify. intros ? ?. assumption. }
  split; intros; try solve [keeps_tac].
  - (* dequeueDocument *)
    intros s a s' E Hs. unfold dequeueDocument, mbind, M_bind, gets in E. cbn in E.
    destruct (firstKey (m_docsToScan s)) as [key|]; [|discriminate].
    destruct (m_docsToScan s !! key) as [[|result queue]|] eqn:Ek; try discriminate.
    inversion E; subst. intros k q. cbn.
    destruct queue as [|d queue].
    + rewrite lookup_delete_Some. intros [_ H]. exact (Hs _ _ H).
    + rewrite lookup_insert_Some. intros [[_ <-]|[_ H]]; [discriminate | exact (Hs _ _ H)].
  - (* enqueueDocumentInternal *)
    intros s a s' E Hs. inversion E; subst. intros k q. cbn.
    rewrite lookup_insert_Some. intros [[_ <-]|[_ H]]; [|exact (Hs _ _ H)].
    destruct prepend; [discriminate|].
    destruct (default [] (m_docsToScan s !! folder info)); discriminate.
  - (* removeFolderFromDocumentQueue *)
    unfold removeFolderFromDocumentQueue. keeps_tac.
    intros s ? s' E Hs. inversion E; subst. intros k q. cbn.
    rewrite lookup_delete_Some. intros [_ H]. exact (Hs _ _ H).
Qed.

(** X4. No slot leaves an empty queue in [m_docsToScan], whatever statements
    fail: [enqueueDocumentInternal] puts a document into the queue it
    touches, [dequeueDocument] takes the folder out of the map when it took
    its last document, and [removeFolderFromDocumentQueue] takes the folder
    out with its whole queue. *)
Theorem scan_queue_holds_no_empty_queue (fs : FileSystem) (cs : list slot)
    (s s' : Database) :
  queues_nonempty s ->
  calls fs cs s = Some (tt, s') ->
  queues_nonempty s'.
Proof.
  intros Hs E.
  assert (Hforce : forall name,
             keeps queues_nonempty (update_db (clear_force_indexing name))).
  { intros name. apply keeps_modify. intros ? ?. assumption. }
  assert (Hsize : forall v, keeps queues_nonempty (modify (with_chunkSize v))).
  { intros v. apply keeps_modify. intros ? ?. assumption. }
  exact (calls_keeps queues_nonempty queues_nonempty_parts Hforce Hsize fs cs s tt s' E Hs).
Qed.

Lemma scan_queue_holds_no_empty_queue_witness :
  queues_nonempty (state_before_first_scan "/a/a.txt" [] 100) /\
  calls unchanged_fs [ScanQueueBatch 5] (state_before_first_scan "/a/a.txt" [] 100)
    = Some (tt, state_after (calls unchanged_fs [ScanQueueBatch 5])
                  (state_before_first_scan "/a/a.txt" [] 100)) /\
  queues_nonempty (state_after (calls unchanged_fs [ScanQueueBatch 5])
                     (state_before_first_scan "/a/a.txt" [] 100)).
Proof.
  assert (H : queues_nonempty (state_before_first_scan "/a/a.txt" [] 100)).
  { intros key queue. unfold state_before_first_scan, sample_state. cbn [m_docsToScan].
    intros [_ <-]%lookup_singleton_Some. discriminate. }
  split_and!.
  - exact H.
  - vm_compute. reflexivity.
  - apply (scan_queue_holds_no_empty_queue unchanged_fs [ScanQueueBatch 5]
             (state_before_first_scan "/a/a.txt" [] 100)).
    + exact H.
    + vm_compute. reflexivity.
Defined.

(** ** [dequeueDocument] *)

Lemma firstKey_fold (l : list Z) :
  match foldr (fun k acc => Some (match acc with None => k | Some a => Z.min k a end))
              None l with
  | None => l = []
  | Some key => In key l /\ forall k, In k l -> key <= k
  end.
Proof.
  induction l as [|x l IH]; [reflexivity|].
  simpl. destruct (foldr _ None l) as [a|].
  - destruct IH as [Ha Hmin]. split.
    + destruct (Z.min_spec x a) as [[_ ->]|[_ ->]]; [left; reflexivity | right; exact Ha].
    + intros k [<-|Hk]; [lia|]. specialize (Hmin k Hk). lia.
  - subst l. split; [left; reflexivity|]. intros k [<-|[]]. lia.
Qed.

Lemma firstKey_spec (m : gmap Z (list DocumentInfo)) :
  match firstKey m with
  | None => m = ∅
  | Some key => is_Some (m !! key) /\ forall k, is_Some (m !! k) -> key <= k
  end.
Proof.
  unfold firstKey. pose proof (firstKey_fold (map_to_list m).*1) as H.
  destruct (foldr _ None (map_to_list m).*1) as [key|].
  - destruct H as [Hin Hmin]. split.
    + apply list_elem_of_In, list_elem_of_fmap in Hin as ([k q] & -> & Hq).
      apply elem_of_map_to_list in Hq. exists q. exact Hq.
    + intros k [q Hq]. apply Hmin, list_elem_of_In, list_elem_of_fmap.
      exists (k, q). split; [reflexivity|]. apply elem_of_map_to_list, Hq.
  - apply fmap_nil_inv in H. apply map_to_list_empty_iff, H.
Qed.

Lemma dequeueDocument_run (s : Database) :
  queues_nonempty s ->
  m_docsToScan s <> ∅ ->
  exists key info rest,
    m_docsToScan s !! key = Some (info :: rest) /\
    (forall k, is_Some (m_docsToScan s !! k) -> key <= k) /\
    dequeueDocument s
      = Some (info, with_docsToScan (fun m => match rest with
                                              | [] => delete key m
                                              | _ => <[key := rest]> m
                                              end) s).
Proof.
  intros Hs Hne. pose proof (firstKey_spec (m_docsToScan s)) as H.
  destruct (firstKey (m_docsToScan s)) as [key|] eqn:Ek; [|contradiction].
  destruct H as [[q Hq] Hmin].
  destruct q as [|info rest]; [destruct (Hs _ _ Hq); reflexivity|].
  exists key, info, rest. split_and!; [exact Hq | exact Hmin |].
  unfold dequeueDocument, mbind, M_bind, gets. cbn. rewrite Ek, Hq. reflexivity.
Qed.

(** X5. On a scan queue that is not empty and holds no empty queue,
    [dequeueDocument] is defined: it returns the first document of the queue
    of the smallest folder id, and leaves the rest of that queue, or takes
    the folder out of the map when nothing is left. Its two assertions,
    compiled out in a release build, hold. *)
Theorem dequeueDocument_takes_first_document (s : Database) :
  queues_nonempty s ->
  m_docsToScan s <> ∅ ->
  exists key info rest,
    m_docsToScan s !! key = Some (info :: rest) /\
    (forall k, is_Some (m_docsToScan s !! k) -> key <= k) /\
    dequeueDocument s
      = Some (info, with_docsToScan (fun m => match rest with
                                              | [] => delete key m
                                              | _ => <[key := rest]> m
                                              end) s).
Proof. exact (dequeueDocument_run s). Qed.

Lemma dequeueDocument_takes_first_document_witness :
  queues_nonempty state_before_rescan /\
  m_docsToScan state_before_rescan <> ∅ /\
  exists key info rest,
    m_docsToScan state_before_rescan !! key = Some (info :: rest) /\
    (forall k, is_Some (m_docsToScan state_before_rescan !! k) -> key <= k) /\
    dequeueDocument state_before_rescan
      = Some (info, with_docsToScan (fun m => match rest with
                                              | [] => delete key m
                                              | _ => <[key := rest]> m
                                              end) state_before_rescan).
Proof.
  assert (H : queues_nonempty state_before_rescan).
  { intros key queue. unfold state_before_rescan, sample_state. cbn [m_docsToScan].
    intros [_ <-]%lookup_singleton_Some. discriminate. }
  assert (Hne : m_docsToScan state_before_rescan <> ∅).
  { unfold state_before_rescan, sample_state. cbn [m_docsToScan].
    apply insert_non_empty. }
  split_and!; [exact H | exact Hne |].
  exact (dequeueDocument_takes_first_document state_before_rescan H Hne).
Defined.

(** ** The batches for the embedder *)

Lemma batches_sizes (fuel : nat) (l : list EmbeddingChunk) :
  Forall (fun batch => batch <> [] /\ Z.of_nat (List.length batch) <= s_batchSize)
         (batches fuel l).
Proof.
  revert l. induction fuel as [|fuel IH]; intros [|c l]; simpl; try constructor.
  - split; [discriminate|].
    change (c :: firstn 99 l) with (firstn 100 (c :: l)).
    rewrite length_firstn. unfold s_batchSize. lia.
  - apply IH.
Qed.

Lemma batches_concat (fuel : nat) (l : list EmbeddingChunk) :
  (List.length l <= fuel)%nat -> List.concat (batches fuel l) = l.
Proof.
  revert l. induction fuel as [|fuel IH]; intros [|c l] H; try reflexivity.
  - simpl in H. lia.
  - change (batches (S fuel) (c :: l))
      with (firstn 100 (c :: l) :: batches fuel (skipn 100 (c :: l))).
    rewrite concat_cons, IH, firstn_skipn; [reflexivity|].
    rewrite length_skipn. simpl in H |- *. lia.
Qed.

Lemma batch_sizes_kept_parts : kept_by_parts batch_sizes_kept.
Proof.
  assert (Hexec : keeps batch_sizes_kept exec).
  { intros s a s' E Hs. unfold exec in E.
    destruct (m_faults s); inversion E; subst; exact Hs. }
  assert (Hdb : forall f, keeps batch_sizes_kept (update_db f)).
  { intros f. apply keeps_modify. intros ? ?. assumption. }
  assert (Hsend : keeps batch_sizes_kept sendChunkList).
  { intros s a s' E [H1 H2]. inversion E; subst. split.
    - unfold s_batchSize. simpl. lia.
    - cbn. apply Forall_app. split; [exact H2|]. constructor; [lia | constructor]. }
  split; intros; try solve [keeps_tac].
  - (* appendChunk *)
    intros s a s' E [H1 H2]. unfold appendChunk, mbind, M_bind, gets, modify in E.
    cbn in E.
    destruct (Z.of_nat (List.length (m_chunkList s ++ [chunk])) >=? s_batchSize) eqn:Efull.
    + inversion E; subst. split.
      * unfold s_batchSize. simpl. lia.
      * cbn. apply Forall_app. split; [exact H2|]. constructor; [|constructor].
        rewrite length_app in *. simpl in *. lia.
    + inversion E; subst. split; [|exact H2].
      cbn. rewrite Z.geb_leb in Efull. apply Z.leb_gt in Efull. exact Efull.
  - (* the batches of scheduleUncompletedEmbeddings *)
    apply keeps_modify. intros s [H1 H2]. split; [exact H1|].
    cbn. apply Forall_app. split; [exact H2|].
    eapply Forall_impl; [apply batches_sizes|]. intros b [_ Hb]. exact Hb.
Qed.

(** X6. The embedder is never handed more than [s_batchSize] chunks at once, and
    between two slots the buffer holds fewer than [s_batchSize] chunks,
    whatever statements fail. *)
Theorem batches_hold_at_most_batchSize_chunks (fs : FileSystem) (cs : list slot)
    (s s' : Database) :
  batch_sizes_kept s ->
  calls fs cs s = Some (tt, s') ->
  batch_sizes_kept s'.
Proof.
  intros Hs E.
  assert (Hforce : forall name,
             keeps batch_sizes_kept (update_db (clear_force_indexing name))).
  { intros name. apply keeps_modify. intros ? ?. assumption. }
  assert (Hsize : forall v, keeps batch_sizes_kept (modify (with_chunkSize v))).
  { intros v. apply keeps_modify. intros ? ?. assumption. }
  exact (calls_keeps batch_sizes_kept batch_sizes_kept_parts Hforce Hsize fs cs s tt s' E Hs).
Qed.

Lemma batches_hold_at_most_batchSize_chunks_witness :
  batch_sizes_kept (state_before_first_scan "/a/a.txt" [] 100) /\
  calls unchanged_fs [ScanQueueBatch 5] (state_before_first_scan "/a/a.txt" [] 100)
    = Some (tt, state_after (calls unchanged_fs [ScanQueueBatch 5])
                  (state_before_first_scan "/a/a.txt" [] 100)) /\
  llm_requests (m_embLLM (state_after (calls unchanged_fs [ScanQueueBatch 5])
                            (state_before_first_scan "/a/a.txt" [] 100)))
    = [[mkEmbeddingChunk 1 1 "alpha beta"]] /\
  batch_sizes_kept (state_after (calls unchanged_fs [ScanQueueBatch 5])
                      (state_before_first_scan "/a/a.txt" [] 100)).
Proof.
  assert (H : batch_sizes_kept (state_before_first_scan "/a/a.txt" [] 100)).
  { split; [reflexivity | constructor]. }
  split_and!.
  - exact H.
  - vm_compute. reflexivity.
  - vm_compute. reflexivity.
  - apply (batches_hold_at_most_batchSize_chunks unchanged_fs [ScanQueueBatch 5]
             (state_before_first_scan "/a/a.txt" [] 100)).
    + exact H.
    + vm_compute. reflexivity.
Defined.

Lemma appendChunk_run (chunk : EmbeddingChunk) (s : Database) :
  exists s',
    appendChunk chunk s = Some (tt, s') /\
    chunks_on_the_way s' = chunks_on_the_way s ++ [chunk] /\
    Z.of_nat (List.length (m_chunkList s')) < s_batchSize /\
    m_db s' = m_db s /\ m_faults s' = m_faults s.
Proof.
  unfold appendChunk, mbind, M_bind, gets, modify. cbn.
  destruct (Z.of_nat (List.length (m_chunkList s ++ [chunk])) >=? s_batchSize) eqn:Efull.
  - eexists. split; [reflexivity|]. unfold chunks_on_the_way. cbn. split_and!.
    + rewrite concat_app. simpl. rewrite !app_nil_r, app_assoc. reflexivity.
    + unfold s_batchSize. lia.
    + reflexivity.
    + reflexivity.
  - eexists. split; [reflexivity|]. unfold chunks_on_the_way. cbn. split_and!.
    + rewrite app_assoc. reflexivity.
    + rewrite Z.geb_leb in Efull. apply Z.leb_gt in Efull. exact Efull.
    + reflexivity.
    + reflexivity.
Qed.

(** X7. [appendChunk] loses no chunk and keeps the order: the chunk comes after
    everything handed to the embedder or waiting in the buffer, whether the
    buffer is flushed or not, and the buffer is left with fewer than
    [s_batchSize] chunks. *)
Theorem appendChunk_keeps_every_chunk (chunk : EmbeddingChunk) (s : Database) :
  exists s',
    appendChunk chunk s = Some (tt, s') /\
    chunks_on_the_way s' = chunks_on_the_way s ++ [chunk] /\
    Z.of_nat (List.length (m_chunkList s')) < s_batchSize /\
    m_db s' = m_db s.
Proof.
  destruct (appendChunk_run chunk s) as (s' & E & H1 & H2 & H3 & _).
  exists s'. auto.
Qed.

(** X8. When no statement fails, [scheduleUncompletedEmbeddings] hands the
    embedder every chunk of the folder that has no embedding yet, once and in
    the order of the select, in batches that are not empty and hold at most
    [s_batchSize] chunks; the store is left as it was. *)
Theorem scheduleUncompletedEmbeddings_sends_every_chunk (folder_id : Z) (s : Database) :
  m_faults s = [] ->
  exists s' sent,
    scheduleUncompletedEmbeddings folder_id s = Some (tt, s') /\
    llm_requests (m_embLLM s') = llm_requests (m_embLLM s) ++ sent /\
    List.concat sent = uncompleted_chunks folder_id (m_db s) /\
    Forall (fun batch => batch <> [] /\ Z.of_nat (List.length batch) <= s_batchSize) sent /\
    m_db s' = m_db s /\ m_chunkList s' = m_chunkList s.
Proof.
  intros H. unfold scheduleUncompletedEmbeddings, selectAllUncompletedChunks,
    selectCountChunks, guiCollectionItem, updateGuiForCollectionItem.
  run_ok H.
  destruct (uncompleted_chunks folder_id (m_db s)) as [|c l] eqn:El.
  - exists s, []. split_and!; try reflexivity; [|constructor].
    rewrite app_nil_r. reflexivity.
  - run_ok H.
    change ((c :: take 99 l) :: batches (List.length l) (drop 99 l))
      with (batches (List.length (c :: l)) (c :: l)).
    eexists _, _. split; [reflexivity|]. cbn [m_embLLM with_embLLM llm_requests
      with_collectionMap m_db m_chunkList].
    split_and!; try reflexivity.
    + apply batches_concat. reflexivity.
    + apply batches_sizes.
Qed.

Lemma scheduleUncompletedEmbeddings_sends_every_chunk_witness :
  m_faults state_with_pending_chunks = [] /\
  uncompleted_chunks 1 (m_db state_with_pending_chunks)
    = [mkEmbeddingChunk 1 1 "alpha beta"; mkEmbeddingChunk 1 2 "gamma delta"] /\
  exists s' sent,
    scheduleUncompletedEmbeddings 1 state_with_pending_chunks = Some (tt, s') /\
    llm_requests (m_embLLM s') = llm_requests (m_embLLM state_with_pending_chunks) ++ sent /\
    List.concat sent = uncompleted_chunks 1 (m_db state_with_pending_chunks) /\
    Forall (fun batch => batch <> [] /\ Z.of_nat (List.length batch) <= s_batchSize) sent /\
    m_db s' = m_db state_with_pending_chunks /\
    m_chunkList s' = m_chunkList state_with_pending_chunks.
Proof.
  split_and!.
  - reflexivity.
  - vm_compute. reflexivity.
  - apply (scheduleUncompletedEmbeddings_sends_every_chunk 1 state_with_pending_chunks).
    reflexivity.
Defined.

(** ** Between two slots: the index is saved and no transaction is open *)

Lemma silent_updateCollectionForceIndexing name : silent (updateCollectionForceIndexing name).
Proof. unfold updateCollectionForceIndexing. silent_tac. Qed.

Lemma silent_forceIndexing_loop fs collection folders :
  silent (forceIndexing_loop fs collection folders).
Proof. induction folders as [|? ? IH]; simpl; silent_tac; try apply IH. Qed.

Lemma silent_Database_forceIndexing fs collection :
  silent (Database_forceIndexing fs collection).
Proof.
  unfold Database_forceIndexing. silent_tac;
    first [apply silent_updateCollectionForceIndexing | apply silent_forceIndexing_loop].
Qed.

Lemma silent_handleErrorGenerated folder_id error :
  silent (handleErrorGenerated folder_id error).
Proof. unfold handleErrorGenerated. silent_tac. Qed.

(** A slot that leaves the transaction and the vector index alone. *)
Lemma keeps_of_silent {A : Type} (I : Database -> Prop) (m : M A) :
  (forall s s', frame s' = frame s -> I s -> I s') -> silent m -> keeps I m.
Proof. intros HI Hm s a s' E. apply HI. exact (Hm s a s' E). Qed.

(** *** No transaction is left open *)

(** Whatever the state before, none is open after. *)
Definition settles {A : Type} (m : M A) : Prop :=
  forall s a s', m s = Some (a, s') -> transaction_closed s'.

Lemma settles_rollback : settles rollback.
Proof.
  intros s a s' H. unfold rollback, mbind, M_bind, gets in H. cbn in H.
  destruct (m_txn s); inversion H; subst; reflexivity.
Qed.

Lemma settles_commit : settles commit.
Proof. intros s a s' H. inversion H; subst. reflexivity. Qed.

Lemma settles_bind {A B : Type} (m : M A) (f : A -> M B) :
  (forall a, settles (f a)) -> settles (m ≫= f).
Proof. intros Hf s b s' H. apply bind_Some in H as (a & s1 & _ & H). exact (Hf a _ _ _ H). Qed.

Lemma closed_of_settles {A : Type} (m : M A) : settles m -> keeps transaction_closed m.
Proof. intros Hm s a s' E _. exact (Hm s a s' E). Qed.

Lemma closed_of_silent {A : Type} (m : M A) : silent m -> keeps transaction_closed m.
Proof.
  apply keeps_of_silent. intros s s' E. unfold frame in E. injection E as _ _ E.
  unfold transaction_closed. rewrite E. auto.
Qed.

Lemma settles_then_keeps {A B : Type} (m : M A) (f : A -> M B) :
  settles m -> (forall a, keeps transaction_closed (f a)) -> settles (m ≫= f).
Proof.
  intros Hm Hf s b s' H. apply bind_Some in H as (a & s1 & H1 & H).
  exact (Hf a _ _ _ H (Hm _ _ _ H1)).
Qed.

(** Code that does not touch the transaction. *)
Ltac closed_rest_step :=
  first
    [ progress cbv zeta
    | solve [auto with keeps]
    | apply closed_of_silent; solve [silent_tac]
    | apply keeps_modify; intros ? ?; assumption
    | apply keeps_bind; [| intros ?]
    | match goal with
      | |- keeps _ (if ?b then _ else _) => destruct b
      | |- keeps _ (match ?x with _ => _ end) => destruct x
      end ].

Ltac settles_step :=
  first
    [ progress cbv zeta
    | apply settles_rollback
    | apply settles_commit
    | apply settles_then_keeps;
        [ first [apply settles_rollback | apply settles_commit]
        | intros ?; solve [repeat closed_rest_step] ]
    | apply settles_bind; intros ?
    | match goal with
      | |- settles (if ?b then _ else _) => destruct b
      | |- settles (match ?x with _ => _ end) => destruct x
      end ].

Ltac settles_tac := repeat settles_step.

Ltac closed_step :=
  first
    [ progress cbv zeta
    | solve [auto with keeps]
    | apply closed_of_silent; solve [silent_tac]
    | apply closed_of_settles; solve [settles_tac]
    | apply keeps_bind; [| intros ?]
    | match goal with
      | |- keeps _ (if ?b then _ else _) => destruct b
      | |- keeps _ (match ?x with _ => _ end) => destruct x
      end ].

Ltac closed_tac := repeat closed_step.

Lemma removeFolderInternal_closed collection folder_id path :
  keeps transaction_closed (removeFolderInternal collection folder_id path).
Proof. unfold removeFolderInternal. closed_tac. Qed.
#[global] Hint Resolve removeFolderInternal_closed : keeps.

Lemma cleanDB_folders_closed fs collections :
  keeps transaction_closed (cleanDB_folders fs collections).
Proof.
  induction collections as [|i rest IH]; simpl; closed_tac;
    first [apply removeFolderInternal_closed | apply IH].
Qed.
#[global] Hint Resolve cleanDB_folders_closed : keeps.

Lemma cleanDB_closed fs : keeps transaction_closed (cleanDB fs).
Proof. unfold cleanDB. closed_tac. Qed.
#[global] Hint Resolve cleanDB_closed : keeps.

Lemma embeddings_loop_closed embeddings folder_id :
  keeps transaction_closed (embeddings_loop embeddings folder_id).
Proof.
  assert (Hexec : keeps transaction_closed exec).
  { intros s a s' E Hs. unfold exec in E.
    destruct (m_faults s); inversion E; subst; exact Hs. }
  revert folder_id. induction embeddings as [|e rest IH]; intros folder_id; simpl.
  - apply keeps_ret.
  - keeps_tac; try apply IH.
Qed.

Lemma call_closed fs c : keeps transaction_closed (call fs c).
Proof.
  destruct c; simpl.
  - unfold scanQueueBatch. closed_tac.
  - unfold handleEmbeddingsGenerated. destruct embeddings as [|first rest]; [apply keeps_skip|].
    apply keeps_bind; [apply embeddings_loop_closed|]. intros ?.
    repeat closed_rest_step.
  - apply closed_of_silent, silent_handleErrorGenerated.
  - apply closed_of_silent, addCurrentFolders_silent.
  - apply closed_of_silent, updateCollectionStatistics_silent.
  - apply closed_of_silent, silent_Database_forceIndexing.
  - apply closed_of_silent, addFolder_silent.
  - unfold removeFolder. closed_tac; try apply removeFolderInternal_closed.
  - apply cleanDB_closed.
  - unfold changeChunkSize. closed_tac.
  - unfold directoryChanged. closed_tac; try apply cleanDB_closed.
Qed.

(** X9. No slot returns with a transaction open, whatever statements fail: each
    path from a [transaction] to a return goes through a [commit] or a
    [rollback]. *)
Theorem no_transaction_is_left_open (fs : FileSystem) (cs : list slot) (s s' : Database) :
  m_txn s = None ->
  calls fs cs s = Some (tt, s') ->
  m_txn s' = None.
Proof.
  revert s. induction cs as [|c cs IH]; intros s Hs E.
  - inversion E; subst. exact Hs.
  - simpl in E. apply bind_Some in E as ([] & s1 & E1 & E).
    apply (IH s1); [|exact E]. exact (call_closed fs c s tt s1 E1 Hs).
Qed.

Lemma no_transaction_is_left_open_witness :
  m_txn (state_before_first_scan "/a/a.txt" chunk_insert_fails 100) = None /\
  calls unchanged_fs [ScanQueueBatch 5; RemoveFolder "C" "/a"]
      (state_before_first_scan "/a/a.txt" chunk_insert_fails 100)
    = Some (tt, state_after (calls unchanged_fs [ScanQueueBatch 5; RemoveFolder "C" "/a"])
                  (state_before_first_scan "/a/a.txt" chunk_insert_fails 100)) /\
  m_txn (state_after (calls unchanged_fs [ScanQueueBatch 5; RemoveFolder "C" "/a"])
           (state_before_first_scan "/a/a.txt" chunk_insert_fails 100)) = None.
Proof.
  split_and!.
  - reflexivity.
  - vm_compute. reflexivity.
  - apply (no_transaction_is_left_open unchanged_fs
             [ScanQueueBatch 5; RemoveFolder "C" "/a"]
             (state_before_first_scan "/a/a.txt" chunk_insert_fails 100)).
    + reflexivity.
    + vm_compute. reflexivity.
Defined.

(** *** The index is saved *)

Lemma replay_batch_log_saved (evs : list Event) (x : Embeddings) :
  batch_log evs -> e_file x = e_index x -> e_file (replay evs x) = e_index (replay evs x).
Proof.
  intros H. revert x. induction H as [|evs _ IH|cs evs _ IH]; intros x Hx.
  - exact Hx.
  - rewrite replay_app. apply IH. exact Hx.
  - rewrite replay_app. apply IH. unfold committed, apply_removals.
    destruct cs as [|c cs]; [exact Hx|].
    replace (EvTransaction :: map EvVectorRemove (c :: cs) ++ [EvCommit] ++ [EvVectorSave])
      with ((EvTransaction :: map EvVectorRemove (c :: cs) ++ [EvCommit]) ++ [EvVectorSave])
      by (simpl; rewrite <- app_assoc; reflexivity).
    rewrite replay_app. reflexivity.
Qed.

Lemma saved_of_batched {A : Type} (m : M A) : batched m -> keeps index_saved m.
Proof.
  intros Hm s a s' E Hs. destruct (Hm s a s' E) as (evs & _ & X & B).
  unfold index_saved. rewrite X. apply replay_batch_log_saved; assumption.
Qed.

Lemma saved_of_silent {A : Type} (m : M A) : silent m -> keeps index_saved m.
Proof. intros Hm. apply saved_of_batched, batched_silent, Hm. Qed.

Lemma removeFolder_batched collection path : batched (removeFolder collection path).
Proof. unfold removeFolder. batched_tac. Qed.

Lemma directoryChanged_batched fs path : batched (directoryChanged fs path).
Proof.
  unfold directoryChanged. apply batched_bind; [apply batched_silent; silent_tac|].
  intros [ok folder_id]. destruct (negb ok); [apply batched_silent; silent_tac|].
  destruct (folder_id =? -1); [apply batched_silent; silent_tac|].
  apply batched_bind; [apply cleanDB_batched|]. intros ?. apply batched_silent. silent_tac.
Qed.

Lemma handleEmbeddingsGenerated_saved embeddings :
  keeps index_saved (handleEmbeddingsGenerated embeddings).
Proof.
  unfold handleEmbeddingsGenerated. destruct embeddings as [|first rest]; [apply keeps_skip|].
  intros s a s' E _.
  apply bind_Some in E as (folder_id & s1 & _ & E).
  apply bind_Some in E as ([ok file] & s2 & _ & E).
  apply bind_Some in E as (item & s3 & _ & E).
  apply bind_Some in E as ([] & s4 & _ & E).
  inversion E; subst. reflexivity.
Qed.

Lemma call_saved fs c : keeps index_saved (call fs c).
Proof.
  destruct c; simpl.
  - apply saved_of_batched, scanQueueBatch_batched.
  - apply handleEmbeddingsGenerated_saved.
  - apply saved_of_silent, silent_handleErrorGenerated.
  - apply saved_of_silent, addCurrentFolders_silent.
  - apply saved_of_silent, updateCollectionStatistics_silent.
  - apply saved_of_silent, silent_Database_forceIndexing.
  - apply saved_of_silent, addFolder_silent.
  - apply saved_of_batched, removeFolder_batched.
  - apply saved_of_batched, cleanDB_batched.
  - apply saved_of_batched, changeChunkSize_batched.
  - apply saved_of_batched, directoryChanged_batched.
Qed.

(** X10. Between two slots the file of the vector index holds what the index
    holds, whatever statements fail: a slot that adds or removes a vector
    saves the index before it returns. *)
Theorem vector_index_is_saved_between_slots (fs : FileSystem) (cs : list slot)
    (s s' : Database) :
  index_saved s ->
  calls fs cs s = Some (tt, s') ->
  index_saved s'.
Proof.
  revert s. induction cs as [|c cs IH]; intros s Hs E.
  - inversion E; subst. exact Hs.
  - simpl in E. apply bind_Some in E as ([] & s1 & E1 & E).
    apply (IH s1); [|exact E]. exact (call_saved fs c s tt s1 E1 Hs).
Qed.

Lemma vector_index_is_saved_between_slots_witness :
  index_saved state_with_pending_chunks /\
  calls unchanged_fs [HandleEmbeddingsGenerated sample_batch; RemoveFolder "C" "/a"]
      state_with_pending_chunks
    = Some (tt, state_after
                  (calls unchanged_fs
                     [HandleEmbeddingsGenerated sample_batch; RemoveFolder "C" "/a"])
                  state_with_pending_chunks) /\
  index_saved (state_after
                 (calls unchanged_fs
                    [HandleEmbeddingsGenerated sample_batch; RemoveFolder "C" "/a"])
                 state_with_pending_chunks).
Proof.
  split_and!.
  - reflexivity.
  - vm_compute. reflexivity.
  - apply (vector_index_is_saved_between_slots unchanged_fs
             [HandleEmbeddingsGenerated sample_batch; RemoveFolder "C" "/a"]
             state_with_pending_chunks).
    + reflexivity.
    + vm_compute. reflexivity.
Defined.

(** ** Where the behaviour is defined *)

(** [m] returns in every state. *)
Definition total {A : Type} (m : M A) : Prop := forall s, exists a s', m s = Some (a, s').

Lemma total_ret {A : Type} (a : A) : total (mret a : M A).
Proof. intros s. exists a, s. reflexivity. Qed.

Lemma total_skip : total skip.
Proof. apply total_ret. Qed.

Lemma total_gets {A : Type} (f : Database -> A) : total (gets f).
Proof. intros s. eexists _, _. reflexivity. Qed.

Lemma total_modify (f : Database -> Database) : total (modify f).
Proof. intros s. eexists _, _. reflexivity. Qed.

Lemma total_update_db (f : DB -> DB) : total (update_db f).
Proof. apply total_modify. Qed.

Lemma total_emit (e : Event) : total (emit e).
Proof. apply total_modify. Qed.

Lemma total_exec : total exec.
Proof. intros s. unfold exec. destruct (m_faults s); eexists _, _; reflexivity. Qed.

Lemma total_bind {A B : Type} (m : M A) (f : A -> M B) :
  total m -> (forall a, total (f a)) -> total (m ≫= f).
Proof.
  intros Hm Hf s. destruct (Hm s) as (a & s1 & E1). destruct (Hf a s1) as (b & s2 & E2).
  exists b, s2. rewrite (bind_run _ _ _ _ _ E1). exact E2.
Qed.

Create HintDb total.
#[global] Hint Resolve total_ret total_skip total_gets total_modify total_update_db
  total_emit total_exec : total.

Ltac total_step :=
  first
    [ progress cbv zeta
    | solve [auto with total]
    | apply total_modify
    | apply total_gets
    | apply total_ret
    | apply total_bind; [| intros ?]
    | match goal with
      | |- total (if ?b then _ else _) => destruct b
      | |- total (match ?x with _ => _ end) => destruct x
      end ].

Ltac total_tac := repeat total_step.

Lemma total_removeAll cs : total (removeAll cs).
Proof. induction cs as [|? ? IH]; simpl; total_tac. Qed.
#[global] Hint Resolve total_removeAll : total.

Lemma total_addChunk document_id chunk_text file title author subject keywords page from to
    words chunk_id :
  total (addChunk document_id chunk_text file title author subject keywords page from to
           words chunk_id).
Proof. unfold addChunk. total_tac. Qed.
#[global] Hint Resolve total_addChunk : total.

Lemma total_appendChunk chunk : total (appendChunk chunk).
Proof. unfold appendChunk. total_tac. Qed.
#[global] Hint Resolve total_appendChunk : total.

Lemma total_scheduleNext folder_id countForFolder : total (scheduleNext folder_id countForFolder).
Proof. unfold scheduleNext. total_tac. Qed.
#[global] Hint Resolve total_scheduleNext : total.

Lemma total_chunkStream_loop fuel :
  forall stream folder_id document_id file title author subject keywords page maxChunks
         charCount words chunks addedWords,
    total (chunkStream_loop fuel stream folder_id document_id file title author subject
             keywords page maxChunks charCount words chunks addedWords).
Proof. induction fuel as [|? IH]; intros; simpl; total_tac; try apply IH. Qed.
#[global] Hint Resolve total_chunkStream_loop : total.

Lemma total_chunkStream stream folder_id document_id file title author subject keywords page
    maxChunks :
  total (chunkStream stream folder_id document_id file title author subject keywords page
           maxChunks).
Proof. unfold chunkStream. total_tac. Qed.
#[global] Hint Resolve total_chunkStream : total.

Lemma total_embeddings_loop embeddings : forall folder_id,
  total (embeddings_loop embeddings folder_id).
Proof. induction embeddings as [|? ? IH]; intros; simpl; total_tac; try apply IH. Qed.
#[global] Hint Resolve total_embeddings_loop : total.

Lemma total_handleEmbeddingsGenerated embeddings : total (handleEmbeddingsGenerated embeddings).
Proof. unfold handleEmbeddingsGenerated. total_tac. Qed.

Lemma total_enqueueAll infos : total (enqueueAll infos).
Proof. induction infos as [|? ? IH]; simpl; total_tac. Qed.
#[global] Hint Resolve total_enqueueAll : total.

Lemma total_statistics_loop collections : total (statistics_loop collections).
Proof. induction collections as [|? ? IH]; simpl; total_tac. Qed.
#[global] Hint Resolve total_statistics_loop : total.

Lemma total_updateCollectionStatistics : total updateCollectionStatistics.
Proof. unfold updateCollectionStatistics. total_tac. Qed.
#[global] Hint Resolve total_updateCollectionStatistics : total.

Lemma total_scanDocuments_loop fs folder_id entries : forall infos,
  total (scanDocuments_loop fs folder_id entries infos).
Proof. induction entries as [|? ? IH]; intros; simpl; total_tac; try apply IH. Qed.
#[global] Hint Resolve total_scanDocuments_loop : total.

Lemma total_scanDocuments fs folder_id folder_path :
  total (scanDocuments fs folder_id folder_path).
Proof. unfold scanDocuments. total_tac. Qed.
#[global] Hint Resolve total_scanDocuments : total.

Lemma total_checkAndAddFolderToDB fs path : total (checkAndAddFolderToDB fs path).
Proof. unfold checkAndAddFolderToDB. total_tac. Qed.
#[global] Hint Resolve total_checkAndAddFolderToDB : total.

Lemma total_addFolder fs collection path : total (addFolder fs collection path).
Proof. unfold addFolder. total_tac. Qed.
#[global] Hint Resolve total_addFolder : total.

Lemma total_scheduleUncompletedEmbeddings folder_id :
  total (scheduleUncompletedEmbeddings folder_id).
Proof. unfold scheduleUncompletedEmbeddings. total_tac. Qed.
#[global] Hint Resolve total_scheduleUncompletedEmbeddings : total.

Lemma total_addCurrentFolders_loop fs collections :
  total (addCurrentFolders_loop fs collections).
Proof. induction collections as [|? ? IH]; simpl; total_tac. Qed.
#[global] Hint Resolve total_addCurrentFolders_loop : total.

Lemma total_addCurrentFolders fs : total (addCurrentFolders fs).
Proof. unfold addCurrentFolders. total_tac. Qed.
#[global] Hint Resolve total_addCurrentFolders : total.

Lemma total_removeFolder_loop documentIds : forall chunksToRemove,
  total (removeFolder_loop documentIds chunksToRemove).
Proof. induction documentIds as [|? ? IH]; intros; simpl; total_tac; try apply IH. Qed.
#[global] Hint Resolve total_removeFolder_loop : total.

Lemma total_removeFolderInternal collection folder_id path :
  total (removeFolderInternal collection folder_id path).
Proof. unfold removeFolderInternal. total_tac. Qed.
#[global] Hint Resolve total_removeFolderInternal : total.

Lemma total_removeFolder collection path : total (removeFolder collection path).
Proof. unfold removeFolder. total_tac. Qed.

Lemma total_cleanDB_folders fs collections : total (cleanDB_folders fs collections).
Proof. induction collections as [|? ? IH]; simpl; total_tac. Qed.
#[global] Hint Resolve total_cleanDB_folders : total.

Lemma total_cleanDB_loop fs rows : forall chunksToRemove,
  total (cleanDB_loop fs rows chunksToRemove).
Proof. induction rows as [|? ? IH]; intros; simpl; total_tac; try apply IH. Qed.
#[global] Hint Resolve total_cleanDB_loop : total.

Lemma total_cleanDB fs : total (cleanDB fs).
Proof. unfold cleanDB. total_tac. Qed.
#[global] Hint Resolve total_cleanDB : total.

Lemma total_changeChunkSize_loop rows : forall chunksToRemove,
  total (changeChunkSize_loop rows chunksToRemove).
Proof. induction rows as [|? ? IH]; intros; simpl; total_tac; try apply IH. Qed.
#[global] Hint Resolve total_changeChunkSize_loop : total.

Lemma total_changeChunkSize fs chunkSize : total (changeChunkSize fs chunkSize).
Proof. unfold changeChunkSize. total_tac. Qed.

Lemma total_directoryChanged fs path : total (directoryChanged fs path).
Proof. unfold directoryChanged. total_tac. Qed.

Lemma total_forceIndexing_loop fs collection folders :
  total (forceIndexing_loop fs collection folders).
Proof. induction folders as [|? ? IH]; simpl; total_tac. Qed.
#[global] Hint Resolve total_forceIndexing_loop : total.

Lemma total_Database_forceIndexing fs collection : total (Database_forceIndexing fs collection).
Proof. unfold Database_forceIndexing. total_tac. Qed.

Lemma total_handleErrorGenerated folder_id error : total (handleErrorGenerated folder_id error).
Proof. unfold handleErrorGenerated. total_tac. Qed.

Lemma runs_bind {A B : Type} (m : M A) (f : A -> M B) (s : Database) :
  (exists a s1, m s = Some (a, s1)) -> (forall a, total (f a)) ->
  exists b s', (m ≫= f) s = Some (b, s').
Proof.
  intros (a & s1 & E) Hf. rewrite (bind_run _ _ _ _ _ E). apply Hf.
Qed.

Lemma total_scanQueue_existing folder_id countForFolder existing_id existing_time
    document_time chunksToRemove :
  total (scanQueue_existing folder_id countForFolder existing_id existing_time document_time
           chunksToRemove).
Proof. unfold scanQueue_existing. total_tac. Qed.

Lemma total_scanQueue_document folder_id countForFolder existing_id document_time
    document_path processing :
  total (scanQueue_document folder_id countForFolder existing_id document_time document_path
           processing).
Proof. unfold scanQueue_document. total_tac. Qed.

Lemma total_scanQueue_text fs info folder_id countForFolder document_id document_path :
  total (scanQueue_text fs info folder_id countForFolder document_id document_path).
Proof. unfold scanQueue_text. total_tac. Qed.

Lemma total_scanQueue_pdf fs info folder_id countForFolder document_id :
  no_empty_pdf fs ->
  total (scanQueue_pdf fs info folder_id countForFolder document_id).
Proof.
  intros Hfs. unfold scanQueue_pdf.
  destruct (fs_file fs (canonicalFilePath (doc info)) ≫= file_pdf) as [pdf|] eqn:E;
    [|total_tac].
  destruct (fs_file fs (canonicalFilePath (doc info))) as [file|] eqn:Ef; [|discriminate].
  simpl in E. pose proof (Hfs _ _ _ Ef E) as Hpages.
  destruct (pageCount pdf =? 0) eqn:E0; [apply Z.eqb_eq in E0; contradiction|].
  total_tac.
Qed.

#[global] Hint Resolve total_scanQueue_existing total_scanQueue_document
  total_scanQueue_text total_scanQueue_pdf : total.

Lemma scanQueue_runs fs chunksToRemove s :
  no_empty_pdf fs -> queues_nonempty s -> m_docsToScan s <> ∅ ->
  exists a s', scanQueue fs chunksToRemove s = Some (a, s').
Proof.
  intros Hfs Hs Hne. unfold scanQueue. apply runs_bind.
  - destruct (dequeueDocument_run s Hs Hne) as (key & info & rest & _ & _ & E).
    eexists _, _. exact E.
  - intros info. total_tac.
Qed.

Lemma scanQueueBatch_loop_runs fs budget : forall chunksToRemove s,
  no_empty_pdf fs -> queues_nonempty s ->
  exists a s', scanQueueBatch_loop fs budget chunksToRemove s = Some (a, s').
Proof.
  induction budget as [|budget IH]; intros chunksToRemove s Hfs Hs; simpl.
  - eexists _, _. reflexivity.
  - rewrite (bind_run _ _ s (m_docsToScan s) s eq_refl).
    case_bool_decide as Hne; [eexists _, _; reflexivity|].
    destruct (scanQueue_runs fs chunksToRemove s Hfs Hs Hne) as ([ok cs] & s1 & E).
    rewrite (bind_run _ _ _ _ _ E).
    destruct ok; simpl; [|eexists _, _; reflexivity].
    apply IH; [exact Hfs|].
    exact (scanQueue_keeps queues_nonempty queues_nonempty_parts fs chunksToRemove
             s _ s1 E Hs).
Qed.

Lemma scanQueueBatch_runs fs budget s :
  no_empty_pdf fs -> queues_nonempty s ->
  exists a s', scanQueueBatch fs budget s = Some (a, s').
Proof.
  intros Hfs Hs. unfold scanQueueBatch.
  assert (Ht : total transaction) by (unfold transaction; total_tac).
  destruct (Ht s) as ([] & s1 & E1).
  pose proof (kp_transaction _ queues_nonempty_parts s tt s1 E1 Hs) as Hs1.
  rewrite (bind_run _ _ _ _ _ E1).
  destruct (scanQueueBatch_loop_runs fs budget [] s1 Hfs Hs1) as ([ok cs] & s2 & E2).
  rewrite (bind_run _ _ _ _ _ E2).
  assert (Hrest : total (if negb ok then rollback
                         else removeAll cs;; commit;;
                              match cs with [] => skip | _ => Embeddings_save_M end)).
  { total_tac. }
  apply Hrest.
Qed.

Lemma call_runs fs c s :
  no_empty_pdf fs -> queues_nonempty s -> exists a s', call fs c s = Some (a, s').
Proof.
  intros Hfs Hs. destruct c; simpl.
  - apply scanQueueBatch_runs; assumption.
  - apply total_handleEmbeddingsGenerated.
  - apply total_handleErrorGenerated.
  - apply total_addCurrentFolders.
  - apply total_updateCollectionStatistics.
  - apply total_Database_forceIndexing.
  - apply total_addFolder.
  - apply total_removeFolder.
  - apply total_cleanDB.
  - apply total_changeChunkSize.
  - apply total_directoryChanged.
Qed.

(** X11. Three points of the slots are marked [undefined]: the two
    assertions of [dequeueDocument] (the scan queue is empty; the first
    queue is empty) and the division by a page count of zero in
    [scanQueue]. When no PDF of the file system loads with a page count of
    zero and the scan queue holds no empty queue, every sequence of slots
    returns and reaches none of the three, whatever statements fail. *)
Theorem slots_are_defined (fs : FileSystem) (cs : list slot) (s : Database) :
  no_empty_pdf fs ->
  queues_nonempty s ->
  exists s', calls fs cs s = Some (tt, s').
Proof.
  intros Hfs. revert s. induction cs as [|c cs IH]; intros s Hs.
  - exists s. reflexivity.
  - simpl. destruct (call_runs fs c s Hfs Hs) as ([] & s1 & E1).
    rewrite (bind_run _ _ _ _ _ E1). apply IH.
    assert (Hforce : forall name,
               keeps queues_nonempty (update_db (clear_force_indexing name))).
    { intros name. apply keeps_modify. intros ? ?. assumption. }
    assert (Hsize : forall v, keeps queues_nonempty (modify (with_chunkSize v))).
    { intros v. apply keeps_modify. intros ? ?. assumption. }
    exact (call_keeps queues_nonempty queues_nonempty_parts Hforce Hsize fs c s tt s1 E1 Hs).
Qed.

Lemma slots_are_defined_witness :
  no_empty_pdf (pdf_fs ["alpha beta"]) /\
  queues_nonempty (state_before_first_scan "/a/a.pdf" [] 100) /\
  exists s',
    calls (pdf_fs ["alpha beta"]) [ScanQueueBatch 5; CleanDB; ChangeChunkSize 50]
      (state_before_first_scan "/a/a.pdf" [] 100) = Some (tt, s').
Proof.
  assert (Hfs : no_empty_pdf (pdf_fs ["alpha beta"])).
  { intros path file pdf Hfile Hpdf. unfold pdf_fs, sample_fs in Hfile. cbn in Hfile.
    destruct (String.eqb path "/a/a.pdf"); [|discriminate].
    injection Hfile as <-. injection Hpdf as <-. discriminate. }
  assert (Hs : queues_nonempty (state_before_first_scan "/a/a.pdf" [] 100)).
  { intros key queue. unfold state_before_first_scan, sample_state. cbn [m_docsToScan].
    intros [_ <-]%lookup_singleton_Some. discriminate. }
  split_and!; [exact Hfs | exact Hs |].
  exact (slots_are_defined (pdf_fs ["alpha beta"])
           [ScanQueueBatch 5; CleanDB; ChangeChunkSize 50]
           (state_before_first_scan "/a/a.pdf" [] 100) Hfs Hs).
Defined.

(** ** The n-grams of a query *)

(** X12. For [N >= 0], [generateGrams] returns at least one n-gram and never
    reads past the end of the words: with [W] words after the punctuation is
    removed and [n = min W N], there are [W - n + 1] n-grams, and the n-gram
    at position [i] quotes exactly the [n] words from position [i] on. For a
    text without a word the one n-gram is [NEAR(, 0)]. *)
Theorem generateGrams_windows (input : string) (N : Z) :
  0 <= N ->
  generateGrams input N <> [] /\
  Z.of_nat (List.length (generateGrams input N))
    = Z.of_nat (List.length (words_of input))
      - Z.min (Z.of_nat (List.length (words_of input))) N + 1 /\
  (forall i, (i < List.length (generateGrams input N))%nat ->
     exists window,
       Z.of_nat (List.length window) = Z.min (Z.of_nat (List.length (words_of input))) N /\
       firstn (Z.to_nat (Z.min (Z.of_nat (List.length (words_of input))) N))
              (skipn i (words_of input)) = window /\
       nth_error (generateGrams input N) i
         = Some ("NEAR(" +:+ Text.join " " (map quoted window) +:+ ", "
                   +:+ Text.number (Z.min (Z.of_nat (List.length (words_of input))) N)
                   +:+ ")")) /\
  (words_of input = [] -> generateGrams input N = ["NEAR(, 0)"]).
Proof.
  intros HN.
  set (words := words_of input). set (W := Z.of_nat (List.length words)).
  set (n := Z.min W N).
  assert (Hlen : List.length (generateGrams input N) = Z.to_nat (W - (n - 1))).
  { unfold generateGrams. rewrite length_map, length_seq. reflexivity. }
  assert (Hn : n <= W) by (unfold n; lia).
  split_and!.
  - intros E. rewrite E in Hlen. simpl in Hlen. lia.
  - rewrite Hlen. lia.
  - intros i Hi. eexists. split_and!; [|reflexivity|].
    + rewrite length_firstn, length_skipn. unfold W in *. lia.
    + unfold generateGrams. fold (words_of input). fold words. fold W. fold n.
      rewrite nth_error_map, nth_error_seq.
      destruct (Nat.ltb_spec i (Z.to_nat (W - (n - 1)))) as [_|Hge]; [reflexivity|].
      rewrite Hlen in Hi. lia.
  - intros E. unfold generateGrams. fold (words_of input). fold words. rewrite E.
    change (Z.of_nat (List.length (@nil string))) with 0.
    replace (0 `min` N) with 0 by lia. reflexivity.
Qed.

Lemma generateGrams_windows_witness :
  0 <= 2 /\
  generateGrams "alpha, beta gamma!" 2
    = ["NEAR(" +:+ quoted "alpha" +:+ " " +:+ quoted "beta" +:+ ", 2)";
       "NEAR(" +:+ quoted "beta" +:+ " " +:+ quoted "gamma" +:+ ", 2)"] /\
  generateGrams "alpha, beta gamma!" 2 <> [] /\
  Z.of_nat (List.length (generateGrams "alpha, beta gamma!" 2))
    = Z.of_nat (List.length (words_of "alpha, beta gamma!"))
      - Z.min (Z.of_nat (List.length (words_of "alpha, beta gamma!"))) 2 + 1 /\
  (forall i, (i < List.length (generateGrams "alpha, beta gamma!" 2))%nat ->
     exists window,
       Z.of_nat (List.length window)
         = Z.min (Z.of_nat (List.length (words_of "alpha, beta gamma!"))) 2 /\
       firstn (Z.to_nat (Z.min (Z.of_nat (List.length (words_of "alpha, beta gamma!"))) 2))
              (skipn i (words_of "alpha, beta gamma!")) = window /\
       nth_error (generateGrams "alpha, beta gamma!" 2) i
         = Some ("NEAR(" +:+ Text.join " " (map quoted window) +:+ ", "
                   +:+ Text.number
                         (Z.min (Z.of_nat (List.length (words_of "alpha, beta gamma!"))) 2)
                   +:+ ")")) /\
  (words_of "alpha, beta gamma!" = [] ->
   generateGrams "alpha, beta gamma!" 2 = ["NEAR(, 0)"]).
Proof.
  split; [lia|]. split; [vm_compute; reflexivity|].
  apply (generateGrams_windows "alpha, beta gamma!" 2). lia.
Defined.

(** ** The longest n-grams first *)

Lemma selectChunk_loop_spec (sqlite : string -> string -> option (list ResultRow))
    (names : list string) (text : string) (size : Z) (count : nat) (ok : bool)
    (rows : list ResultRow) :
  selectChunk_loop sqlite count names text size = (ok, rows) ->
  (ok = true /\ rows = [] /\
   forall N, 2 < N <= 2 + Z.of_nat count ->
     sqlite (ngram_statement names size) (ngram_match text N) = Some []) \/
  (exists N, 2 < N <= 2 + Z.of_nat count /\
     (forall M, N < M <= 2 + Z.of_nat count ->
        sqlite (ngram_statement names size) (ngram_match text M) = Some []) /\
     ((ok = false /\ rows = [] /\
       sqlite (ngram_statement names size) (ngram_match text N) = None) \/
      (ok = true /\ rows <> [] /\
       sqlite (ngram_statement names size) (ngram_match text N) = Some rows))).
Proof.
  induction count as [|count IH]; intros H.
  - injection H as <- <-. left. split_and!; try reflexivity. intros N HN. lia.
  - cbn [selectChunk_loop] in H. cbv zeta in H.
    fold (ngram_statement names size) in H.
    fold (ngram_match text (2 + Z.of_nat (S count))) in H.
    destruct (sqlite (ngram_statement names size)
                (ngram_match text (2 + Z.of_nat (S count)))) as [[|r rs]|] eqn:Eq.
    + destruct (IH H) as [(-> & -> & Hall)|(N & HN & Habove & Hat)].
      * left. split_and!; try reflexivity. intros N HN.
        destruct (Z.eq_dec N (2 + Z.of_nat (S count))) as [->|Hne]; [exact Eq|].
        apply Hall. lia.
      * right. exists N. split; [lia|]. split; [|exact Hat].
        intros M HM. destruct (Z.eq_dec M (2 + Z.of_nat (S count))) as [->|Hne]; [exact Eq|].
        apply Habove. lia.
    + injection H as <- <-. right. exists (2 + Z.of_nat (S count)).
      split; [lia|]. split; [intros M HM; lia|].
      right. split_and!; [reflexivity | discriminate | exact Eq].
    + injection H as <- <-. right. exists (2 + Z.of_nat (S count)).
      split; [lia|]. split; [intros M HM; lia|].
      left. split_and!; [reflexivity | reflexivity | exact Eq].
Qed.

(** X13. [selectChunk] for a text asks for the n-grams of length [N] from the
    number of parts of the text down to 3, and stops at the first length
    for which the engine fails or has a row: it fails exactly when the
    engine fails there, it returns the rows found there, and it returns no
    row when every length from 3 up has none; for a shorter length no
    statement is run. *)
Theorem selectChunk_longest_ngrams_first
    (sqlite : string -> string -> option (list ResultRow))
    (names : list string) (text : string) (size : Z) (ok : bool) (rows : list ResultRow) :
  selectChunk sqlite names text size = (ok, rows) ->
  (ok = true /\ rows = [] /\
   forall N, 2 < N <= Z.of_nat (List.length (Text.split text)) ->
     sqlite (ngram_statement names size) (ngram_match text N) = Some []) \/
  (exists N, 2 < N <= Z.of_nat (List.length (Text.split text)) /\
     (forall M, N < M <= Z.of_nat (List.length (Text.split text)) ->
        sqlite (ngram_statement names size) (ngram_match text M) = Some []) /\
     ((ok = false /\ rows = [] /\
       sqlite (ngram_statement names size) (ngram_match text N) = None) \/
      (ok = true /\ rows <> [] /\
       sqlite (ngram_statement names size) (ngram_match text N) = Some rows))).
Proof.
  intros H. unfold selectChunk in H. cbv zeta in H.
  apply selectChunk_loop_spec in H as [(-> & -> & Hall)|(N & HN & Habove & Hat)].
  - left. split_and!; try reflexivity. intros N HN. apply Hall. lia.
  - right. exists N. split; [lia|]. split; [|exact Hat]. intros M HM. apply Habove. lia.
Qed.

(** An engine in which only the 2-grams of [alpha beta] have a hit. *)
Lemma selectChunk_longest_ngrams_first_witness :
  selectChunk sample_sqlite ["C"] "gamma alpha beta delta" 5
    = (true, []) /\
  ((true = true /\ @nil ResultRow = [] /\
    forall N, 2 < N <= Z.of_nat (List.length (Text.split "gamma alpha beta delta")) ->
      sample_sqlite (ngram_statement ["C"] 5) (ngram_match "gamma alpha beta delta" N)
        = Some []) \/
   (exists N, 2 < N <= Z.of_nat (List.length (Text.split "gamma alpha beta delta")) /\
      (forall M, N < M <= Z.of_nat (List.length (Text.split "gamma alpha beta delta")) ->
         sample_sqlite (ngram_statement ["C"] 5) (ngram_match "gamma alpha beta delta" M)
           = Some []) /\
      ((true = false /\ @nil ResultRow = [] /\
        sample_sqlite (ngram_statement ["C"] 5) (ngram_match "gamma alpha beta delta" N)
          = None) \/
       (true = true /\ @nil ResultRow <> [] /\
        sample_sqlite (ngram_statement ["C"] 5) (ngram_match "gamma alpha beta delta" N)
          = Some [])))).
Proof.
  split.
  - vm_compute. reflexivity.
  - apply (selectChunk_longest_ngrams_first sample_sqlite ["C"] "gamma alpha beta delta" 5
             true []).
    vm_compute. reflexivity.
Defined.

(** ** The scan of a folder *)

Lemma scanDocuments_loop_run fs folder_id entries : forall infos s,
  exists s',
    scanDocuments_loop fs folder_id entries infos s
      = Some (infos ++
                map (fun path =>
                       mkDocumentInfo folder_id (stat fs (mkFileInfo path None)) 0 0 false)
                    (List.filter (recognised fs) entries), s') /\
    m_db s' = m_db s /\ m_faults s' = m_faults s /\ m_docsToScan s' = m_docsToScan s /\
    m_scanTimer s' = m_scanTimer s /\ m_collectionMap s' = m_collectionMap s.
Proof.
  induction entries as [|path rest IH]; intros infos s.
  - exists s. simpl. rewrite app_nil_r. split_and!; reflexivity.
  - cbn [scanDocuments_loop List.filter]. unfold recognised at 1. cbv zeta.
    destruct (isDir (stat fs (mkFileInfo path None))) eqn:Edir; cbn [negb andb].
    + unfold addFolderToWatch, mbind, M_bind, gets, modify, mret, M_ret. cbv beta iota.
      destruct (existsb (String.eqb (canonicalFilePath (stat fs (mkFileInfo path None))))
                  (m_watcher s)); cbv beta iota.
      * apply IH.
      * destruct (IH infos (with_watcher
                              (fun w => w ++ [canonicalFilePath (stat fs (mkFileInfo path None))])
                              s)) as (s' & E & H).
        exists s'. split; [exact E | exact H].
    + destruct (existsb (String.eqb (suffix (stat fs (mkFileInfo path None)))) extensions);
        cbn [negb].
      * destruct (IH (infos ++ [mkDocumentInfo folder_id (stat fs (mkFileInfo path None))
                                  0 0 false]) s) as (s' & E & H).
        exists s'. split; [|exact H]. rewrite E. cbn [map]. rewrite <- app_assoc. reflexivity.
      * apply IH.
Qed.

Lemma enqueueAll_run (folder_id : Z) (infos : list DocumentInfo) : forall s,
  Forall (fun i => folder i = folder_id) infos ->
  exists s',
    enqueueAll infos s = Some (tt, s') /\
    m_db s' = m_db s /\ m_faults s' = m_faults s /\ m_scanTimer s' = m_scanTimer s /\
    m_collectionMap s' = m_collectionMap s /\
    (forall k, k <> folder_id -> m_docsToScan s' !! k = m_docsToScan s !! k) /\
    m_docsToScan s' !! folder_id
      = match infos with
        | [] => m_docsToScan s !! folder_id
        | _ => Some (default [] (m_docsToScan s !! folder_id) ++ infos)
        end.
Proof.
  induction infos as [|i rest IH]; intros s Hall.
  - exists s. split_and!; reflexivity.
  - apply Forall_cons in Hall as [Hi Hrest]. cbn [enqueueAll].
    unfold enqueueDocumentInternal at 1.
    match goal with
    | |- context [(modify ?f ≫= _) s] => rewrite (bind_run _ _ s tt (f s) eq_refl)
    end.
    match goal with
    | |- context [enqueueAll rest ?s1] => destruct (IH s1 Hrest) as (s' & E & H)
    end.
    exists s'. split; [exact E|].
    destruct H as (Hdb & Hfaults & Htimer & Hgui & Hother & Hthis).
    cbn [m_db m_faults m_scanTimer m_collectionMap m_docsToScan with_docsToScan] in *.
    rewrite Hi in *.
    split_and!; try assumption.
    + intros k Hk. rewrite (Hother k Hk). apply lookup_insert_ne. congruence.
    + rewrite Hthis, lookup_insert_eq. cbn [default from_option id].
      destruct rest; [reflexivity|]. rewrite <- app_assoc. reflexivity.
Qed.

Lemma scanDocuments_run (fs : FileSystem) (folder_id : Z)
    (folder_path : string) (s : Database) :
  exists s',
    scanDocuments fs folder_id folder_path s = Some (tt, s') /\
    m_db s' = m_db s /\ m_faults s' = m_faults s /\
    (forall k, k <> folder_id -> m_docsToScan s' !! k = m_docsToScan s !! k) /\
    match documents_found fs folder_id folder_path with
    | [] => m_docsToScan s' = m_docsToScan s /\ m_scanTimer s' = m_scanTimer s
    | found =>
        m_docsToScan s' !! folder_id
          = Some (default [] (m_docsToScan s !! folder_id) ++ found) /\
        m_scanTimer s' = true
    end.
Proof.
  unfold scanDocuments.
  destruct (scanDocuments_loop_run fs folder_id (fs_entries fs folder_path) [] s)
    as (s1 & E1 & Hdb1 & Hfaults1 & Hqueue1 & Htimer1 & Hgui1).
  rewrite (bind_run _ _ _ _ _ E1). cbn [app]. fold (documents_found fs folder_id folder_path).
  assert (Hall : Forall (fun i => folder i = folder_id)
                   (documents_found fs folder_id folder_path)).
  { unfold documents_found. apply Forall_map, Forall_forall. intros; reflexivity. }
  destruct (documents_found fs folder_id folder_path) as [|i found] eqn:Efound.
  - exists s1. split_and!; try assumption; try reflexivity.
    intros k _. rewrite Hqueue1. reflexivity.
  - unfold guiCollectionItem at 1, updateGuiForCollectionItem at 1.
    rewrite (bind_run _ _ s1 _ s1 eq_refl).
    match goal with
    | |- context [(modify ?f ≫= _) s1] => rewrite (bind_run _ _ s1 tt (f s1) eq_refl)
    end.
    unfold enqueueDocuments.
    match goal with
    | |- context [(enqueueAll _ ≫= _) ?s2] =>
        destruct (enqueueAll_run folder_id (i :: found) s2 Hall)
          as (s3 & E3 & Hdb3 & Hfaults3 & Htimer3 & Hgui3 & Hother3 & Hthis3)
    end.
    rewrite (bind_run _ _ _ _ _ E3).
    eexists. split; [reflexivity|].
    cbn [m_db m_faults m_scanTimer m_collectionMap m_docsToScan with_docsToScan
         with_collectionMap with_scanTimer] in *.
    split_and!.
    + congruence.
    + congruence.
    + intros k Hk. rewrite (Hother3 k Hk), Hqueue1. reflexivity.
    + rewrite Hthis3, Hqueue1. reflexivity.
    + reflexivity.
Qed.

(** X14. [scanDocuments] puts the entries of the folder that are no directory
    and have the suffix txt, pdf, md or rst at the back of the queue of the
    folder, in the order of the directory listing, and starts the scan timer;
    the queues of the other folders and the store are left alone, and no
    statement is run. When there is no such entry, the queues and the timer
    are as before. *)
Theorem scanDocuments_enqueues_recognised_files (fs : FileSystem) (folder_id : Z)
    (folder_path : string) (s : Database) :
  exists s',
    scanDocuments fs folder_id folder_path s = Some (tt, s') /\
    m_db s' = m_db s /\ m_faults s' = m_faults s /\
    (forall k, k <> folder_id -> m_docsToScan s' !! k = m_docsToScan s !! k) /\
    match documents_found fs folder_id folder_path with
    | [] => m_docsToScan s' = m_docsToScan s /\ m_scanTimer s' = m_scanTimer s
    | found =>
        m_docsToScan s' !! folder_id
          = Some (default [] (m_docsToScan s !! folder_id) ++ found) /\
        m_scanTimer s' = true
    end.
Proof. exact (scanDocuments_run fs folder_id folder_path s). Qed.

(** ** A document that is gone *)

Lemma scheduleNext_queue folder_id countForFolder s s' :
  scheduleNext folder_id countForFolder s = Some (tt, s') ->
  m_docsToScan s' = m_docsToScan s /\ m_txn s' = m_txn s /\
  m_embeddings s' = m_embeddings s.
Proof.
  unfold scheduleNext, guiCollectionItem, sendChunkList, updateGuiForCollectionItem,
    mbind, M_bind, gets, modify.
  destruct (countForFolder =? 0); intros [= <-]; split_and!; reflexivity.
Qed.

(** X15. The document taken from the queue has no file any more, or one that
    cannot be read: [scanQueue] reports success and drops the document from
    the queue; it runs no statement, leaves the store and the vector index
    as they are and schedules no chunk for removal. The rows of the document
    stay until the next [cleanDB]. *)
Theorem scanQueue_skips_vanished_document (fs : FileSystem) (chunksToRemove : list Z)
    (s s0 : Database) (info : DocumentInfo) :
  dequeueDocument s = Some (info, s0) ->
  exists_ (stat fs (doc info)) = false \/ isReadable (stat fs (doc info)) = false ->
  exists s',
    scanQueue fs chunksToRemove s = Some ((true, chunksToRemove), s') /\
    m_db s' = m_db s /\ m_faults s' = m_faults s /\
    m_embeddings s' = m_embeddings s0 /\ m_docsToScan s' = m_docsToScan s0.
Proof.
  intros Hq Hgone.
  destruct (dequeueDocument_db _ _ _ Hq) as [Hdb Hfaults].
  unfold scanQueue. rewrite (bind_run _ _ _ _ _ Hq).
  unfold countOfDocuments at 1.
  rewrite (bind_run (gets _) _ s0 _ s0 eq_refl).
  cbv zeta. cbn [doc with_doc currentlyProcessing folder].
  set (count := match m_docsToScan s0 !! folder info with
                | Some q => Z.of_nat (List.length q) | None => 0 end).
  replace (negb (exists_ (stat fs (doc info))) || negb (isReadable (stat fs (doc info))))
    with true by (destruct Hgone as [-> | ->]; [reflexivity | apply eq_sym, orb_true_r]).
  destruct (scheduleNext_run (folder info) count s0) as (s1 & E1 & D1 & F1).
  destruct (scheduleNext_queue _ _ _ _ E1) as (Q1 & _ & X1).
  rewrite (bind_run _ _ _ _ _ E1). exists s1.
  split; [reflexivity|]. split_and!; congruence.
Qed.

(** The file system without [a.txt]. *)
Definition fs_without_document : FileSystem :=
  sample_fs "/a/b.txt" (text_file "/a/b.txt" 1000 "alpha beta").

Lemma scanQueue_skips_vanished_document_witness :
  dequeueDocument state_before_rescan
    = Some (queued "/a/a.txt", state_after dequeueDocument state_before_rescan) /\
  (exists_ (stat fs_without_document (doc (queued "/a/a.txt"))) = false \/
   isReadable (stat fs_without_document (doc (queued "/a/a.txt"))) = false) /\
  exists s',
    scanQueue fs_without_document [] state_before_rescan = Some ((true, []), s') /\
    m_db s' = m_db state_before_rescan /\ m_faults s' = m_faults state_before_rescan /\
    m_embeddings s' = m_embeddings (state_after dequeueDocument state_before_rescan) /\
    m_docsToScan s' = m_docsToScan (state_after dequeueDocument state_before_rescan).
Proof.
  assert (Hq : dequeueDocument state_before_rescan
               = Some (queued "/a/a.txt", state_after dequeueDocument state_before_rescan)).
  { vm_compute. reflexivity. }
  assert (Hgone : exists_ (stat fs_without_document (doc (queued "/a/a.txt"))) = false \/
                  isReadable (stat fs_without_document (doc (queued "/a/a.txt"))) = false).
  { left. reflexivity. }
  split_and!; [exact Hq | exact Hgone |].
  exact (scanQueue_skips_vanished_document fs_without_document [] state_before_rescan _ _
           Hq Hgone).
Defined.

(** ** The row of a folder *)

Lemma filter_nil_existsb {A : Type} (f : A -> bool) (l : list A) :
  List.filter f l = [] -> existsb f l = false.
Proof.
  induction l as [|x l IH]; [reflexivity|]. simpl.
  destruct (f x); [discriminate|]. exact IH.
Qed.

Lemma checkAndAddFolderToDB_known fs path s folder_id :
  m_faults s = [] ->
  exists_ (stat fs (mkFileInfo path None)) = true ->
  isReadable (stat fs (mkFileInfo path None)) = true ->
  folder_of_path path (m_db s) = Some folder_id ->
  checkAndAddFolderToDB fs path s = Some (folder_id, s).
Proof.
  intros H He Hr Hf. unfold checkAndAddFolderToDB. cbv zeta. rewrite He, Hr. cbn [negb orb].
  rewrite (bind_run _ _ _ _ _ (selectFolder_ok path (-1) s H)).
  rewrite Hf. cbn [default from_option id negb].
  rewrite (folder_of_path_found _ _ _ Hf). reflexivity.
Qed.

Lemma checkAndAddFolderToDB_run (fs : FileSystem) (path : string)
    (s : Database) :
  m_faults s = [] ->
  exists_ (stat fs (mkFileInfo path None)) = true ->
  isReadable (stat fs (mkFileInfo path None)) = true ->
  exists folder_id s',
    checkAndAddFolderToDB fs path s = Some (folder_id, s') /\
    folder_id <> -1 /\
    folder_of_path path (m_db s') = Some folder_id /\
    match folder_of_path path (m_db s) with
    | Some _ => s' = s
    | None =>
        exists p, folder_id = bindId p /\
          (forall f, In f (folders (m_db s)) -> (f_id f < p)%positive) /\
          s' = with_db (with_folders (folders (m_db s) ++ [mkFolder p path])) s
    end /\
    checkAndAddFolderToDB fs path s' = Some (folder_id, s').
Proof.
  intros H He Hr.
  destruct (folder_of_path path (m_db s)) as [folder_id|] eqn:Hf.
  - exists folder_id, s.
    pose proof (checkAndAddFolderToDB_known fs path s folder_id H He Hr Hf) as E.
    split_and!; [exact E | | exact Hf | reflexivity | exact E].
    apply folder_of_path_found in Hf. intros ->. discriminate.
  - set (p := next_rowid (map f_id (folders (m_db s)))).
    set (s' := with_db (with_folders (folders (m_db s) ++ [mkFolder p path])) s).
    assert (Hnone : List.filter (fun f => String.eqb (f_folder_path f) path)
                      (folders (m_db s)) = []).
    { unfold folder_of_path in Hf. destruct (List.filter _ _); [reflexivity|discriminate]. }
    assert (Hf' : folder_of_path path (m_db s') = Some (bindId p)).
    { unfold folder_of_path, s'. cbn [m_db with_db folders with_folders].
      rewrite List.filter_app, Hnone. cbn [List.filter app f_folder_path].
      rewrite String.eqb_refl. reflexivity. }
    assert (E : checkAndAddFolderToDB fs path s = Some (bindId p, s')).
    { unfold checkAndAddFolderToDB. cbv zeta. rewrite He, Hr. cbn [negb orb].
      rewrite (bind_run _ _ _ _ _ (selectFolder_ok path (-1) s H)).
      rewrite Hf. cbn [default from_option id negb].
      change (-1 =? -1) with true. cbv iota.
      unfold addFolderToDB. run_ok H.
      rewrite (filter_nil_existsb _ _ Hnone). reflexivity. }
    exists (bindId p), s'.
    split_and!; [exact E | discriminate | exact Hf' | | ].
    + exists p. split_and!; try reflexivity.
      intros f Hin. unfold p, next_rowid.
      pose proof (max_rowid_bound _ _ (in_map f_id _ _ Hin)). lia.
    + apply checkAndAddFolderToDB_known; [exact H | exact He | exact Hr | exact Hf'].
Qed.

(** X16. When no statement fails, [checkAndAddFolderToDB] of a folder that exists
    and can be read returns the id of the row of its path, never -1: the row
    that is there, with the store left as it is, or a new row, the last of
    the table and with an id above every other. A second call returns the
    same id and changes nothing. *)
Theorem checkAndAddFolderToDB_registers_folder (fs : FileSystem) (path : string)
    (s : Database) :
  m_faults s = [] ->
  exists_ (stat fs (mkFileInfo path None)) = true ->
  isReadable (stat fs (mkFileInfo path None)) = true ->
  exists folder_id s',
    checkAndAddFolderToDB fs path s = Some (folder_id, s') /\
    folder_id <> -1 /\
    folder_of_path path (m_db s') = Some folder_id /\
    match folder_of_path path (m_db s) with
    | Some _ => s' = s
    | None =>
        exists p, folder_id = bindId p /\
          (forall f, In f (folders (m_db s)) -> (f_id f < p)%positive) /\
          s' = with_db (with_folders (folders (m_db s) ++ [mkFolder p path])) s
    end /\
    checkAndAddFolderToDB fs path s' = Some (folder_id, s').
Proof. exact (checkAndAddFolderToDB_run fs path s). Qed.

Lemma checkAndAddFolderToDB_registers_folder_witness :
  m_faults (sample_state (mkDB [] [] [] [] [] 0) empty_index [] [] 100) = [] /\
  exists_ (stat (sample_fs "/a" (mkFile true 0 "/a" 0 true true true "" None))
             (mkFileInfo "/a" None)) = true /\
  isReadable (stat (sample_fs "/a" (mkFile true 0 "/a" 0 true true true "" None))
                (mkFileInfo "/a" None)) = true /\
  exists folder_id s',
    checkAndAddFolderToDB (sample_fs "/a" (mkFile true 0 "/a" 0 true true true "" None)) "/a"
      (sample_state (mkDB [] [] [] [] [] 0) empty_index [] [] 100) = Some (folder_id, s') /\
    folder_id <> -1 /\
    folder_of_path "/a" (m_db s') = Some folder_id /\
    match folder_of_path "/a"
            (m_db (sample_state (mkDB [] [] [] [] [] 0) empty_index [] [] 100)) with
    | Some _ => s' = sample_state (mkDB [] [] [] [] [] 0) empty_index [] [] 100
    | None =>
        exists p, folder_id = bindId p /\
          (forall f,
             In f (folders (m_db (sample_state (mkDB [] [] [] [] [] 0) empty_index [] []
                                    100))) ->
             (f_id f < p)%positive) /\
          s' = with_db
                 (with_folders
                    (folders (m_db (sample_state (mkDB [] [] [] [] [] 0) empty_index [] []
                                      100))
                     ++ [mkFolder p "/a"]))
                 (sample_state (mkDB [] [] [] [] [] 0) empty_index [] [] 100)
    end /\
    checkAndAddFolderToDB (sample_fs "/a" (mkFile true 0 "/a" 0 true true true "" None)) "/a"
      s' = Some (folder_id, s').
Proof.
  split_and!; [reflexivity | reflexivity | reflexivity |].
  apply (checkAndAddFolderToDB_registers_folder
           (sample_fs "/a" (mkFile true 0 "/a" 0 true true true "" None)) "/a"
           (sample_state (mkDB [] [] [] [] [] 0) empty_index [] [] 100));
    reflexivity.
Defined.

(** ** [addFolder] without an embedding model *)

(** What [addFolder] must not touch when it gives up. *)
Definition beside_folders (s : Database) :=
  (collections (m_db s), documents (m_db s), chunks (m_db s), chunks_fts (m_db s),
   m_collectionMap s, m_docsToScan s, m_watcher s, m_scanTimer s, m_embLLM s).

Lemma checkAndAddFolderToDB_beside_folders fs path v :
  keeps (fun s => beside_folders s = v) (checkAndAddFolderToDB fs path).
Proof.
  assert (Hexec : keeps (fun s => beside_folders s = v) exec).
  { intros s a s' E Hs. unfold exec in E.
    destruct (m_faults s); injection E as _ <-; exact Hs. }
  unfold checkAndAddFolderToDB. keeps_tac.
Qed.

Lemma selectFoldersFromCollection_beside_folders name l v :
  keeps (fun s => beside_folders s = v) (selectFoldersFromCollection name l).
Proof.
  assert (Hexec : keeps (fun s => beside_folders s = v) exec).
  { intros s a s' E Hs. unfold exec in E.
    destruct (m_faults s); injection E as _ <-; exact Hs. }
  unfold selectFoldersFromCollection. keeps_tac.
Qed.

(** X17. Without an embedding model [addFolder] gives up, whatever statements
    fail: no collection row is written, no document is queued, the folder
    is not watched and the user interface hears of nothing. The test comes
    after [checkAndAddFolderToDB], so the row of the folder may have been
    written all the same. *)
Theorem addFolder_without_model (fs : FileSystem) (collection path : string) (s : Database) :
  llm_model (m_embLLM s) = EmptyString ->
  exists s',
    addFolder fs collection path s = Some (tt, s') /\
    collections (m_db s') = collections (m_db s) /\
    documents (m_db s') = documents (m_db s) /\
    chunks (m_db s') = chunks (m_db s) /\
    m_collectionMap s' = m_collectionMap s /\
    m_docsToScan s' = m_docsToScan s /\
    m_watcher s' = m_watcher s /\
    m_scanTimer s' = m_scanTimer s.
Proof.
  intros Hmodel. destruct (total_addFolder fs collection path s) as ([] & s' & E).
  exists s'. split; [exact E|].
  assert (H : beside_folders s' = beside_folders s).
  { unfold addFolder in E.
    apply bind_Some in E as (folder_id & s1 & E1 & E).
    pose proof (checkAndAddFolderToDB_beside_folders fs path _ s _ s1 E1 eq_refl) as H1.
    destruct (folder_id =? -1); [inversion E; subst; exact H1|].
    apply bind_Some in E as ([ok folders] & s2 & E2 & E).
    pose proof (selectFoldersFromCollection_beside_folders _ _ _ s1 _ s2 E2 H1) as H2.
    destruct (negb ok); [inversion E; subst; exact H2|].
    apply bind_Some in E as (model & s3 & E3 & E). inversion E3; subst.
    assert (Hm : llm_model (m_embLLM s3) = EmptyString).
    { unfold beside_folders in H2. injection H2 as _ _ _ _ _ _ _ _ ->. exact Hmodel. }
    rewrite Hm in E. inversion E; subst. exact H2. }
  unfold beside_folders in H. injection H as -> -> -> _ -> -> -> -> _.
  split_and!; reflexivity.
Qed.

Lemma addFolder_without_model_witness :
  llm_model (m_embLLM (with_embLLM (fun _ => mkEmbeddingLLM "" [])
                         (sample_state (mkDB [] [] [] [] [] 0) empty_index [] [] 100)))
    = EmptyString /\
  exists s',
    addFolder unchanged_fs "C" "/a/a.txt"
      (with_embLLM (fun _ => mkEmbeddingLLM "" [])
         (sample_state (mkDB [] [] [] [] [] 0) empty_index [] [] 100)) = Some (tt, s') /\
    collections (m_db s') = [] /\
    documents (m_db s') = [] /\
    chunks (m_db s') = [] /\
    m_collectionMap s' = {[1 := sample_item]} /\
    m_docsToScan s' = ∅ /\
    m_watcher s' = ["/a"] /\
    m_scanTimer s' = false.
Proof.
  split; [reflexivity|].
  apply (addFolder_without_model unchanged_fs "C" "/a/a.txt"
           (with_embLLM (fun _ => mkEmbeddingLLM "" [])
              (sample_state (mkDB [] [] [] [] [] 0) empty_index [] [] 100))).
  reflexivity.
Defined.

(** ** [addFolder] *)

Lemma containsFolderId_folders_of_collection collection folder_id db :
  (exists f, In f (folders db) /\ bindId (f_id f) = folder_id) ->
  containsFolderId (folders_of_collection collection db) folder_id
    = existsb (is_collection collection folder_id) (collections db).
Proof.
  intros (f & Hin & Hid). unfold containsFolderId, folders_of_collection.
  induction (collections db) as [|k ks IH]; [reflexivity|].
  cbn [List.filter existsb]. unfold is_collection at 1.
  destruct (String.eqb (k_collection_name k) collection); cbn [andb]; [|exact IH].
  rewrite bind_cons, existsb_app, IH. f_equal.
  destruct (k_folder_id k =? folder_id) eqn:Ek.
  - apply Z.eqb_eq in Ek. apply existsb_exists. exists (bindId (f_id f), f_folder_path f).
    split; [|apply Z.eqb_eq; exact Hid].
    apply list_elem_of_In, list_elem_of_bind. exists f. split; [apply list_elem_of_here|].
    apply list_elem_of_In, filter_In. split; [exact Hin|]. apply Z.eqb_eq. congruence.
  - apply not_true_is_false. intros ([id p] & Hp & Hfid)%existsb_exists.
    apply list_elem_of_In, list_elem_of_bind in Hp as (f' & Hp & Hf').
    apply list_elem_of_In, filter_In in Hf' as [_ Hf'].
    apply list_elem_of_singleton in Hp. injection Hp as -> ->.
    apply Z.eqb_eq in Hf', Hfid. cbn in Hfid. apply Z.eqb_neq in Ek. congruence.
Qed.

Lemma folder_of_path_In path db folder_id :
  folder_of_path path db = Some folder_id ->
  exists f, In f (folders db) /\ bindId (f_id f) = folder_id.
Proof.
  unfold folder_of_path.
  destruct (List.filter _ _) as [|f l] eqn:E; [discriminate|]. intros [= <-].
  exists f. split; [|reflexivity].
  assert (H : In f (List.filter (fun f => String.eqb (f_folder_path f) path) (folders db))).
  { rewrite E. left. reflexivity. }
  apply filter_In in H. apply H.
Qed.

Lemma selectFoldersFromCollection_ok name l s :
  m_faults s = [] ->
  selectFoldersFromCollection name l s
    = Some ((true, l ++ folders_of_collection name (m_db s)), s).
Proof. intros H. unfold selectFoldersFromCollection. run_ok H. Qed.

Lemma addFolderToWatch_watches path s :
  exists r s',
    addFolderToWatch path s = Some (r, s') /\ In path (m_watcher s') /\
    m_db s' = m_db s /\ m_faults s' = m_faults s /\ m_docsToScan s' = m_docsToScan s /\
    m_scanTimer s' = m_scanTimer s.
Proof.
  unfold addFolderToWatch, mbind, M_bind, gets, modify, mret, M_ret. cbv beta iota.
  destruct (existsb (String.eqb path) (m_watcher s)) eqn:E.
  - eexists _, _. split; [reflexivity|]. split_and!; try reflexivity.
    apply existsb_exists in E as (p & Hp & ->%String.eqb_eq). exact Hp.
  - eexists _, _. split; [reflexivity|]. split_and!; try reflexivity.
    cbn. apply in_or_app. right. left. reflexivity.
Qed.

Lemma scanDocuments_loop_watcher fs folder_id path entries : forall infos,
  keeps (fun s => In path (m_watcher s)) (scanDocuments_loop fs folder_id entries infos).
Proof.
  induction entries as [|entry rest IH]; intros infos; simpl; keeps_tac; try apply IH.
  apply keeps_modify. intros s Hs. cbn. apply in_or_app. left. exact Hs.
Qed.

Lemma scanDocuments_watcher fs folder_id path folder_path :
  keeps (fun s => In path (m_watcher s)) (scanDocuments fs folder_id folder_path).
Proof.
  unfold scanDocuments. apply keeps_bind; [apply scanDocuments_loop_watcher|].
  intros infos. assert (Hall : forall l, keeps (fun s => In path (m_watcher s)) (enqueueAll l)).
  { induction l as [|? ? IH]; simpl; keeps_tac. }
  destruct infos; keeps_tac.
Qed.

(** X18. When no statement fails and there is an embedding model, [addFolder] of
    a folder that exists and can be read leaves the folder with a row, in
    the collection, and watched, and its documents at the back of its scan
    queue: the collection row is written unless the folder was in the
    collection already, with the name of the model and without the force
    flag; no document row and no chunk is touched. *)
Theorem addFolder_registers_watches_and_scans (fs : FileSystem) (collection path : string)
    (s : Database) :
  m_faults s = [] ->
  exists_ (stat fs (mkFileInfo path None)) = true ->
  isReadable (stat fs (mkFileInfo path None)) = true ->
  Text.isEmpty (llm_model (m_embLLM s)) = false ->
  exists folder_id s',
    addFolder fs collection path s = Some (tt, s') /\
    folder_of_path path (m_db s') = Some folder_id /\
    existsb (is_collection collection folder_id) (collections (m_db s')) = true /\
    collections (m_db s')
      = (if existsb (is_collection collection folder_id) (collections (m_db s))
         then collections (m_db s)
         else collections (m_db s)
                ++ [mkCollection collection folder_id 0 (llm_model (m_embLLM s)) false]) /\
    In path (m_watcher s') /\
    documents (m_db s') = documents (m_db s) /\
    chunks (m_db s') = chunks (m_db s) /\
    (forall k, k <> folder_id -> m_docsToScan s' !! k = m_docsToScan s !! k) /\
    match documents_found fs folder_id path with
    | [] => m_docsToScan s' = m_docsToScan s
    | found =>
        m_docsToScan s' !! folder_id
          = Some (default [] (m_docsToScan s !! folder_id) ++ found)
    end.
Proof.
  intros H He Hr Hmodel.
  destruct (checkAndAddFolderToDB_run fs path s H He Hr)
    as (folder_id & s1 & E1 & Hid & Hf1 & Hs1 & _).
  assert (F1 : m_faults s1 = [] /\ m_embLLM s1 = m_embLLM s /\
               collections (m_db s1) = collections (m_db s) /\
               documents (m_db s1) = documents (m_db s) /\
               chunks (m_db s1) = chunks (m_db s) /\
               m_docsToScan s1 = m_docsToScan s).
  { destruct (folder_of_path path (m_db s)).
    - subst s1. split_and!; [exact H | reflexivity..].
    - destruct Hs1 as (p & _ & _ & ->). split_and!; [exact H | reflexivity..]. }
  destruct F1 as (Hfaults1 & Hllm1 & Hcoll1 & Hdocs1 & Hchunks1 & Hqueue1).
  exists folder_id. unfold addFolder. rewrite (bind_run _ _ _ _ _ E1).
  replace (folder_id =? -1) with false by (symmetry; apply Z.eqb_neq; exact Hid).
  rewrite (bind_run _ _ _ _ _ (selectFoldersFromCollection_ok collection [] s1 Hfaults1)).
  cbn [negb app].
  rewrite (bind_run _ _ s1 (llm_model (m_embLLM s1)) s1 eq_refl).
  rewrite Hllm1, Hmodel.
  rewrite (containsFolderId_folders_of_collection _ _ _ (folder_of_path_In _ _ _ Hf1)).
  rewrite Hcoll1.
  destruct (existsb (is_collection collection folder_id) (collections (m_db s))) eqn:Ein.
  - (* the folder is in the collection *)
    cbn [negb]. rewrite (bind_run _ _ s1 true s1 eq_refl). cbn [negb].
    destruct (addFolderToWatch_watches path s1) as (r & s2 & E2 & Hw2 & Hdb2 & Hfa2 & Hq2 & _).
    rewrite (bind_run _ _ _ _ _ E2).
    destruct (scanDocuments_run fs folder_id path s2) as (s' & E3 & Hdb3 & _ & Hother3 & Hthis3).
    exists s'. split; [exact E3|].
    pose proof (scanDocuments_watcher fs folder_id path path s2 tt s' E3 Hw2) as Hw3.
    rewrite Hdb3, Hdb2. split_and!; try assumption.
    + rewrite Hcoll1. exact Ein.
    + intros k Hk. rewrite (Hother3 k Hk). congruence.
    + destruct (documents_found fs folder_id path).
      * destruct Hthis3 as [-> _]. congruence.
      * destruct Hthis3 as [-> _]. rewrite Hq2, Hqueue1. reflexivity.
  - (* the collection row is written *)
    cbn [negb].
    assert (E2 : addCollection collection folder_id 0 (llm_model (m_embLLM s)) false s1
                 = Some (true,
                         with_db (with_collections
                                    (collections (m_db s) ++
                                     [mkCollection collection folder_id 0
                                        (llm_model (m_embLLM s)) false])) s1)).
    { unfold addCollection. run_ok Hfaults1. rewrite Hcoll1, Ein. reflexivity. }
    erewrite (bind_run _ _ s1); cycle 1.
    { rewrite (bind_run _ _ _ _ _ E2). cbn [negb].
      unfold addGuiCollectionItem.
      match goal with
      | |- (modify ?f ≫= _) ?s2 = _ => rewrite (bind_run _ _ s2 tt (f s2) eq_refl)
      end.
      reflexivity. }
    cbn [negb].
    match goal with
    | |- context [(addFolderToWatch path ≫= _) ?s2] =>
        destruct (addFolderToWatch_watches path s2)
          as (r & s3 & E3 & Hw3 & Hdb3 & Hfa3 & Hq3 & _)
    end.
    rewrite (bind_run _ _ _ _ _ E3).
    destruct (scanDocuments_run fs folder_id path s3) as (s' & E4 & Hdb4 & _ & Hother4 & Hthis4).
    exists s'. split; [exact E4|].
    pose proof (scanDocuments_watcher fs folder_id path path s3 tt s' E4 Hw3) as Hw4.
    rewrite Hdb4, Hdb3.
    cbn [m_db with_db with_collectionMap collections with_collections documents chunks
         m_docsToScan folders] in *.
    split_and!; try assumption.
    + rewrite existsb_app. cbn [existsb]. unfold is_collection at 2.
      cbn [k_collection_name k_folder_id]. rewrite String.eqb_refl, Z.eqb_refl.
      apply orb_true_iff. right. reflexivity.
    + reflexivity.
    + intros k Hk. rewrite (Hother4 k Hk). congruence.
    + destruct (documents_found fs folder_id path).
      * destruct Hthis4 as [-> _]. congruence.
      * destruct Hthis4 as [-> _]. rewrite Hq3, Hqueue1. reflexivity.
Qed.

(** The folder [/a] with the files [a.txt] and [notes.doc]. *)
Definition fs_with_folder : FileSystem :=
  mkFS (fun p => if String.eqb p "/a" then Some (mkFile true 0 "/a" 0 true true true "" None)
                 else if String.eqb p "/a/a.txt"
                      then Some (text_file "/a/a.txt" 1000 "alpha beta")
                 else if String.eqb p "/a/notes.doc"
                      then Some (text_file "/a/notes.doc" 1000 "gamma")
                 else None)
       (fun p => if String.eqb p "/a" then ["/a/notes.doc"; "/a/a.txt"] else []).

Definition empty_installation : Database :=
  mkDatabase (mkDB [] [] [] [] [] 0) None [] 100 ∅ [] ∅ empty_index
    (mkEmbeddingLLM "model" []) [] false [].

Lemma addFolder_registers_watches_and_scans_witness :
  m_faults empty_installation = [] /\
  exists_ (stat fs_with_folder (mkFileInfo "/a" None)) = true /\
  isReadable (stat fs_with_folder (mkFileInfo "/a" None)) = true /\
  Text.isEmpty (llm_model (m_embLLM empty_installation)) = false /\
  documents_found fs_with_folder 1 "/a"
    = [mkDocumentInfo 1 (stat fs_with_folder (mkFileInfo "/a/a.txt" None)) 0 0 false] /\
  exists folder_id s',
    addFolder fs_with_folder "C" "/a" empty_installation = Some (tt, s') /\
    folder_of_path "/a" (m_db s') = Some folder_id /\
    existsb (is_collection "C" folder_id) (collections (m_db s')) = true /\
    collections (m_db s')
      = (if existsb (is_collection "C" folder_id) (collections (m_db empty_installation))
         then collections (m_db empty_installation)
         else collections (m_db empty_installation)
                ++ [mkCollection "C" folder_id 0 (llm_model (m_embLLM empty_installation))
                      false]) /\
    In "/a" (m_watcher s') /\
    documents (m_db s') = documents (m_db empty_installation) /\
    chunks (m_db s') = chunks (m_db empty_installation) /\
    (forall k, k <> folder_id ->
       m_docsToScan s' !! k = m_docsToScan empty_installation !! k) /\
    match documents_found fs_with_folder folder_id "/a" with
    | [] => m_docsToScan s' = m_docsToScan empty_installation
    | found =>
        m_docsToScan s' !! folder_id
          = Some (default [] (m_docsToScan empty_installation !! folder_id) ++ found)
    end.
Proof.
  split_and!.
  - reflexivity.
  - reflexivity.
  - reflexivity.
  - reflexivity.
  - vm_compute. reflexivity.
  - apply (addFolder_registers_watches_and_scans fs_with_folder "C" "/a" empty_installation);
      reflexivity.
Defined.

(** ** [cleanDB] *)

Lemma selectAllFromCollections_ok l s :
  m_faults s = [] ->
  selectAllFromCollections l s = Some ((true, l ++ all_collections (m_db s)), s).
Proof. intros H. unfold selectAllFromCollections. run_ok H. Qed.

Lemma cleanDB_folders_noop fs items s :
  Forall (fun i => readable fs (folder_path i) = true) items ->
  cleanDB_folders fs items s = Some (tt, s).
Proof.
  induction 1 as [|i rest Hi _ IH]; [reflexivity|].
  cbn [cleanDB_folders]. cbv zeta. unfold readable in Hi. cbv zeta in Hi.
  apply andb_true_iff in Hi as [-> ->]. cbn [negb orb].
  rewrite (bind_run _ _ s tt s eq_refl). exact IH.
Qed.

Lemma cleanDB_loop_ok fs rows : forall chunksToRemove s,
  m_faults s = [] ->
  cleanDB_loop fs rows chunksToRemove s
    = Some ((LoopDone, chunksToRemove ++ purged_chunks (missing fs rows) (m_db s)),
            with_db (purge (missing fs rows)) s).
Proof.
  induction rows as [|[document_id document_path] rest IH]; intros ctr s H.
  - simpl. rewrite app_nil_r. destruct s; reflexivity.
  - cbn [cleanDB_loop]. cbv zeta. unfold missing. cbn [List.filter snd].
    fold (readable fs document_path).
    destruct (readable fs document_path) eqn:Er; cbn [negb].
    + apply IH, H.
    + rewrite (bind_run _ _ _ _ _ (getChunksByDocumentId_ok document_id ctr s H)). simpl.
      rewrite (bind_run _ _ _ _ _ (removeChunksByDocumentId_ok document_id s H)). simpl.
      rewrite (bind_run _ _ _ _ _ (removeDocument_ok document_id (with_db _ s) H)). simpl.
      fold (missing fs rest).
      rewrite (IH _ (with_db _ (with_db _ s)) H). simpl. rewrite <- app_assoc. reflexivity.
Qed.

Lemma updateCollectionStatistics_store (d : DB) :
  keeps (fun s => m_db s = d) updateCollectionStatistics.
Proof.
  assert (Hexec : keeps (fun s => m_db s = d) exec).
  { intros s a s' E Hs. unfold exec in E.
    destruct (m_faults s); injection E as _ <-; exact Hs. }
  assert (Hloop : forall l, keeps (fun s => m_db s = d) (statistics_loop l)).
  { induction l as [|? ? IH]; simpl; keeps_tac. }
  unfold updateCollectionStatistics. keeps_tac.
Qed.

Lemma updateCollectionStatistics_run s :
  exists s',
    updateCollectionStatistics s = Some (tt, s') /\
    m_db s' = m_db s /\ m_embeddings s' = m_embeddings s /\ m_txn s' = m_txn s /\
    m_log s' = m_log s.
Proof.
  destruct (total_updateCollectionStatistics s) as ([] & s' & E).
  exists s'. split; [exact E|].
  pose proof (updateCollectionStatistics_store (m_db s) s tt s' E eq_refl) as Hdb.
  pose proof (updateCollectionStatistics_silent s tt s' E) as Hframe.
  unfold frame in Hframe. injection Hframe as Hl He Ht. auto.
Qed.

Lemma missing_complete fs db d :
  In d (documents db) -> readable fs (d_document_path d) = false ->
  in_list (bindId (d_id d)) (missing fs (all_documents db)) = true.
Proof.
  intros Hin Hr. unfold in_list. apply existsb_exists. exists (bindId (d_id d)).
  split; [|apply Z.eqb_refl]. unfold missing, all_documents.
  apply (in_map fst _ (bindId (d_id d), d_document_path d)).
  apply filter_In. split.
  - apply (in_map (fun d => (bindId (d_id d), d_document_path d))), Hin.
  - cbn [snd]. rewrite Hr. reflexivity.
Qed.

Lemma cleanDB_run fs s :
  m_faults s = [] ->
  Forall (fun i => readable fs (folder_path i) = true) (all_collections (m_db s)) ->
  exists s',
    cleanDB fs s = Some (tt, s') /\
    m_db s' = purge (missing fs (all_documents (m_db s))) (m_db s) /\
    m_embeddings s'
      = replay (apply_removals
                  (purged_chunks (missing fs (all_documents (m_db s))) (m_db s)))
          (m_embeddings s) /\
    m_txn s' = None.
Proof.
  intros H Hfolders. unfold cleanDB.
  rewrite (bind_run _ _ _ _ _ (selectAllFromCollections_ok [] s H)). cbn [negb app].
  rewrite (bind_run _ _ _ _ _ (cleanDB_folders_noop fs _ s Hfolders)).
  rewrite (bind_run _ _ _ _ _ (exec_ok s H)). cbn [negb].
  rewrite (bind_run _ _ s (all_documents (m_db s)) s eq_refl).
  set (s1 := with_log (fun l => l ++ [EvTransaction]) (with_txn (Some (m_db s)) s)).
  rewrite (bind_run transaction _ s tt s1 eq_refl).
  rewrite (bind_run _ _ _ _ _ (cleanDB_loop_ok fs (all_documents (m_db s)) [] s1 H)).
  cbn [app]. change (m_db s1) with (m_db s).
  set (cs := purged_chunks (missing fs (all_documents (m_db s))) (m_db s)).
  rewrite (bind_run _ _ _ _ _ (removeAll_ok cs _)).
  match goal with
  | |- context [(commit ≫= _) ?s2] =>
      rewrite (bind_run commit _ s2 tt
                 (with_log (fun l => l ++ [EvCommit]) (with_txn None s2)) eq_refl)
  end.
  match goal with
  | |- context [(_ ≫= fun _ => updateCollectionStatistics) ?s3] =>
      assert (Hsave : exists s4,
                 (match cs with [] => skip | _ => Embeddings_save_M end) s3 = Some (tt, s4) /\
                 m_db s4 = purge (missing fs (all_documents (m_db s))) (m_db s) /\
                 m_embeddings s4 = replay (apply_removals cs) (m_embeddings s) /\
                 m_txn s4 = None)
  end.
  { unfold apply_removals. rewrite replay_app.
    destruct cs; eexists; (split; [reflexivity|]); split_and!; reflexivity. }
  destruct Hsave as (s4 & E4 & Hdb4 & Hx4 & Ht4).
  rewrite (bind_run _ _ _ _ _ E4).
  destruct (updateCollectionStatistics_run s4) as (s' & E & Hdb & Hx & Ht & _).
  exists s'. split; [exact E|]. split_and!; congruence.
Qed.

Lemma purged_chunks_sound ds : forall db id,
  In id (purged_chunks ds db) ->
  exists c, In c (chunks db) /\ in_list (c_document_id c) ds = true /\
            bindId (c_chunk_id c) = id.
Proof.
  induction ds as [|d ds IH]; intros db id Hin; [destruct Hin|].
  simpl in Hin. apply in_app_or in Hin as [Hin|Hin].
  - unfold chunks_of_document in Hin. apply in_map_iff in Hin as (c & Hid & Hc).
    apply filter_In in Hc as [Hc Hd]. exists c. rewrite in_list_cons, Hd. auto.
  - apply IH in Hin as (c & Hc & Hds & Hid). simpl in Hc.
    apply filter_In in Hc as [Hc _]. exists c. rewrite in_list_cons, Hds, orb_true_r. auto.
Qed.

Lemma foldl_delete_other cs : forall (m : gmap Z embedding) id,
  ~ In id cs -> foldl (fun m c => delete c m) m cs !! id = m !! id.
Proof.
  induction cs as [|c cs IH]; intros m id H; [reflexivity|].
  simpl. rewrite IH by (intros Hin; apply H; right; exact Hin).
  apply lookup_delete_ne. intros ->. apply H. left. reflexivity.
Qed.

Lemma replay_apply_removals_other cs x id :
  ~ In id cs -> e_index (replay (apply_removals cs) x) !! id = e_index x !! id.
Proof.
  intros Hout. destruct cs as [|c cs]; [reflexivity|].
  assert (E : replay (apply_removals (c :: cs)) x
              = Embeddings_save (replay (map EvVectorRemove (c :: cs)) x)).
  { unfold apply_removals. rewrite replay_app. reflexivity. }
  rewrite E. cbn [Embeddings_save e_index].
  rewrite replay_removals_index. apply foldl_delete_other, Hout.
Qed.

Lemma replay_apply_removals_saved cs x :
  cs <> [] ->
  e_file (replay (apply_removals cs) x) = e_index (replay (apply_removals cs) x).
Proof.
  intros Hcs. destruct cs as [|c cs]; [congruence|].
  unfold apply_removals. rewrite replay_app. reflexivity.
Qed.

(** The vector index after the chunks of the documents [ds] were purged. *)
Lemma purged_index ds db x :
  (forall id,
     (forall c, In c (chunks db) -> in_list (c_document_id c) ds = true ->
        bindId (c_chunk_id c) <> id) ->
     e_index (replay (apply_removals (purged_chunks ds db)) x) !! id = e_index x !! id) /\
  ((forall c, In c (chunks db) -> in_list (c_document_id c) ds = false) ->
   replay (apply_removals (purged_chunks ds db)) x = x) /\
  (forall c, In c (chunks db) -> in_list (c_document_id c) ds = true ->
     e_file (replay (apply_removals (purged_chunks ds db)) x)
       = e_index (replay (apply_removals (purged_chunks ds db)) x)).
Proof.
  split_and!.
  - intros id Hid. apply replay_apply_removals_other.
    intros (c & Hc & Hds & Hc')%purged_chunks_sound. exact (Hid c Hc Hds Hc').
  - intros Hnone. destruct (purged_chunks ds db) as [|id cs] eqn:E; [reflexivity|].
    assert (Hin : In id (purged_chunks ds db)) by (rewrite E; left; reflexivity).
    apply purged_chunks_sound in Hin as (c & Hc & Hds & _).
    rewrite (Hnone c Hc) in Hds. discriminate.
  - intros c Hc Hds. apply replay_apply_removals_saved.
    intros E. pose proof (purged_chunks_complete ds db c Hc Hds) as Hin.
    rewrite E in Hin. destruct Hin.
Qed.

Lemma NoDup_map_eq {A B : Type} (f : A -> B) (l : list A) (x y : A) :
  List.NoDup (map f l) -> In x l -> In y l -> f x = f y -> x = y.
Proof.
  induction l as [|a l IH]; intros Hnd Hx Hy Hf; [destruct Hx|].
  cbn [map] in Hnd. apply List.NoDup_cons_iff in Hnd as [Ha Hnd].
  destruct Hx as [->|Hx], Hy as [->|Hy].
  - reflexivity.
  - destruct Ha. rewrite Hf. apply in_map, Hy.
  - destruct Ha. rewrite <- Hf. apply in_map, Hx.
  - exact (IH Hnd Hx Hy Hf).
Qed.

Lemma missing_sound fs db d :
  List.NoDup (map d_id (documents db)) ->
  In d (documents db) ->
  in_list (bindId (d_id d)) (missing fs (all_documents db)) = true ->
  readable fs (d_document_path d) = false.
Proof.
  intros Hnd Hin Hm. unfold in_list in Hm. apply existsb_exists in Hm as (id & Hid & E).
  apply Z.eqb_eq in E. subst id. unfold missing in Hid.
  apply in_map_iff in Hid as ([id path] & Hfst & Hrow). cbn [fst] in Hfst. subst id.
  apply filter_In in Hrow as [Hrow Hr]. cbn [snd] in Hr.
  unfold all_documents in Hrow. apply in_map_iff in Hrow as (d' & Hd' & Hin').
  injection Hd' as Hid <-.
  assert (d' = d) as ->.
  { apply (NoDup_map_eq d_id (documents db)); assumption. }
  apply negb_true_iff, Hr.
Qed.

(** X19. When no statement fails and the folders of the collections are all
    there, [cleanDB] deletes the document rows whose id is the id of a row
    whose file is gone or cannot be read (with ids that are unique: the rows
    whose file is gone or cannot be read, and no other), the chunks and the
    full-text rows of these documents, and the vectors of these chunks, and
    nothing else: the tables [documents], [chunks] and [chunks_fts] are
    what they were without these rows, the vector of every other chunk id
    is in the index as before, the index is saved when a chunk was deleted
    and is untouched when none was, the deleted chunks have no vector in
    the index nor in its file, folders and collections are left alone, and
    no transaction is open. *)
Theorem cleanDB_removes_missing_documents (fs : FileSystem) (s : Database) :
  m_faults s = [] ->
  Forall (fun i => readable fs (folder_path i) = true) (all_collections (m_db s)) ->
  exists s',
    cleanDB fs s = Some (tt, s') /\
    (forall d, In d (documents (m_db s')) ->
       In d (documents (m_db s)) /\ readable fs (d_document_path d) = true) /\
    (forall c, In c (chunks (m_db s')) ->
       In c (chunks (m_db s)) /\
       in_list (c_document_id c) (missing fs (all_documents (m_db s))) = false) /\
    (forall c, In c (chunks (m_db s)) ->
       in_list (c_document_id c) (missing fs (all_documents (m_db s))) = true ->
       ~ In c (chunks (m_db s')) /\
       e_index (m_embeddings s') !! bindId (c_chunk_id c) = None /\
       e_file (m_embeddings s') !! bindId (c_chunk_id c) = None) /\
    folders (m_db s') = folders (m_db s) /\
    collections (m_db s') = collections (m_db s) /\
    m_txn s' = None /\
    documents (m_db s')
      = List.filter
          (fun d => negb (in_list (bindId (d_id d)) (missing fs (all_documents (m_db s)))))
          (documents (m_db s)) /\
    (List.NoDup (map d_id (documents (m_db s))) ->
     documents (m_db s')
       = List.filter (fun d => readable fs (d_document_path d)) (documents (m_db s))) /\
    chunks (m_db s')
      = List.filter
          (fun c => negb (in_list (c_document_id c) (missing fs (all_documents (m_db s)))))
          (chunks (m_db s)) /\
    chunks_fts (m_db s')
      = List.filter
          (fun t => negb (in_list (t_document_id t) (missing fs (all_documents (m_db s)))))
          (chunks_fts (m_db s)) /\
    (forall id,
       (forall c, In c (chunks (m_db s)) ->
          in_list (c_document_id c) (missing fs (all_documents (m_db s))) = true ->
          bindId (c_chunk_id c) <> id) ->
       e_index (m_embeddings s') !! id = e_index (m_embeddings s) !! id) /\
    ((forall c, In c (chunks (m_db s)) ->
        in_list (c_document_id c) (missing fs (all_documents (m_db s))) = false) ->
     m_embeddings s' = m_embeddings s) /\
    (forall c, In c (chunks (m_db s)) ->
       in_list (c_document_id c) (missing fs (all_documents (m_db s))) = true ->
       e_file (m_embeddings s') = e_index (m_embeddings s')).
Proof.
  intros H Hfolders.
  destruct (cleanDB_run fs s H Hfolders) as (s' & E & Hdb & Hx & Ht).
  exists s'. split; [exact E|].
  destruct (purge_tables (missing fs (all_documents (m_db s))) (m_db s))
    as (Hd & Hc & Hfts & Hf & Hk).
  destruct (purged_index (missing fs (all_documents (m_db s))) (m_db s) (m_embeddings s))
    as (Hother & Hnone & Hsaved).
  rewrite Hdb, Hx, Hd, Hc, Hfts, Hf, Hk.
  split_and!; try reflexivity; try assumption.
  - intros d [Hin Hkeep]%filter_In. split; [exact Hin|].
    destruct (readable fs (d_document_path d)) eqn:Er; [reflexivity|].
    rewrite (missing_complete fs _ d Hin Er) in Hkeep. discriminate.
  - intros c [Hin Hkeep]%filter_In. split; [exact Hin|].
    apply negb_true_iff, Hkeep.
  - intros c Hin Hgone. split.
    + intros [_ Hkeep]%filter_In. rewrite Hgone in Hkeep. discriminate.
    + apply replay_apply_removals, purged_chunks_complete; assumption.
  - intros Hnd. apply List.filter_ext_in. intros d Hin.
    destruct (readable fs (d_document_path d)) eqn:Er.
    + destruct (in_list _ _) eqn:Em; [|reflexivity].
      rewrite (missing_sound fs _ d Hnd Hin Em) in Er. discriminate.
    + rewrite (missing_complete fs _ d Hin Er). reflexivity.
Qed.

(** The folder [/a] after its file [a.txt] was deleted. *)
Definition fs_with_empty_folder : FileSystem :=
  mkFS (fun p => if String.eqb p "/a" then Some (mkFile true 0 "/a" 0 true true true "" None)
                 else None)
       (fun _ => []).

Lemma cleanDB_removes_missing_documents_witness :
  m_faults state_with_sample_folder = [] /\
  Forall (fun i => readable fs_with_empty_folder (folder_path i) = true)
         (all_collections (m_db state_with_sample_folder)) /\
  missing fs_with_empty_folder (all_documents (m_db state_with_sample_folder)) = [1] /\
  List.NoDup (map d_id (documents (m_db state_with_sample_folder))) /\
  exists s',
    cleanDB fs_with_empty_folder state_with_sample_folder = Some (tt, s') /\
    (forall d, In d (documents (m_db s')) ->
       In d (documents (m_db state_with_sample_folder)) /\
       readable fs_with_empty_folder (d_document_path d) = true) /\
    (forall c, In c (chunks (m_db s')) ->
       In c (chunks (m_db state_with_sample_folder)) /\
       in_list (c_document_id c)
         (missing fs_with_empty_folder (all_documents (m_db state_with_sample_folder)))
         = false) /\
    (forall c, In c (chunks (m_db state_with_sample_folder)) ->
       in_list (c_document_id c)
         (missing fs_with_empty_folder (all_documents (m_db state_with_sample_folder)))
         = true ->
       ~ In c (chunks (m_db s')) /\
       e_index (m_embeddings s') !! bindId (c_chunk_id c) = None /\
       e_file (m_embeddings s') !! bindId (c_chunk_id c) = None) /\
    folders (m_db s') = folders (m_db state_with_sample_folder) /\
    collections (m_db s') = collections (m_db state_with_sample_folder) /\
    m_txn s' = None /\
    documents (m_db s')
      = List.filter
          (fun d => negb (in_list (bindId (d_id d))
                            (missing fs_with_empty_folder
                               (all_documents (m_db state_with_sample_folder)))))
          (documents (m_db state_with_sample_folder)) /\
    (List.NoDup (map d_id (documents (m_db state_with_sample_folder))) ->
     documents (m_db s')
       = List.filter (fun d => readable fs_with_empty_folder (d_document_path d))
           (documents (m_db state_with_sample_folder))) /\
    chunks (m_db s')
      = List.filter
          (fun c => negb (in_list (c_document_id c)
                            (missing fs_with_empty_folder
                               (all_documents (m_db state_with_sample_folder)))))
          (chunks (m_db state_with_sample_folder)) /\
    chunks_fts (m_db s')
      = List.filter
          (fun t => negb (in_list (t_document_id t)
                            (missing fs_with_empty_folder
                               (all_documents (m_db state_with_sample_folder)))))
          (chunks_fts (m_db state_with_sample_folder)) /\
    (forall id,
       (forall c, In c (chunks (m_db state_with_sample_folder)) ->
          in_list (c_document_id c)
            (missing fs_with_empty_folder (all_documents (m_db state_with_sample_folder)))
            = true ->
          bindId (c_chunk_id c) <> id) ->
       e_index (m_embeddings s') !! id
         = e_index (m_embeddings state_with_sample_folder) !! id) /\
    ((forall c, In c (chunks (m_db state_with_sample_folder)) ->
        in_list (c_document_id c)
          (missing fs_with_empty_folder (all_documents (m_db state_with_sample_folder)))
          = false) ->
     m_embeddings s' = m_embeddings state_with_sample_folder) /\
    (forall c, In c (chunks (m_db state_with_sample_folder)) ->
       in_list (c_document_id c)
         (missing fs_with_empty_folder (all_documents (m_db state_with_sample_folder)))
         = true ->
       e_file (m_embeddings s') = e_index (m_embeddings s')).
Proof.
  assert (H : m_faults state_with_sample_folder = []) by reflexivity.
  assert (Hfolders : Forall (fun i => readable fs_with_empty_folder (folder_path i) = true)
                       (all_collections (m_db state_with_sample_folder))).
  { vm_compute. repeat constructor. }
  split; [exact H|]. split; [exact Hfolders|]. split; [vm_compute; reflexivity|].
  split; [repeat constructor; intros []|].
  exact (cleanDB_removes_missing_documents fs_with_empty_folder state_with_sample_folder
           H Hfolders).
Defined.

(** ** [changeChunkSize] *)

Lemma changeChunkSize_loop_ok rows : forall chunksToRemove s,
  m_faults s = [] ->
  changeChunkSize_loop rows chunksToRemove s
    = Some ((true, chunksToRemove ++ purged_chunks (map fst rows) (m_db s)),
            with_db (purge (map fst rows)) s).
Proof.
  induction rows as [|[document_id document_path] rest IH]; intros ctr s H.
  - simpl. rewrite app_nil_r. destruct s; reflexivity.
  - cbn [changeChunkSize_loop map fst].
    rewrite (bind_run _ _ _ _ _ (getChunksByDocumentId_ok document_id ctr s H)). simpl.
    rewrite (bind_run _ _ _ _ _ (removeChunksByDocumentId_ok document_id s H)). simpl.
    rewrite (bind_run _ _ _ _ _ (removeDocument_ok document_id (with_db _ s) H)). simpl.
    rewrite (IH _ (with_db _ (with_db _ s)) H). simpl. rewrite <- app_assoc. reflexivity.
Qed.

(** What a scan of the folders leaves alone. *)
Definition beside_scan (s : Database) :=
  (documents (m_db s), chunks (m_db s), chunks_fts (m_db s), m_embeddings s, m_chunkSize s,
   m_txn s).

Lemma addCurrentFolders_beside_scan fs v :
  keeps (fun s => beside_scan s = v) (addCurrentFolders fs).
Proof.
  assert (Hexec : keeps (fun s => beside_scan s = v) exec).
  { intros s a s' E Hs. unfold exec in E.
    destruct (m_faults s); injection E as _ <-; exact Hs. }
  assert (Hcheck : forall path, keeps (fun s => beside_scan s = v)
                                  (checkAndAddFolderToDB fs path)).
  { intros path. unfold checkAndAddFolderToDB. keeps_tac. }
  assert (Hall : forall l, keeps (fun s => beside_scan s = v) (enqueueAll l)).
  { induction l as [|? ? IH]; simpl; keeps_tac. }
  assert (Hscan : forall folder_id entries infos,
             keeps (fun s => beside_scan s = v)
               (scanDocuments_loop fs folder_id entries infos)).
  { intros folder_id entries. induction entries as [|? ? IH]; intros infos; simpl;
      keeps_tac; try apply IH. }
  assert (Hstat : forall l, keeps (fun s => beside_scan s = v) (statistics_loop l)).
  { induction l as [|? ? IH]; simpl; keeps_tac. }
  assert (Hloop : forall l, keeps (fun s => beside_scan s = v) (addCurrentFolders_loop fs l)).
  { induction l as [|? ? IH]; simpl; keeps_tac. }
  unfold addCurrentFolders. keeps_tac.
Qed.

Lemma updateCollectionStatistics_beside_scan v :
  keeps (fun s => beside_scan s = v) updateCollectionStatistics.
Proof.
  assert (Hexec : keeps (fun s => beside_scan s = v) exec).
  { intros s a s' E Hs. unfold exec in E.
    destruct (m_faults s); injection E as _ <-; exact Hs. }
  assert (Hstat : forall l, keeps (fun s => beside_scan s = v) (statistics_loop l)).
  { induction l as [|? ? IH]; simpl; keeps_tac. }
  unfold updateCollectionStatistics. keeps_tac.
Qed.

Lemma purge_every_document db :
  documents (purge (map fst (all_documents db)) db) = [].
Proof.
  destruct (purge_tables (map fst (all_documents db)) db) as (-> & _).
  assert (H : forall d, In d (documents db) ->
                negb (in_list (bindId (d_id d)) (map fst (all_documents db))) = false).
  { intros d Hin. apply negb_false_iff. unfold in_list. apply existsb_exists.
    exists (bindId (d_id d)). split; [|apply Z.eqb_refl].
    unfold all_documents. rewrite map_map. cbn [fst].
    apply (in_map (fun d => bindId (d_id d))), Hin. }
  revert H. generalize (map fst (all_documents db)). intros ids.
  induction (documents db) as [|d ds IH]; intros H; [reflexivity|].
  cbn [List.filter]. rewrite (H d (or_introl eq_refl)). apply IH.
  intros d' Hd'. apply H. right. exact Hd'.
Qed.

Lemma changeChunkSize_run fs chunkSize s :
  m_faults s = [] ->
  chunkSize <> m_chunkSize s ->
  exists s',
    changeChunkSize fs chunkSize s = Some (tt, s') /\
    beside_scan s'
      = (documents (purge (map fst (all_documents (m_db s))) (m_db s)),
         chunks (purge (map fst (all_documents (m_db s))) (m_db s)),
         chunks_fts (purge (map fst (all_documents (m_db s))) (m_db s)),
         replay (apply_removals
                   (purged_chunks (map fst (all_documents (m_db s))) (m_db s)))
           (m_embeddings s),
         chunkSize, None).
Proof.
  intros H Hsize. unfold changeChunkSize.
  rewrite (bind_run _ _ s (m_chunkSize s) s eq_refl).
  replace (chunkSize =? m_chunkSize s) with false by (symmetry; apply Z.eqb_neq, Hsize).
  set (s0 := with_chunkSize chunkSize s).
  rewrite (bind_run (modify (with_chunkSize chunkSize)) _ s tt s0 eq_refl).
  rewrite (bind_run _ _ _ _ _ (exec_ok s0 H)). cbn [negb].
  rewrite (bind_run _ _ s0 (all_documents (m_db s)) s0 eq_refl).
  set (s1 := with_log (fun l => l ++ [EvTransaction]) (with_txn (Some (m_db s)) s0)).
  rewrite (bind_run transaction _ s0 tt s1 eq_refl).
  rewrite (bind_run _ _ _ _ _ (changeChunkSize_loop_ok (all_documents (m_db s)) [] s1 H)).
  cbn [app negb]. change (m_db s1) with (m_db s).
  set (ids := map fst (all_documents (m_db s))).
  set (cs := purged_chunks ids (m_db s)).
  rewrite (bind_run _ _ _ _ _ (removeAll_ok cs _)).
  match goal with
  | |- context [(commit ≫= _) ?s2] =>
      rewrite (bind_run commit _ s2 tt
                 (with_log (fun l => l ++ [EvCommit]) (with_txn None s2)) eq_refl)
  end.
  match goal with
  | |- context [(_ ≫= fun _ => addCurrentFolders fs ≫= _) ?s3] =>
      assert (Hsave : exists s4,
                 (match cs with [] => skip | _ => Embeddings_save_M end) s3 = Some (tt, s4) /\
                 beside_scan s4
                   = (documents (purge ids (m_db s)), chunks (purge ids (m_db s)),
                      chunks_fts (purge ids (m_db s)),
                      replay (apply_removals cs) (m_embeddings s), chunkSize, None))
  end.
  { unfold apply_removals. rewrite replay_app.
    destruct cs; eexists; (split; [reflexivity|]); reflexivity. }
  destruct Hsave as (s4 & E4 & H4).
  rewrite (bind_run _ _ _ _ _ E4).
  destruct (total_addCurrentFolders fs s4) as ([] & s5 & E5).
  rewrite (bind_run _ _ _ _ _ E5).
  destruct (total_updateCollectionStatistics s5) as ([] & s' & E).
  exists s'. split; [exact E|].
  apply (updateCollectionStatistics_beside_scan _ s5 tt s' E).
  apply (addCurrentFolders_beside_scan fs _ s4 tt s5 E5). exact H4.
Qed.

(** X20. When no statement fails, a change of the chunk size drops every
    document row with its chunks, its full-text rows and its vectors, so
    that the folders are chunked anew: the new size is set, no document row
    is left, the tables [chunks] and [chunks_fts] are what they were without
    the rows of the documents (every row that is left belongs to no
    document), the chunks of the documents have no vector in the index nor
    in its file, the vector of every other chunk id is in the index as
    before, and no transaction is open. *)
Theorem changeChunkSize_drops_every_document (fs : FileSystem) (chunkSize : Z)
    (s : Database) :
  m_faults s = [] ->
  chunkSize <> m_chunkSize s ->
  exists s',
    changeChunkSize fs chunkSize s = Some (tt, s') /\
    m_chunkSize s' = chunkSize /\
    documents (m_db s') = [] /\
    (forall c, In c (chunks (m_db s')) ->
       In c (chunks (m_db s)) /\
       in_list (c_document_id c) (map fst (all_documents (m_db s))) = false) /\
    (forall c, In c (chunks (m_db s)) ->
       in_list (c_document_id c) (map fst (all_documents (m_db s))) = true ->
       ~ In c (chunks (m_db s')) /\
       e_index (m_embeddings s') !! bindId (c_chunk_id c) = None /\
       e_file (m_embeddings s') !! bindId (c_chunk_id c) = None) /\
    m_txn s' = None /\
    chunks (m_db s')
      = List.filter
          (fun c => negb (in_list (c_document_id c) (map fst (all_documents (m_db s)))))
          (chunks (m_db s)) /\
    chunks_fts (m_db s')
      = List.filter
          (fun t => negb (in_list (t_document_id t) (map fst (all_documents (m_db s)))))
          (chunks_fts (m_db s)) /\
    (forall id,
       (forall c, In c (chunks (m_db s)) ->
          in_list (c_document_id c) (map fst (all_documents (m_db s))) = true ->
          bindId (c_chunk_id c) <> id) ->
       e_index (m_embeddings s') !! id = e_index (m_embeddings s) !! id).
Proof.
  intros H Hsize.
  destruct (changeChunkSize_run fs chunkSize s H Hsize) as (s' & E & Hs').
  exists s'. split; [exact E|].
  unfold beside_scan in Hs'. injection Hs' as Hd Hc Hfts Hx Hsz Ht.
  destruct (purge_tables (map fst (all_documents (m_db s))) (m_db s))
    as (_ & Hc' & Hfts' & _).
  destruct (purged_index (map fst (all_documents (m_db s))) (m_db s) (m_embeddings s))
    as (Hother & _).
  rewrite Hd, Hc, Hfts, Hx, Hc', Hfts', purge_every_document.
  split_and!; try reflexivity; try assumption.
  - intros c [Hin Hkeep]%filter_In. split; [exact Hin|]. apply negb_true_iff, Hkeep.
  - intros c Hin Hgone. split.
    + intros [_ Hkeep]%filter_In. rewrite Hgone in Hkeep. discriminate.
    + apply replay_apply_removals, purged_chunks_complete; assumption.
Qed.

Lemma changeChunkSize_drops_every_document_witness :
  m_faults state_with_sample_folder = [] /\
  20 <> m_chunkSize state_with_sample_folder /\
  exists s',
    changeChunkSize unchanged_fs 20 state_with_sample_folder = Some (tt, s') /\
    m_chunkSize s' = 20 /\
    documents (m_db s') = [] /\
    (forall c, In c (chunks (m_db s')) ->
       In c (chunks (m_db state_with_sample_folder)) /\
       in_list (c_document_id c) (map fst (all_documents (m_db state_with_sample_folder)))
         = false) /\
    (forall c, In c (chunks (m_db state_with_sample_folder)) ->
       in_list (c_document_id c) (map fst (all_documents (m_db state_with_sample_folder)))
         = true ->
       ~ In c (chunks (m_db s')) /\
       e_index (m_embeddings s') !! bindId (c_chunk_id c) = None /\
       e_file (m_embeddings s') !! bindId (c_chunk_id c) = None) /\
    m_txn s' = None /\
    chunks (m_db s')
      = List.filter
          (fun c => negb (in_list (c_document_id c)
                            (map fst (all_documents (m_db state_with_sample_folder)))))
          (chunks (m_db state_with_sample_folder)) /\
    chunks_fts (m_db s')
      = List.filter
          (fun t => negb (in_list (t_document_id t)
                            (map fst (all_documents (m_db state_with_sample_folder)))))
          (chunks_fts (m_db state_with_sample_folder)) /\
    (forall id,
       (forall c, In c (chunks (m_db state_with_sample_folder)) ->
          in_list (c_document_id c)
            (map fst (all_documents (m_db state_with_sample_folder))) = true ->
          bindId (c_chunk_id c) <> id) ->
       e_index (m_embeddings s') !! id
         = e_index (m_embeddings state_with_sample_folder) !! id).
Proof.
  assert (H : m_faults state_with_sample_folder = []) by reflexivity.
  assert (Hsize : 20 <> m_chunkSize state_with_sample_folder) by discriminate.
  split_and!; [exact H | exact Hsize |].
  exact (changeChunkSize_drops_every_document unchanged_fs 20 state_with_sample_folder
           H Hsize).
Defined.

(** *** The chunk size *)

Lemma chunkSize_parts (v : Z) : kept_by_parts (fun s => m_chunkSize s = v).
Proof.
  assert (Hexec : keeps (fun s => m_chunkSize s = v) exec).
  { intros s a s' E Hs. unfold exec in E.
    destruct (m_faults s); injection E as _ <-; exact Hs. }
  assert (Hdb : forall f, keeps (fun s => m_chunkSize s = v) (update_db f)).
  { intros f. apply keeps_modify. intros ? ?. assumption. }
  split; intros; try solve [keeps_tac].
Qed.

(** X21. The chunk size in use is the one of the last [changeChunkSize]: no other
    slot changes it, and [changeChunkSize] sets it before it runs its first
    statement, so that the new size stays when a statement fails and the
    documents chunked with the old size are kept. *)
Theorem chunk_size_is_the_last_one_set (fs : FileSystem) (c : slot) (s s' : Database) :
  call fs c s = Some (tt, s') ->
  m_chunkSize s'
    = match c with
      | ChangeChunkSize chunkSize => chunkSize
      | _ => m_chunkSize s
      end.
Proof.
  intros E.
  assert (HI := chunkSize_parts).
  assert (Hforce : forall v name,
             keeps (fun s => m_chunkSize s = v) (update_db (clear_force_indexing name))).
  { intros v name. apply keeps_modify. intros ? ?. assumption. }
  destruct c; simpl in E;
    try (symmetry;
         match type of E with
         | ?m s = _ =>
             assert (K : keeps (fun s0 => m_chunkSize s0 = m_chunkSize s) m)
               by first [ solve [auto with keeps]
                        | apply Database_forceIndexing_keeps; auto ]
         end;
         symmetry; exact (K s tt s' E eq_refl)).
  unfold changeChunkSize in E.
  apply bind_Some in E as (old & s0 & E0 & E). injection E0 as <- <-.
  destruct (chunkSize =? m_chunkSize s) eqn:Esame.
  - injection E as <-. apply Z.eqb_eq in Esame. symmetry. exact Esame.
  - apply bind_Some in E as ([] & s1 & E1 & E). injection E1 as <-.
    match type of E with
    | ?m _ = _ => assert (K : keeps (fun s0 => m_chunkSize s0 = chunkSize) m)
    end.
    { specialize (HI chunkSize). keeps_tac. }
    exact (K _ tt s' E eq_refl).
Qed.

(** The select of the documents fails. *)
Lemma chunk_size_is_the_last_one_set_witness :
  call unchanged_fs (ChangeChunkSize 20)
      (sample_state (sample_db ["C"]) sample_index [] [true] 10)
    = Some (tt, state_after (call unchanged_fs (ChangeChunkSize 20))
                  (sample_state (sample_db ["C"]) sample_index [] [true] 10)) /\
  m_db (state_after (call unchanged_fs (ChangeChunkSize 20))
          (sample_state (sample_db ["C"]) sample_index [] [true] 10))
    = sample_db ["C"] /\
  m_chunkSize (state_after (call unchanged_fs (ChangeChunkSize 20))
                 (sample_state (sample_db ["C"]) sample_index [] [true] 10)) = 20.
Proof.
  split_and!.
  - vm_compute. reflexivity.
  - vm_compute. reflexivity.
  - apply (chunk_size_is_the_last_one_set unchanged_fs (ChangeChunkSize 20)
             (sample_state (sample_db ["C"]) sample_index [] [true] 10)).
    vm_compute. reflexivity.
Defined.

(** ** The queue of a folder holds the documents of the folder *)

Lemma queues_keyed_parts : kept_by_parts queues_keyed.
Proof.
  assert (Hexec : keeps queues_keyed exec).
  { intros s a s' E Hs. unfold exec in E.
    destruct (m_faults s); injection E as _ <-; exact Hs. }
  assert (Hdb : forall f, keeps queues_keyed (update_db f)).
  { intros f. apply keeps_modify. intros ? ?. assumption. }
  split; intros; try solve [keeps_tac].
  - (* dequeueDocument *)
    intros s a s' E Hs. unfold dequeueDocument, mbind, M_bind, gets in E. cbn in E.
    destruct (firstKey (m_docsToScan s)) as [key|]; [|discriminate].
    destruct (m_docsToScan s !! key) as [[|result queue]|] eqn:Ek; try discriminate.
    injection E as _ <-. intros k q. cbn.
    pose proof (Hs _ _ Ek) as Hkey. apply Forall_cons in Hkey as [_ Hkey].
    destruct queue as [|d queue].
    + rewrite lookup_delete_Some. intros [_ H]. exact (Hs _ _ H).
    + rewrite lookup_insert_Some. intros [[<- <-]|[_ H]]; [exact Hkey | exact (Hs _ _ H)].
  - (* enqueueDocumentInternal *)
    intros s a s' E Hs. inversion E; subst. intros k q. cbn.
    rewrite lookup_insert_Some. intros [[<- <-]|[_ H]]; [|exact (Hs _ _ H)].
    assert (Hq : Forall (fun i => folder i = folder info)
                   (default [] (m_docsToScan s !! folder info))).
    { destruct (m_docsToScan s !! folder info) as [q|] eqn:Eq; [|constructor].
      exact (Hs _ _ Eq). }
    destruct prepend; [constructor; [reflexivity | exact Hq]|].
    apply Forall_app. split; [exact Hq|]. constructor; [reflexivity | constructor].
  - (* removeFolderFromDocumentQueue *)
    unfold removeFolderFromDocumentQueue. keeps_tac.
    intros s ? s' E Hs. inversion E; subst. intros k q. cbn.
    rewrite lookup_delete_Some. intros [_ H]. exact (Hs _ _ H).
Qed.

(** X22. Every queued document waits in the queue of its own folder, after every
    slot and whatever statements fail: the key of a queue is the folder id
    of each of its documents. *)
Theorem queued_documents_wait_under_their_folder (fs : FileSystem) (cs : list slot)
    (s s' : Database) :
  queues_keyed s ->
  calls fs cs s = Some (tt, s') ->
  queues_keyed s'.
Proof.
  intros Hs E.
  assert (Hforce : forall name,
             keeps queues_keyed (update_db (clear_force_indexing name))).
  { intros name. apply keeps_modify. intros ? ?. assumption. }
  assert (Hsize : forall v, keeps queues_keyed (modify (with_chunkSize v))).
  { intros v. apply keeps_modify. intros ? ?. assumption. }
  exact (calls_keeps queues_keyed queues_keyed_parts Hforce Hsize fs cs s tt s' E Hs).
Qed.

Lemma queued_documents_wait_under_their_folder_witness :
  queues_keyed empty_installation /\
  calls fs_with_folder [AddFolder "C" "/a"] empty_installation
    = Some (tt, state_after (calls fs_with_folder [AddFolder "C" "/a"]) empty_installation) /\
  m_docsToScan (state_after (calls fs_with_folder [AddFolder "C" "/a"]) empty_installation)
    = {[1 := [mkDocumentInfo 1 (stat fs_with_folder (mkFileInfo "/a/a.txt" None))
                0 0 false]]} /\
  queues_keyed (state_after (calls fs_with_folder [AddFolder "C" "/a"]) empty_installation).
Proof.
  assert (H : queues_keyed empty_installation).
  { intros key queue. unfold empty_installation. cbn [m_docsToScan].
    rewrite lookup_empty. discriminate. }
  split_and!.
  - exact H.
  - vm_compute. reflexivity.
  - vm_compute. reflexivity.
  - apply (queued_documents_wait_under_their_folder fs_with_folder [AddFolder "C" "/a"]
             empty_installation).
    + exact H.
    + vm_compute. reflexivity.
Defined.

(** ** A document that is put back *)

Lemma firstKey_least (m : gmap Z (list DocumentInfo)) (key : Z) :
  is_Some (m !! key) -> (forall k, is_Some (m !! k) -> key <= k) -> firstKey m = Some key.
Proof.
  intros Hkey Hmin. pose proof (firstKey_spec m) as H.
  destruct (firstKey m) as [key'|].
  - destruct H as [Hkey' Hmin']. f_equal.
    specialize (Hmin key' Hkey'). specialize (Hmin' key Hkey). lia.
  - subst m. destruct Hkey as [q Hq]. rewrite lookup_empty in Hq. discriminate.
Qed.

Lemma dequeueDocument_front (s : Database) (key : Z) (i : DocumentInfo)
    (q : list DocumentInfo) :
  m_docsToScan s !! key = Some (i :: q) ->
  (forall k, is_Some (m_docsToScan s !! k) -> key <= k) ->
  dequeueDocument s
    = Some (i, with_docsToScan (fun m => match q with
                                         | [] => delete key m
                                         | _ => <[key := q]> m
                                         end) s).
Proof.
  intros Hkey Hmin. unfold dequeueDocument, mbind, M_bind, gets. cbn.
  rewrite (firstKey_least _ key (ex_intro _ _ Hkey) Hmin), Hkey. reflexivity.
Qed.

(** X23. A document that [scanQueue] puts back at the front of its queue, as it
    does with a PDF that has pages left and with a text file that has bytes
    left, is the one the next [dequeueDocument] takes, and taking it leaves
    the queues as they were before it was put back: the scan goes on with
    the same document, whatever other folders are waiting. *)
Theorem document_put_back_is_taken_next (s s0 : Database) (info info' : DocumentInfo) :
  queues_nonempty s ->
  queues_keyed s ->
  dequeueDocument s = Some (info, s0) ->
  folder info' = folder info ->
  exists s1 s2,
    enqueueDocumentInternal info' true s0 = Some (tt, s1) /\
    dequeueDocument s1 = Some (info', s2) /\
    m_docsToScan s2 = m_docsToScan s0.
Proof.
  intros Hs Hkeyed Hq Hfolder.
  assert (Hne : m_docsToScan s <> ∅).
  { intros Hempty. unfold dequeueDocument, mbind, M_bind, gets in Hq. cbn in Hq.
    pose proof (firstKey_spec (m_docsToScan s)) as Hspec.
    destruct (firstKey (m_docsToScan s)) as [key|]; [|discriminate].
    destruct Hspec as [[q Hk] _]. rewrite Hempty, lookup_empty in Hk. discriminate. }
  destruct (dequeueDocument_run s Hs Hne) as (key & i & rest & Hkey & Hmin & E).
  rewrite E in Hq. injection Hq as -> <-.
  pose proof (Hkeyed _ _ Hkey) as Hfold. apply Forall_cons in Hfold as [Hfold _].
  rewrite Hfold in Hfolder.
  destruct rest as [|r rest].
  - (* the queue of the folder ran empty and the folder was taken out *)
    eexists _, _. split; [reflexivity|]. erewrite dequeueDocument_front; cycle 1.
    { cbn [m_docsToScan with_docsToScan]. rewrite Hfolder. apply lookup_insert_eq. }
    { cbn [m_docsToScan with_docsToScan]. rewrite Hfolder.
      intros k [q Hq]. apply lookup_insert_Some in Hq as [[<- _]|[_ Hq]]; [lia|].
      apply lookup_delete_Some in Hq as [_ Hq]. apply Hmin. eexists. exact Hq. }
    split; [reflexivity|]. cbn [m_docsToScan with_docsToScan]. rewrite Hfolder.
    rewrite lookup_delete_eq. cbn [default from_option id].
    rewrite delete_insert_eq, delete_delete_eq. reflexivity.
  - eexists _, _. split; [reflexivity|]. erewrite dequeueDocument_front; cycle 1.
    { cbn [m_docsToScan with_docsToScan]. rewrite Hfolder. apply lookup_insert_eq. }
    { cbn [m_docsToScan with_docsToScan]. rewrite Hfolder.
      intros k [q Hq]. apply lookup_insert_Some in Hq as [[<- _]|[_ Hq]]; [lia|].
      apply lookup_insert_Some in Hq as [[<- _]|[_ Hq]]; [lia|].
      apply Hmin. eexists. exact Hq. }
    split; [reflexivity|]. cbn [m_docsToScan with_docsToScan]. rewrite Hfolder.
    rewrite lookup_insert_eq. cbn [default from_option id].
    rewrite !insert_insert_eq. reflexivity.
Qed.

Lemma document_put_back_is_taken_next_witness :
  queues_nonempty state_before_rescan /\
  queues_keyed state_before_rescan /\
  dequeueDocument state_before_rescan
    = Some (queued "/a/a.txt", state_after dequeueDocument state_before_rescan) /\
  folder (mkDocumentInfo 1 (mkFileInfo "/a/a.txt" None) 1 0 true)
    = folder (queued "/a/a.txt") /\
  exists s1 s2,
    enqueueDocumentInternal (mkDocumentInfo 1 (mkFileInfo "/a/a.txt" None) 1 0 true) true
      (state_after dequeueDocument state_before_rescan) = Some (tt, s1) /\
    dequeueDocument s1 = Some (mkDocumentInfo 1 (mkFileInfo "/a/a.txt" None) 1 0 true, s2) /\
    m_docsToScan s2 = m_docsToScan (state_after dequeueDocument state_before_rescan).
Proof.
  assert (H1 : queues_nonempty state_before_rescan).
  { intros key queue. unfold state_before_rescan, sample_state. cbn [m_docsToScan].
    intros [_ <-]%lookup_singleton_Some. discriminate. }
  assert (H2 : queues_keyed state_before_rescan).
  { intros key queue. unfold state_before_rescan, sample_state. cbn [m_docsToScan].
    intros [<- <-]%lookup_singleton_Some. repeat constructor. }
  assert (H3 : dequeueDocument state_before_rescan
               = Some (queued "/a/a.txt", state_after dequeueDocument state_before_rescan)).
  { vm_compute. reflexivity. }
  split_and!; [exact H1 | exact H2 | exact H3 | reflexivity |].
  exact (document_put_back_is_taken_next state_before_rescan _ _
           (mkDocumentInfo 1 (mkFileInfo "/a/a.txt" None) 1 0 true) H1 H2 H3 eq_refl).
Defined.

(** ** Forced indexing *)

(** The rows of the collection are not forced, the rows [others] are in
    place, and the documents and chunks are [v]. *)
Definition force_cleared (collection : string) (others : list collections_row)
    (v : list documents_row * list chunks_row) (s : Database) : Prop :=
  Forall (fun k => k_collection_name k = collection -> k_force_indexing k = false)
         (collections (m_db s)) /\
  (forall k, In k others -> In k (collections (m_db s))) /\
  (documents (m_db s), chunks (m_db s)) = v.

Lemma forceIndexing_loop_force_cleared fs collection others v folders :
  keeps (force_cleared collection others v) (forceIndexing_loop fs collection folders).
Proof.
  assert (Hexec : keeps (force_cleared collection others v) exec).
  { intros s a s' E Hs. unfold exec in E.
    destruct (m_faults s); injection E as _ <-; exact Hs. }
  assert (Hcheck : forall path, keeps (force_cleared collection others v)
                                  (checkAndAddFolderToDB fs path)).
  { intros path. unfold checkAndAddFolderToDB. keeps_tac. }
  assert (Hadd : forall folder_id model,
             keeps (force_cleared collection others v)
               (addCollection collection folder_id 0 model false)).
  { intros folder_id model s a s' E Hs. unfold addCollection in E.
    apply bind_Some in E as (ok & s1 & E1 & E).
    pose proof (Hexec s ok s1 E1 Hs) as (H1 & H2 & H3).
    destruct (negb ok); [injection E as _ <-; split_and!; assumption|].
    apply bind_Some in E as (db & s2 & E2 & E). injection E2 as <- <-.
    destruct (existsb _ _); [injection E as _ <-; split_and!; assumption|].
    apply bind_Some in E as ([] & s3 & E3 & E). injection E3 as <-. injection E as _ <-.
    split_and!.
    - cbn. apply Forall_app. split; [exact H1|]. constructor; [|constructor].
      intros _. reflexivity.
    - intros k Hk. cbn. apply in_or_app. left. apply H2, Hk.
    - exact H3. }
  assert (Hall : forall l, keeps (force_cleared collection others v) (enqueueAll l)).
  { induction l as [|? ? IH]; simpl; keeps_tac. }
  assert (Hscan : forall folder_id entries infos,
             keeps (force_cleared collection others v)
               (scanDocuments_loop fs folder_id entries infos)).
  { intros folder_id entries. induction entries as [|? ? IH]; intros infos; simpl;
      keeps_tac; try apply IH. }
  induction folders as [|? ? IH]; simpl; keeps_tac.
Qed.

(** X24. When no statement fails, [forceIndexing] leaves no row of the collection
    with the force flag set, whatever [addFolder] does with the folders of
    the collection afterwards; the rows of the other collections, the
    documents and the chunks are left as they are. *)
Theorem forceIndexing_clears_force_flag (fs : FileSystem) (collection : string)
    (s : Database) :
  m_faults s = [] ->
  exists s',
    Database_forceIndexing fs collection s = Some (tt, s') /\
    (forall k, In k (collections (m_db s')) ->
       k_collection_name k = collection -> k_force_indexing k = false) /\
    (forall k, In k (collections (m_db s)) ->
       k_collection_name k <> collection -> In k (collections (m_db s'))) /\
    documents (m_db s') = documents (m_db s) /\
    chunks (m_db s') = chunks (m_db s).
Proof.
  intros H. unfold Database_forceIndexing.
  rewrite (bind_run _ _ _ _ _ (selectFoldersFromCollection_ok collection [] s H)).
  cbn [negb app].
  assert (E1 : updateCollectionForceIndexing collection s
               = Some (true, with_db (clear_force_indexing collection) s)).
  { unfold updateCollectionForceIndexing. run_ok H. }
  rewrite (bind_run _ _ _ _ _ E1). cbn [negb].
  set (others := List.filter
                   (fun k => negb (String.eqb (k_collection_name k) collection))
                   (collections (m_db s))).
  assert (H1 : force_cleared collection others (documents (m_db s), chunks (m_db s))
                 (with_db (clear_force_indexing collection) s)).
  { split_and!; [| |reflexivity].
    - cbn. apply Forall_map, Forall_forall. intros k _.
      destruct (String.eqb (k_collection_name k) collection) eqn:Ek; [intros _; reflexivity|].
      intros Hk. apply String.eqb_neq in Ek. contradiction.
    - intros k [Hin Hk]%filter_In. cbn. apply in_map_iff. exists k.
      apply negb_true_iff in Hk. rewrite Hk. split; [reflexivity | exact Hin]. }
  destruct (total_forceIndexing_loop fs collection (folders_of_collection collection (m_db s))
              (with_db (clear_force_indexing collection) s)) as ([] & s' & E).
  exists s'. split; [exact E|].
  destruct (forceIndexing_loop_force_cleared fs collection others _ _ _ _ _ E H1)
    as (Hforce & Hothers & Hv).
  injection Hv as Hd Hc. split_and!; [| | exact Hd | exact Hc].
  - intros k Hk. exact (proj1 (List.Forall_forall _ _) Hforce k Hk).
  - intros k Hin Hk. apply Hothers, filter_In. split; [exact Hin|].
    apply negb_true_iff, String.eqb_neq, Hk.
Qed.

Definition state_with_forced_collection : Database :=
  sample_state (mkDB [mkFolder 1 "/a"] [] [] []
                     [mkCollection "C" 1 0 "model" true; mkCollection "D" 1 0 "model" true] 0)
    empty_index [] [] 100.

Lemma forceIndexing_clears_force_flag_witness :
  m_faults state_with_forced_collection = [] /\
  collections (m_db (state_after (Database_forceIndexing fs_with_folder "C")
                       state_with_forced_collection))
    = [mkCollection "C" 1 0 "model" false; mkCollection "D" 1 0 "model" true] /\
  exists s',
    Database_forceIndexing fs_with_folder "C" state_with_forced_collection = Some (tt, s') /\
    (forall k, In k (collections (m_db s')) ->
       k_collection_name k = "C" -> k_force_indexing k = false) /\
    (forall k, In k (collections (m_db state_with_forced_collection)) ->
       k_collection_name k <> "C" -> In k (collections (m_db s'))) /\
    documents (m_db s') = documents (m_db state_with_forced_collection) /\
    chunks (m_db s') = chunks (m_db state_with_forced_collection).
Proof.
  split_and!.
  - reflexivity.
  - vm_compute. reflexivity.
  - apply (forceIndexing_clears_force_flag fs_with_folder "C" state_with_forced_collection).
    reflexivity.
Defined.

(** ** The chunks of a stream *)

Lemma chunkStream_loop_run fuel folder_id document_id file title author subject keywords page
    maxChunks :
  forall stream charCount words count addedWords s,
    m_faults s = [] ->
    exists stream' count' addedWords' s' rows,
      chunkStream_loop fuel stream folder_id document_id file title author subject keywords
        page maxChunks charCount words count addedWords s
        = Some ((stream', count', addedWords'), s') /\
      m_faults s' = [] /\
      chunks (m_db s') = chunks (m_db s) ++ rows /\
      chunks_on_the_way s' = chunks_on_the_way s ++ map (to_embed folder_id) rows /\
      count' = count + Z.of_nat (List.length rows) /\
      Forall (fun c => c_document_id c = document_id /\ c_file c = file /\ c_page c = page /\
                       c_has_embedding c = 0) rows /\
      (0 < maxChunks -> count < maxChunks -> count' <= maxChunks).
Proof.
  induction fuel as [|fuel IH]; intros stream charCount words count addedWords s H.
  - exists stream, count, addedWords, s, []. cbn [chunkStream_loop map List.length].
    rewrite !app_nil_r. split_and!; try reflexivity; first [exact H | lia | constructor].
  - cbn [chunkStream_loop].
    destruct (Text.atEnd stream).
    { exists stream, count, addedWords, s, []. cbn [map List.length].
      rewrite !app_nil_r. split_and!; try reflexivity; first [exact H | lia | constructor]. }
    destruct (Text.readWord stream) as [word stream1].
    cbv zeta.
    set (charCount1 := charCount + Text.length word).
    set (words1 := if negb (Text.isEmpty word) then words ++ [word] else words).
    rewrite (bind_run (gets m_chunkSize) _ s (m_chunkSize s) s eq_refl).
    destruct ((charCount1 + Z.of_nat (List.length words1) - 1 >=? m_chunkSize s)
              || Text.atEnd stream1).
    + (* a chunk is stored and handed over *)
      rewrite (bind_run _ _ _ _ _
                 (addChunk_ok document_id (Text.join " " words1) file title author subject
                    keywords page (-1) (-1) (Z.of_nat (List.length words1)) 0 s H)).
      cbv beta iota.
      set (row := mkChunk document_id (next_chunk_id (m_db s)) (Text.join " " words1) file
                    title author subject keywords page (-1) (-1)
                    (Z.of_nat (List.length words1)) 0 0).
      match goal with
      | |- context [(appendChunk ?c ≫= _) ?s1] =>
          destruct (appendChunk_run c s1) as (s2 & E2 & Hway2 & _ & Hdb2 & Hfaults2)
      end.
      rewrite (bind_run _ _ _ _ _ E2).
      assert (Hrow : chunks (m_db s2) = chunks (m_db s) ++ [row]).
      { rewrite Hdb2. reflexivity. }
      assert (Hway : chunks_on_the_way s2
                     = chunks_on_the_way s ++ [to_embed folder_id row]).
      { rewrite Hway2. reflexivity. }
      assert (Hf2 : m_faults s2 = []) by (rewrite Hfaults2; exact H).
      destruct ((maxChunks >? 0) && (count + 1 =? maxChunks)) eqn:Ecap.
      * exists stream1, (count + 1), (addedWords + Z.of_nat (List.length words1)), s2, [row].
        split; [reflexivity|]. split_and!; try assumption; try reflexivity.
        -- repeat constructor.
        -- intros _ _. apply andb_true_iff in Ecap as [_ Ecap]. apply Z.eqb_eq in Ecap. lia.
      * destruct (IH stream1 0 [] (count + 1)
                    (addedWords + Z.of_nat (List.length words1)) s2 Hf2)
          as (stream' & count' & added' & s' & rows & E & Hf & Hrows & Hways & Hcount &
              Hall & Hcap).
        exists stream', count', added', s', (row :: rows).
        split; [exact E|]. split_and!.
        -- exact Hf.
        -- rewrite Hrows, Hrow, <- app_assoc. reflexivity.
        -- rewrite Hways, Hway, <- app_assoc. reflexivity.
        -- rewrite Hcount. cbn [List.length]. lia.
        -- constructor; [repeat split | exact Hall].
        -- intros Hpos Hlt. apply Hcap; [exact Hpos|].
           apply andb_false_iff in Ecap as [Ecap|Ecap].
           ++ rewrite Z.gtb_ltb in Ecap. apply Z.ltb_ge in Ecap. lia.
           ++ apply Z.eqb_neq in Ecap. lia.
    + apply IH, H.
Qed.

(** X25. When no statement fails, [chunkStream] hands the embedder every chunk
    it stores, under the id of its row and in the order of the rows: the
    rows it adds to the chunks table are rows of the document, of the file
    and of the page, without an embedding, and the chunks on their way to the
    embedder grow by exactly these. With [maxChunks > 0] there are at most
    [maxChunks] of them. *)
Theorem chunkStream_hands_over_what_it_stores (stream : QTextStream)
    (folder_id document_id : Z) (file title author subject keywords : string)
    (page maxChunks : Z) (s : Database) :
  m_faults s = [] ->
  exists pos s' rows,
    chunkStream stream folder_id document_id file title author subject keywords page
      maxChunks s = Some (pos, s') /\
    m_faults s' = [] /\
    chunks (m_db s') = chunks (m_db s) ++ rows /\
    chunks_on_the_way s' = chunks_on_the_way s ++ map (to_embed folder_id) rows /\
    Forall (fun c => c_document_id c = document_id /\ c_file c = file /\ c_page c = page /\
                     c_has_embedding c = 0) rows /\
    (0 < maxChunks -> Z.of_nat (List.length rows) <= maxChunks).
Proof.
  intros H. unfold chunkStream.
  destruct (chunkStream_loop_run (S (String.length (ts_data stream))) folder_id document_id
              file title author subject keywords page maxChunks stream 0 [] 0 0 s H)
    as (stream' & count' & added' & s1 & rows & E & Hf & Hrows & Hway & Hcount & Hall & Hcap).
  rewrite (bind_run _ _ _ _ _ E). cbv beta iota.
  exists (ts_pos stream').
  destruct (negb (count' =? 0)).
  - unfold guiCollectionItem, updateGuiForCollectionItem, mbind, M_bind, gets, modify.
    cbv beta iota. eexists _, rows. split; [reflexivity|].
    split_and!; try assumption. intros Hpos. specialize (Hcap Hpos Hpos). lia.
  - exists s1, rows. split; [reflexivity|].
    split_and!; try assumption. intros Hpos. specialize (Hcap Hpos Hpos). lia.
Qed.

Lemma chunkStream_hands_over_what_it_stores_witness :
  m_faults (state_before_first_scan "/a/a.txt" [] 10) = [] /\
  exists pos s' rows,
    chunkStream (mkStream "alpha beta gamma delta" 0) 1 1 "a.txt" "" "" "" "" (-1) 1
      (state_before_first_scan "/a/a.txt" [] 10) = Some (pos, s') /\
    m_faults s' = [] /\
    chunks (m_db s') = chunks (m_db (state_before_first_scan "/a/a.txt" [] 10)) ++ rows /\
    chunks_on_the_way s'
      = chunks_on_the_way (state_before_first_scan "/a/a.txt" [] 10)
        ++ map (to_embed 1) rows /\
    Forall (fun c => c_document_id c = 1 /\ c_file c = "a.txt" /\ c_page c = -1 /\
                     c_has_embedding c = 0) rows /\
    (0 < 1 -> Z.of_nat (List.length rows) <= 1).
Proof.
  split; [reflexivity|].
  apply (chunkStream_hands_over_what_it_stores (mkStream "alpha beta gamma delta" 0) 1 1
           "a.txt" "" "" "" "" (-1) 1 (state_before_first_scan "/a/a.txt" [] 10)).
  reflexivity.
Defined.

(** ** Collections of an older version *)

Lemma total_addForcedCollection fs item : total (addForcedCollection fs item).
Proof. unfold addForcedCollection. total_tac. Qed.

Lemma addCollection_true collection folder_id last_update model force s s' :
  addCollection collection folder_id last_update model force s = Some (true, s') ->
  collections (m_db s')
    = collections (m_db s) ++ [mkCollection collection folder_id last_update model force] /\
  folders (m_db s') = folders (m_db s) /\
  documents (m_db s') = documents (m_db s) /\ chunks (m_db s') = chunks (m_db s) /\
  m_docsToScan s' = m_docsToScan s /\ m_watcher s' = m_watcher s /\
  m_scanTimer s' = m_scanTimer s /\ m_collectionMap s' = m_collectionMap s.
Proof.
  unfold addCollection, exec, mbind, M_bind, gets, update_db, modify, mret, M_ret.
  destruct (m_faults s) as [|[|] rest]; cbn [negb].
  - destruct (existsb _ _); intros [= <-]. split_and!; reflexivity.
  - discriminate.
  - cbn. destruct (existsb _ _); [discriminate|]. intros [= <-]. split_and!; reflexivity.
Qed.

(** What [addForcedCollection] must leave alone. *)
Definition beside_registration (s : Database) :=
  (documents (m_db s), chunks (m_db s), m_docsToScan s, m_watcher s, m_scanTimer s).

(** X26. [addForcedCollection] registers a collection of an older version and
    nothing else, whatever statements fail: when it reports success the
    collection row is the last of the table, with the force flag set and the
    name of the current model, and the item is in the map of the user
    interface; in every case no document is queued, no folder is watched and
    the timer is not started. The folder waits for [forceIndexing]. *)
Theorem addForcedCollection_registers_without_scanning (fs : FileSystem)
    (item : CollectionItem) (s : Database) :
  exists ok s',
    addForcedCollection fs item s = Some (ok, s') /\
    beside_registration s' = beside_registration s /\
    (ok = true ->
     exists id rows,
       collections (m_db s')
         = rows ++ [mkCollection (collection item) id 0 (llm_model (m_embLLM s)) true] /\
       m_collectionMap s' !! folder_id item = Some item).
Proof.
  destruct (total_addForcedCollection fs item s) as (ok & s' & E).
  exists ok, s'. split; [exact E|].
  assert (Hexec : forall v, keeps (fun s => (beside_registration s, m_embLLM s) = v) exec).
  { intros v s0 a s0' E0 Hs. unfold exec in E0.
    destruct (m_faults s0); injection E0 as _ <-; exact Hs. }
  unfold addForcedCollection in E. cbv zeta in E.
  apply bind_Some in E as (id & s1 & E1 & E).
  assert (H1 : (beside_registration s1, m_embLLM s1) = (beside_registration s, m_embLLM s)).
  { assert (K : keeps (fun s0 => (beside_registration s0, m_embLLM s0)
                                 = (beside_registration s, m_embLLM s))
                  (checkAndAddFolderToDB fs (folder_path item))).
    { specialize (Hexec (beside_registration s, m_embLLM s)).
      unfold checkAndAddFolderToDB. keeps_tac. }
    exact (K s id s1 E1 eq_refl). }
  pose proof (f_equal fst H1) as Hb1. pose proof (f_equal snd H1) as Hllm1.
  cbn [fst snd] in Hb1, Hllm1. clear H1.
  destruct (id =? -1); [injection E as <- <-; split; [exact Hb1 | discriminate]|].
  apply bind_Some in E as (model & s2 & E2 & E). injection E2 as <- <-.
  destruct (Text.isEmpty (llm_model (m_embLLM s1)));
    [injection E as <- <-; split; [exact Hb1 | discriminate]|].
  apply bind_Some in E as (ok2 & s2 & E2 & E).
  destruct ok2; cbn [negb] in E.
  - apply addCollection_true in E2 as (Hk & _ & Hd & Hc & Hq & Hw & Ht & _).
    apply bind_Some in E as ([] & s3 & E3 & E). injection E3 as <-. injection E as <- <-.
    split.
    + unfold beside_registration in *. cbn [m_db with_collectionMap m_docsToScan m_watcher
        m_scanTimer]. rewrite Hd, Hc, Hq, Hw, Ht. exact Hb1.
    + intros _. exists id, (collections (m_db s1)). split.
      * cbn [m_db with_collectionMap]. rewrite Hk, Hllm1. reflexivity.
      * cbn [m_collectionMap with_collectionMap]. apply lookup_insert_eq.
  - injection E as <- <-. split; [|discriminate].
    assert (K : keeps (fun s0 => (beside_registration s0, m_embLLM s0)
                                 = (beside_registration s, m_embLLM s))
                  (addCollection (collection item) id 0 (llm_model (m_embLLM s1)) true)).
    { specialize (Hexec (beside_registration s, m_embLLM s)).
      unfold addCollection. keeps_tac. }
    assert (H2 : (beside_registration s2, m_embLLM s2)
                 = (beside_registration s, m_embLLM s)).
    { apply (K s1 false s2 E2). rewrite Hb1, Hllm1. reflexivity. }
    exact (f_equal fst H2).
Qed.
